(** * pegen.c: the run-time support of the PEG parser, embedded in Rocq

    The development follows [src/pegen/pegen.c].  Every C function that a
    property below talks about is a definition of the same name; pointers
    into a C string are offsets into a [list ascii], nullable pointers are
    [option], and the Python error indicator is threaded explicitly.

    Modelling boundary.  The arena never runs out of memory in the AST
    helpers and in the f-string code (the [NULL] results of [PyArena_Malloc],
    [_Py_asdl_seq_new], [PyMem_Malloc] are modelled only where a function
    of the memo cache tests them itself); the allocations of the token
    buffer in [fill_token] can fail, each one as the allocator decides;
    C [int] counters do not overflow. *)

From Stdlib Require Import ZArith List String Ascii Bool Lia.
From stdpp Require Import base list.
Import ListNotations.

Local Open Scope Z_scope.

(** ** AST nodes (the part of Python-ast.h that pegen.c looks at) *)

Inductive expr_context_ty := Load | Store | Del | AugLoad | AugStore | Param.

(** Modelled from the spec: the [EXTRA_EXPR(head, tail)] macro of pegen.h,
    the source span handed to every constructor (start of [head], end of
    [tail]). *)
Record location := Location {
  lineno : Z; col_offset : Z; end_lineno : Z; end_col_offset : Z }.

(** A Python [str] object is represented by its UTF-8 encoding, a [bytes]
    object by its content. *)
Inductive PyObject :=
| PyUnicode (u : list ascii)
| PyBytes (b : list ascii).

Definition identifier := list ascii.

#[local] Set Warnings "-register-all".

(** [expr_ty] is a nullable pointer to [struct _expr]; [asdl_seq *] is a
    nullable pointer to a sequence of such pointers. *)
Inductive expr :=
| Name (id : identifier) (ctx : expr_context_ty) (loc : location)
| Tuple (elts : option (list (option expr))) (ctx : expr_context_ty) (loc : location)
| List_ (elts : option (list (option expr))) (ctx : expr_context_ty) (loc : location)
| Subscript (value : expr) (slice : expr) (ctx : expr_context_ty) (loc : location)
| Attribute (value : expr) (attr : identifier) (ctx : expr_context_ty) (loc : location)
| Starred (value : expr) (ctx : expr_context_ty) (loc : location)
| Constant (value : PyObject) (kind : option identifier) (loc : location)
| JoinedStr (values : option (list (option expr))) (loc : location)
| FormattedValue (value : expr) (conversion : Z) (format_spec : option expr)
    (loc : location)
| OtherExpr (kind : Z) (children : list expr) (loc : location).

Definition expr_ty := option expr.
Definition asdl_seq := option (list expr_ty).

Definition expr_loc (e : expr) : location :=
  match e with
  | Name _ _ l | Tuple _ _ l | List_ _ _ l | Subscript _ _ _ l
  | Attribute _ _ _ l | Starred _ _ l | Constant _ _ l | JoinedStr _ l
  | FormattedValue _ _ _ l | OtherExpr _ _ l => l
  end.

Inductive stmt :=
| Expr (value : expr) (loc : location)
| OtherStmt (kind : Z) (loc : location).

Inductive mod_ := Module (body : list stmt).
Definition mod_ty := option mod_.

(** An induction principle that reaches the elements of [Tuple] and [List]
    and the children of the other shapes. *)
Section ExprInd.
Variable P : expr -> Prop.

Definition Popt (o : option expr) : Prop :=
  match o with Some e => P e | None => True end.
Definition Pseq (s : option (list (option expr))) : Prop :=
  match s with Some l => Forall Popt l | None => True end.

Hypothesis HName : forall id c l, P (Name id c l).
Hypothesis HTuple : forall s c l, Pseq s -> P (Tuple s c l).
Hypothesis HList : forall s c l, Pseq s -> P (List_ s c l).
Hypothesis HSubscript : forall v sl c l, P v -> P sl -> P (Subscript v sl c l).
Hypothesis HAttribute : forall v a c l, P v -> P (Attribute v a c l).
Hypothesis HStarred : forall v c l, P v -> P (Starred v c l).
Hypothesis HConstant : forall v k l, P (Constant v k l).
Hypothesis HJoinedStr : forall s l, Pseq s -> P (JoinedStr s l).
Hypothesis HFormattedValue : forall v c f l,
  P v -> Popt f -> P (FormattedValue v c f l).
Hypothesis HOther : forall k ch l, Forall P ch -> P (OtherExpr k ch l).

Fixpoint expr_nested_ind (e : expr) : P e :=
  let opt_ind (o : option expr) : Popt o :=
    match o return Popt o with
    | Some e0 => expr_nested_ind e0
    | None => I
    end in
  let seq_ind (s : option (list (option expr))) : Pseq s :=
    match s return Pseq s with
    | None => I
    | Some l0 =>
        (fix go (l : list (option expr)) : Forall Popt l :=
           match l with
           | [] => List.Forall_nil _
           | o :: l' => List.Forall_cons _ _ _ (opt_ind o) (go l')
           end) l0
    end in
  match e with
  | Name id c l => HName id c l
  | Tuple s c l => HTuple s c l (seq_ind s)
  | List_ s c l => HList s c l (seq_ind s)
  | Subscript v sl c l => HSubscript v sl c l (expr_nested_ind v) (expr_nested_ind sl)
  | Attribute v a c l => HAttribute v a c l (expr_nested_ind v)
  | Starred v c l => HStarred v c l (expr_nested_ind v)
  | Constant v k l => HConstant v k l
  | JoinedStr s l => HJoinedStr s l (seq_ind s)
  | FormattedValue v c f l =>
      HFormattedValue v c f l (expr_nested_ind v) (opt_ind f)
  | OtherExpr k ch l =>
      HOther k ch l
        ((fix go (l : list expr) : Forall P l :=
            match l with
            | [] => List.Forall_nil _
            | x :: l' => List.Forall_cons _ _ _ (expr_nested_ind x) (go l')
            end) ch)
  end.
End ExprInd.

(** ** Context rewriting: [set_expr_context] and its helpers

    The helpers call back into [set_expr_context]; they are written over the
    recursive call [rec] on a non-null node and the knot is tied below.  Each
    [_set_X_context] is called only on a node of kind [X]; on another kind
    (never reached) the model returns the node as it is. *)
Section SetContextHelpers.
Variable rec : expr -> expr_context_ty -> expr.

(** [set_expr_context] as the helpers see it: [NULL] gives [NULL]. *)
Definition set_expr_context_call (e : expr_ty) (ctx : expr_context_ty) : expr_ty :=
  match e with
  | None => None
  | Some e' => Some (rec e' ctx)
  end.

Definition _set_seq_context (seq : asdl_seq) (ctx : expr_context_ty) : asdl_seq :=
  match seq with
  | None => None
  | Some l => Some (List.map (fun e => set_expr_context_call e ctx) l)
  end.

Definition _set_name_context (e : expr) (ctx : expr_context_ty) : expr :=
  match e with
  | Name id _ loc => Name id ctx loc
  | _ => e
  end.

Definition _set_tuple_context (e : expr) (ctx : expr_context_ty) : expr :=
  match e with
  | Tuple elts _ loc => Tuple (_set_seq_context elts ctx) ctx loc
  | _ => e
  end.

Definition _set_list_context (e : expr) (ctx : expr_context_ty) : expr :=
  match e with
  | List_ elts _ loc => List_ (_set_seq_context elts ctx) ctx loc
  | _ => e
  end.

Definition _set_subscript_context (e : expr) (ctx : expr_context_ty) : expr :=
  match e with
  | Subscript value slice _ loc => Subscript value slice ctx loc
  | _ => e
  end.

Definition _set_attribute_context (e : expr) (ctx : expr_context_ty) : expr :=
  match e with
  | Attribute value attr _ loc => Attribute value attr ctx loc
  | _ => e
  end.

Definition _set_starred_context (e : expr) (ctx : expr_context_ty) : expr :=
  match e with
  | Starred value _ loc => Starred (rec value ctx) ctx loc
  | _ => e
  end.
End SetContextHelpers.

(** The [switch (expr->kind)] of [set_expr_context], on a non-null node. *)
Fixpoint set_expr_context_node (e : expr) (ctx : expr_context_ty) {struct e} : expr :=
  match e with
  | Name _ _ _ => _set_name_context e ctx
  | Tuple _ _ _ => _set_tuple_context set_expr_context_node e ctx
  | List_ _ _ _ => _set_list_context set_expr_context_node e ctx
  | Subscript _ _ _ _ => _set_subscript_context e ctx
  | Attribute _ _ _ _ => _set_attribute_context e ctx
  | Starred _ _ _ => _set_starred_context set_expr_context_node e ctx
  | _ => e
  end.

Definition set_expr_context (e : expr_ty) (ctx : expr_context_ty) : expr_ty :=
  set_expr_context_call set_expr_context_node e ctx.

(** ** The Python error indicator and the model's monad *)

(** The exceptions this file raises, each by its own constructor; an
    exception set by a collaborator (the decoders, the tokenizer, the
    warnings machinery) is a [CollabError]. *)
Inductive PyExc :=
| SyntaxError (msg : list ascii) (line : Z) (col : Z)
| TokenizerError (line : Z)
| BadInternalCall
| OverflowError (msg : list ascii)
| MemoryError (msg : list ascii)
| CollabError (what : list ascii).

(** [exc]: the pending exception ([PyErr_Occurred]); [warned]: the
    deprecation warnings that were issued and did not raise. *)
Record PyState := { exc : option PyExc; warned : list (list ascii) }.

Inductive abort := UndefinedBehaviour | OutOfFuel.

Inductive outcome (A : Type) :=
| Ok (a : A) (st : PyState)
| Abort (why : abort).
Arguments Ok {A} a st.
Arguments Abort {A} why.

(** A computation reads and writes the error indicator; it aborts where C
    leaves the behaviour undefined or where a loop of the model is cut. *)
Definition M (A : Type) : Type := PyState -> outcome A.

#[global] Instance M_ret : MRet M := fun A a st => Ok a st.
#[global] Instance M_bind : MBind M := fun A B f m st =>
  match m st with
  | Ok a st' => f a st'
  | Abort w => Abort w
  end.

Definition undefined {A} : M A := fun _ => Abort UndefinedBehaviour.
Definition out_of_fuel {A} : M A := fun _ => Abort OutOfFuel.

Definition PyErr_Occurred : M bool :=
  fun st => Ok (match exc st with Some _ => true | None => false end) st.
Definition PyErr_Set (e : PyExc) : M unit :=
  fun st => Ok tt {| exc := Some e; warned := warned st |}.
Definition PyErr_Clear : M unit :=
  fun st => Ok tt {| exc := None; warned := warned st |}.
Definition PyErr_Warned (msg : list ascii) : M unit :=
  fun st => Ok tt {| exc := exc st; warned := warned st ++ [msg] |}.

(** C strings: a [list ascii] holds the characters before the terminating
    NUL; reading at the length gives the NUL. *)
Definition NUL : ascii := Ascii.zero.
Definition char_at (buf : list ascii) (i : nat) : ascii := nth i buf NUL.
Definition str (s : string) : list ascii := list_ascii_of_string s.
Definition high_bit (c : ascii) : bool :=
  match c with Ascii _ _ _ _ _ _ _ b7 => b7 end.

(** ** Tokens, memo entries and the parser state *)

Inductive node :=
| ExprNode (e : expr)
| ModNode (m : mod_)
| SeqNode (s : list expr_ty)
| TokenNode (index : nat)
| OpaqueNode (addr : Z).

(** Modelled from the spec: the [Memo] struct of pegen.h, a node of a
    token's memo chain with rule-id, stored result and the cursor reached
    when the entry was stored; the chain ([next]) is the list itself. *)
Record Memo := { memo_type : Z; memo_node : option node; memo_mark : nat }.

(** Modelled from the spec: the [Token] struct of pegen.h, with the fields
    that pegen.c reads and writes. *)
Record Token := {
  t_type : Z;
  t_bytes : option (list ascii);
  t_loc : location;
  t_memo : list Memo }.

(** A slot after [memset(.., 0, sizeof(Token))]. *)
Definition zero_token : Token :=
  {| t_type := 0; t_bytes := None; t_loc := Location 0 0 0 0; t_memo := [] |}.

(** Modelled from the spec: the [KeywordToken] struct of pegen.h. *)
Record KeywordToken := { k_str : list ascii; k_type : Z }.

(** Modelled from the spec: the lexer collaborator (v38tokenizer.h), seen
    through what [fill_token] reads.  Each [PyTokenizer_Get] delivers one raw
    token ([start], [end] as offsets into the tokenizer buffer, [None] for
    [NULL]) and leaves [lineno], [first_lineno], [line_start] and
    [multi_line_start] as recorded with it.  When the list is used up the
    tokenizer keeps answering with the last field values and an end
    marker. *)
Record RawToken := {
  rt_type : Z;
  rt_start : option Z;
  rt_end : option Z;
  rt_text : list ascii;
  rt_lineno : Z;
  rt_first_lineno : Z;
  rt_line_start : Z;
  rt_multi_line_start : Z }.

(** Modelled from the spec: [struct tok_state], the state of the lexer
    collaborator with the fields that pegen.c reads. *)
Record tok_state := {
  tok_pending : list RawToken;
  tok_filename : option (list ascii);
  tok_lineno : Z;
  tok_first_lineno : Z;
  tok_line_start : Z;
  tok_multi_line_start : Z }.

(** Modelled from the spec: the [Parser] struct of pegen.h.  [tokens] has
    [size] slots of which the first [fill] are materialised; [mark] is the
    cursor.  The arena is not represented; [start_rule_func] is with the
    collaborators below. *)
Record Parser := {
  tok : tok_state;
  tokens : list Token;
  mark : nat;
  fill : nat;
  size : nat;
  keywords : list (option (list KeywordToken)) }.

(** [p->n_keyword_lists]: the number of buckets of [p->keywords]. *)
Definition n_keyword_lists (p : Parser) : nat := length (keywords p).

Definition set_mark (p : Parser) (m : nat) : Parser :=
  {| tok := tok p; tokens := tokens p; mark := m; fill := fill p;
     size := size p; keywords := keywords p |}.
Definition set_tokens (p : Parser) (ts : list Token) : Parser :=
  {| tok := tok p; tokens := ts; mark := mark p; fill := fill p;
     size := size p; keywords := keywords p |}.
Definition set_tok (p : Parser) (t : tok_state) : Parser :=
  {| tok := t; tokens := tokens p; mark := mark p; fill := fill p;
     size := size p; keywords := keywords p |}.
Definition set_memo (t : Token) (ms : list Memo) : Token :=
  {| t_type := t_type t; t_bytes := t_bytes t; t_loc := t_loc t; t_memo := ms |}.

(** Token kinds of [token.h] that the file names; the header is not part of
    the sources, so the numbers are parameters. *)
Class TokenKinds := {
  ENDMARKER : Z; NAME : Z; STRING : Z; ERRORTOKEN : Z }.

(** The allocators of CPython that [fill_token] calls, seen through whether
    a call returns a block: [PyMem_Realloc] for a token buffer of [newsize]
    slots, [PyMem_Malloc] for the [Token] of the slot [i], and
    [PyBytes_FromStringAndSize] for the bytes object of a token's text (on
    [NULL] it has set a [MemoryError]). *)
Class Allocators := {
  PyMem_Realloc : nat -> bool;
  PyMem_Malloc : nat -> bool;
  PyBytes_FromStringAndSize : list ascii -> bool }.

(** ** Errors, token buffer, memo cache, lookahead *)

(** [raise_syntax_error]: the error is anchored at the last materialised
    token, [p->tokens[p->fill - 1]].  The exception keeps that token's line
    and byte column; the translation of the column to a character offset and
    the lookup of the source line are collaborator calls and are left out. *)
Definition raise_syntax_error (p : Parser) (errmsg : list ascii) : M Z :=
  match fill p with
  | O => undefined
  | S i =>
      match tokens p !! i with
      | None => undefined
      | Some t =>
          _ ← PyErr_Set (SyntaxError errmsg (lineno (t_loc t)) (col_offset (t_loc t)));
          mret 0
      end
  end.

(** [insert_memo]: [arena_ok] is whether [PyArena_Malloc] returned a block
    (on [NULL] the arena has set a [MemoryError]). *)
Definition insert_memo (arena_ok : bool) (p : Parser) (mark_ : nat) (type : Z)
    (node_ : option node) : M (Z * Parser) :=
  if negb arena_ok then
    _ ← PyErr_Set (CollabError (str "MemoryError"));
    mret (-1, p)
  else
    match tokens p !! mark_ with
    | None => undefined
    | Some t =>
        let m := {| memo_type := type; memo_node := node_; memo_mark := mark p |} in
        mret (0, set_tokens p (<[mark_ := set_memo t (m :: t_memo t)]> (tokens p)))
    end.

(** The [for] loop of [update_memo]: the first entry of the rule is rewritten
    in place; [None] when the chain has no entry of the rule. *)
Fixpoint update_chain (chain : list Memo) (type : Z) (node_ : option node)
    (end_mark : nat) : option (list Memo) :=
  match chain with
  | [] => None
  | m :: next =>
      if memo_type m =? type then
        Some ({| memo_type := memo_type m; memo_node := node_;
                 memo_mark := end_mark |} :: next)
      else
        match update_chain next type node_ end_mark with
        | Some next' => Some (m :: next')
        | None => None
        end
  end.

Definition update_memo (arena_ok : bool) (p : Parser) (mark_ : nat) (type : Z)
    (node_ : option node) : M (Z * Parser) :=
  match tokens p !! mark_ with
  | None => undefined
  | Some t =>
      match update_chain (t_memo t) type node_ (mark p) with
      | Some chain' =>
          mret (0, set_tokens p (<[mark_ := set_memo t chain']> (tokens p)))
      | None => insert_memo arena_ok p mark_ type node_
      end
  end.

(** [strncmp(a, b, n) == 0] on C strings. *)
Fixpoint strncmp_eq (a b : list ascii) (n : nat) : bool :=
  match n with
  | O => true
  | S n' =>
      let x := hd NUL a in
      let y := hd NUL b in
      if Ascii.eqb x y then
        if Ascii.eqb x NUL then true else strncmp_eq (tl a) (tl b) n'
      else false
  end.

(** The keyword bucket is an array ended by an entry of type [-1]; a list
    that lacks the sentinel ends the scan where it ends. *)
Fixpoint keyword_scan (bucket : list KeywordToken) (name : list ascii)
    (name_len : nat) (dflt : Z) : Z :=
  match bucket with
  | [] => dflt
  | k :: rest =>
      if k_type k =? -1 then dflt
      else if strncmp_eq (k_str k) name name_len then k_type k
      else keyword_scan rest name name_len dflt
  end.

Section Engine.
Context `{TokenKinds} `{Allocators}.

Definition _get_keyword_or_name_type (p : Parser) (name : list ascii)
    (name_len : nat) : Z :=
  if (n_keyword_lists p <=? name_len)%nat then NAME
  else
    match keywords p !! name_len with
    | Some (Some bucket) => keyword_scan bucket name name_len NAME
    | _ => NAME
    end.

(** Modelled from the spec: [PyTokenizer_Get] of the lexer collaborator,
    one token per call. *)
Definition PyTokenizer_Get (t : tok_state) : RawToken * tok_state :=
  match tok_pending t with
  | rt :: rest =>
      (rt, {| tok_pending := rest; tok_filename := tok_filename t;
              tok_lineno := rt_lineno rt; tok_first_lineno := rt_first_lineno rt;
              tok_line_start := rt_line_start rt;
              tok_multi_line_start := rt_multi_line_start rt |})
  | [] =>
      ({| rt_type := ENDMARKER; rt_start := None; rt_end := None; rt_text := [];
          rt_lineno := tok_lineno t; rt_first_lineno := tok_first_lineno t;
          rt_line_start := tok_line_start t;
          rt_multi_line_start := tok_multi_line_start t |}, t)
  end.

(** The end of [fill_token], from [Token *t = p->tokens[p->fill]] on, for
    the raw token [rt] that the lexer has delivered ([p->tok] is the lexer
    after the call).  The type of the token is stored before its bytes are
    allocated. *)
Definition fill_token_store (p : Parser) (rt : RawToken) : M (Z * Parser) :=
  let type := rt_type rt in
  match tokens p !! fill p with
  | None => undefined
  | Some t =>
      let type_ :=
        if type =? NAME
        then _get_keyword_or_name_type p (rt_text rt) (length (rt_text rt))
        else type in
      if negb (PyBytes_FromStringAndSize (rt_text rt)) then
        _ ← PyErr_Set (CollabError (str "MemoryError"));
        mret (-1, set_tokens p
                    (<[fill p := {| t_type := type_; t_bytes := None;
                                    t_loc := t_loc t; t_memo := t_memo t |}]>
                       (tokens p)))
      else
        let lineno_ :=
          if type =? STRING then tok_first_lineno (tok p) else tok_lineno (tok p) in
        let line_start :=
          if type =? STRING then tok_multi_line_start (tok p)
          else tok_line_start (tok p) in
        let col_offset_ :=
          match rt_start rt with
          | Some start => if line_start <=? start then start - line_start else -1
          | None => -1
          end in
        let end_col_offset_ :=
          match rt_end rt with
          | Some end_ =>
              if tok_line_start (tok p) <=? end_ then end_ - tok_line_start (tok p)
              else -1
          | None => -1
          end in
        let t' :=
          {| t_type := type_;
             t_bytes := Some (rt_text rt);
             t_loc := Location lineno_ col_offset_ (tok_lineno (tok p)) end_col_offset_;
             t_memo := t_memo t |} in
        mret (0, {| tok := tok p; tokens := <[fill p := t']> (tokens p);
                    mark := mark p; fill := S (fill p); size := size p;
                    keywords := keywords p |})
  end.

(** [fill_token].  When the buffer is full it is doubled: on a [NULL] from
    [PyMem_Realloc] the function has overwritten [p->tokens] with it, and
    the [Token] of a new slot is cleared by [memset] without a test of what
    [PyMem_Malloc] returned. *)
Definition fill_token (p : Parser) : M (Z * Parser) :=
  let '(rt, tok') := PyTokenizer_Get (tok p) in
  let p := set_tok p tok' in
  let type := rt_type rt in
  if type =? ERRORTOKEN then
    occurred ← PyErr_Occurred;
    _ ← (if negb occurred then PyErr_Set (TokenizerError (tok_lineno tok'))
         else mret tt);
    mret (-1, p)
  else if (fill p =? size p)%nat then
    let newsize := (size p * 2)%nat in
    if negb (PyMem_Realloc newsize) then
      _ ← PyErr_Set (MemoryError (str "Realloc tokens failed"));
      mret (-1, set_tokens p [])
    else if negb (forallb PyMem_Malloc (seq (size p) (size p))) then undefined
    else
      fill_token_store
        {| tok := tok p; tokens := tokens p ++ replicate (size p) zero_token;
           mark := mark p; fill := fill p; size := newsize;
           keywords := keywords p |} rt
  else fill_token_store p rt.

(** The scan of a memo chain for a rule ([is_memoized]'s [for] loop). *)
Fixpoint memo_find (chain : list Memo) (type : Z) : option Memo :=
  match chain with
  | [] => None
  | m :: next => if memo_type m =? type then Some m else memo_find next type
  end.

(** [is_memoized]: [pres] is the content of the output slot, returned as
    the call leaves it. *)
Definition is_memoized (p : Parser) (type : Z) (pres : option node)
    : M (Z * option node * Parser) :=
  '(r, p) ← (if (mark p =? fill p)%nat then fill_token p
             else (mret (0, p) : M (Z * Parser)));
  if r <? 0 then mret (-1, pres, p)
  else
    match tokens p !! mark p with
    | None => undefined
    | Some t =>
        match memo_find (t_memo t) type with
        | Some m => mret (1, memo_node m, set_mark p (memo_mark m))
        | None => mret (0, pres, p)
        end
    end.

(** C's [(res != NULL) == positive] on ints. *)
Definition non_null_is {A} (res : option A) (positive : Z) : Z :=
  let b := match res with Some _ => 1 | None => 0 end in
  if b =? positive then 1 else 0.

Definition lookahead_with_string {A} (positive : Z)
    (func : Parser -> list ascii -> M (option A * Parser)) (p : Parser)
    (arg : list ascii) : M (Z * Parser) :=
  let mark_ := mark p in
  '(res, p) ← func p arg;
  let p := set_mark p mark_ in
  mret (non_null_is res positive, p).

Definition lookahead_with_int {A} (positive : Z)
    (func : Parser -> Z -> M (option A * Parser)) (p : Parser) (arg : Z)
    : M (Z * Parser) :=
  let mark_ := mark p in
  '(res, p) ← func p arg;
  let p := set_mark p mark_ in
  mret (non_null_is res positive, p).

Definition lookahead {A} (positive : Z)
    (func : Parser -> M (option A * Parser)) (p : Parser) : M (Z * Parser) :=
  let mark_ := mark p in
  '(res, p) ← func p;
  let p := set_mark p mark_ in
  mret (non_null_is res positive, p).

Definition expect_token (p : Parser) (type : Z) : M (option Token * Parser) :=
  '(r, p) ← (if (mark p =? fill p)%nat then fill_token p
             else (mret (0, p) : M (Z * Parser)));
  if r <? 0 then mret (None, p)
  else
    match tokens p !! mark p with
    | None => undefined
    | Some t =>
        if negb (t_type t =? type) then mret (None, p)
        else mret (Some t, set_mark p (S (mark p)))
    end.
End Engine.

(** ** Collaborators of the string code *)

(** What [PyErr_WarnExplicitObject(PyExc_DeprecationWarning, ..)] can do:
    issue the warning, raise it as a [DeprecationWarning] (warnings
    configured as errors), or fail with another exception. *)
Inductive warn_result := WarnIssued | WarnDeprecationRaised | WarnOtherError.

Definition SIZE_MAX : Z := 18446744073709551615.
Definition INT_MAX : Z := 2147483647.

(** The functions of CPython and of the generated parser that the string
    code calls.  A decoder answers [None] for [NULL] (it has then set its own
    exception).  [PyUnicode_READ] lists the code points of a [str] object.
    [start_rule_func] is [p->start_rule_func], the same generated rule in the
    outer parser and in every sub-parser.  [MAXLEVEL] is defined in a header
    outside the sources.  [unbound_expr_value] is the value of
    [expr->v.Subscript.value] at the end of [fstring_compile_expr], where the
    identifier [expr] is not declared: whatever it denotes, it is not
    computed from the module that the sub-parser returned. *)
Class Collaborators := {
  PyErr_WarnExplicitObject : list ascii -> warn_result;
  PyUnicode_DecodeUTF8 : list ascii -> option (list ascii);
  PyUnicode_READ : list ascii -> list Z;
  _PyUnicode_DecodeUnicodeEscape : list ascii -> option (list ascii) * option ascii;
  _PyBytes_DecodeEscape : list ascii -> option (list ascii) * option ascii;
  PyTokenizer_FromString : list ascii -> option tok_state;
  start_rule_func : Parser -> M (mod_ty * Parser);
  MAXLEVEL : nat;
  unbound_expr_value : expr_ty }.

Definition ceq (a b : ascii) : bool := Ascii.eqb a b.

(** The double quote character. *)
Definition dquote : ascii := "034"%char.

Section Strings.
Context `{TokenKinds} `{Collaborators}.

Definition warn_invalid_escape_sequence (p : Parser)
    (first_invalid_escape_char : ascii) : M Z :=
  let msg := str "invalid escape sequence \" ++ [first_invalid_escape_char] in
  match PyErr_WarnExplicitObject msg with
  | WarnIssued => _ ← PyErr_Warned msg; mret 0
  | WarnDeprecationRaised =>
      _ ← PyErr_Clear;
      _ ← raise_syntax_error p msg;
      mret (-1)
  | WarnOtherError =>
      _ ← PyErr_Set (CollabError (str "warning"));
      mret (-1)
  end.

(** [decode_utf8]: skip the run of bytes with the high bit set and decode
    it; the second component is what follows the run ([*sPtr]). *)
Fixpoint high_run (s : list ascii) : list ascii * list ascii :=
  match s with
  | c :: s' =>
      if high_bit c then let '(run, rest) := high_run s' in (c :: run, rest)
      else ([], s)
  | [] => ([], [])
  end.

Definition decode_utf8 (s : list ascii) : option (list ascii) * list ascii :=
  let '(run, rest) := high_run s in (PyUnicode_DecodeUTF8 run, rest).

Definition hex_digit (d : Z) : ascii :=
  nth (Z.to_nat d) (str "0123456789abcdef") NUL.

(** [sprintf(p, "\\U%08x", chr)] *)
Definition sprintf_U08x (chr : Z) : list ascii :=
  str "\U" ++
  List.map (fun k => hex_digit (Z.land (Z.shiftr chr (4 * k)) 15)) [7; 6; 5; 4; 3; 2; 1; 0].

(** The pre-pass of [decode_unicode_with_escapes]: [s] is what is left of
    the input, [out] what has been written to [buf].  One round of the
    [while] loop per unit of [fuel]. *)
Fixpoint escapes_prepass (fuel : nat) (s out : list ascii) : M (option (list ascii)) :=
  match s with
  | [] => mret (Some out)
  | c :: _ =>
      match fuel with
      | O => out_of_fuel
      | S fuel' =>
          let '(s, out, stop) :=
            if ceq c "\"%char then
              let s := tl s in
              let out := out ++ [c] in
              match s with
              | [] => (s, out ++ str "u005c", true)
              | c' :: _ =>
                  if high_bit c' then (s, out ++ str "u005c", false)
                  else (s, out, false)
              end
            else (s, out, false) in
          if stop : bool then mret (Some out)
          else if high_bit (hd NUL s) then
            let '(w, s') := decode_utf8 s in
            match w with
            | None =>
                _ ← PyErr_Set (CollabError (str "UnicodeDecodeError"));
                mret None
            | Some w =>
                escapes_prepass fuel' s'
                  (out ++ concat (List.map sprintf_U08x (PyUnicode_READ w)))
            end
          else escapes_prepass fuel' (tl s) (out ++ [hd NUL s])
      end
  end.

Definition decode_unicode_with_escapes (parser : Parser) (s : list ascii)
    : M (option (list ascii)) :=
  if SIZE_MAX / 6 <? Z.of_nat (length s) then mret None
  else
    buf ← escapes_prepass (length s) s [];
    match buf with
    | None => mret None
    | Some buf =>
        match _PyUnicode_DecodeUnicodeEscape buf with
        | (Some v, Some first_invalid_escape) =>
            r ← warn_invalid_escape_sequence parser first_invalid_escape;
            if r <? 0 then mret None else mret (Some v)
        | (Some v, None) => mret (Some v)
        | (None, _) =>
            _ ← PyErr_Set (CollabError (str "UnicodeDecodeError"));
            mret None
        end
    end.

Definition decode_bytes_with_escapes (p : Parser) (s : list ascii)
    : M (option (list ascii)) :=
  match _PyBytes_DecodeEscape s with
  | (None, _) =>
      _ ← PyErr_Set (CollabError (str "ValueError"));
      mret None
  | (Some result, Some first_invalid_escape) =>
      r ← warn_invalid_escape_sequence p first_invalid_escape;
      if r <? 0 then mret None else mret (Some result)
  | (Some result, None) => mret (Some result)
  end.

(** [PyUnicode_DecodeUTF8Stateful(s, len, NULL, NULL)] *)
Definition PyUnicode_DecodeUTF8Stateful (s : list ascii) : M (option (list ascii)) :=
  match PyUnicode_DecodeUTF8 s with
  | Some u => mret (Some u)
  | None =>
      _ ← PyErr_Set (CollabError (str "UnicodeDecodeError"));
      mret None
  end.
End Strings.

(** ** [parsestr]: prefixes, quotes and the non-f-string decoding *)

(** [Py_ISALPHA] of pyctype.h: the ASCII letters. *)
Definition Py_ISALPHA (c : ascii) : bool :=
  let n := nat_of_ascii c in
  ((65 <=? n) && (n <=? 90) || (97 <=? n) && (n <=? 122))%nat.

(** [Py_ISSPACE] of pyctype.h: space, [\t], [\n], [\v], [\f], [\r]. *)
Definition Py_ISSPACE (c : ascii) : bool :=
  let n := nat_of_ascii c in
  ((n =? 32) || (9 <=? n) && (n <=? 13))%nat.

(** What [parsestr] leaves in its output arguments, with its return value.
    [fstr] is an offset into the string that was passed in. *)
Record parsestr_out := {
  ps_return : Z;
  ps_bytesmode : bool;
  ps_rawmode : bool;
  ps_result : option PyObject;
  ps_fstr : option nat;
  ps_fstrlen : Z }.

(** The prefix loop: [s] is the offset of [quote]; one letter per round. *)
Fixpoint parsestr_prefixes (fuel : nat) (buf : list ascii) (s : nat) (quote : ascii)
    (bytesmode rawmode fmode : bool) : option (nat * ascii * bool * bool * bool) :=
  if negb bytesmode || negb rawmode then
    match fuel with
    | O => None
    | S fuel' =>
        if ceq quote "b"%char || ceq quote "B"%char then
          parsestr_prefixes fuel' buf (S s) (char_at buf (S s)) true rawmode fmode
        else if ceq quote "u"%char || ceq quote "U"%char then
          parsestr_prefixes fuel' buf (S s) (char_at buf (S s)) bytesmode rawmode fmode
        else if ceq quote "r"%char || ceq quote "R"%char then
          parsestr_prefixes fuel' buf (S s) (char_at buf (S s)) bytesmode true fmode
        else if ceq quote "f"%char || ceq quote "F"%char then
          parsestr_prefixes fuel' buf (S s) (char_at buf (S s)) bytesmode rawmode true
        else Some (s, quote, bytesmode, rawmode, fmode)
    end
  else Some (s, quote, bytesmode, rawmode, fmode).

(** The middle of [parsestr], from the test of the quote character to the
    stripping of the quotes: [s0] is the offset of [quote].  [QuotesOk s len]
    gives the offset and the length of the body. *)
Inductive quotes_result :=
| QuotesBadInternalCall
| QuotesTooLong
| QuotesUndefined
| QuotesOk (s : nat) (len : nat).

Definition parsestr_quotes (s : list ascii) (s0 : nat) (quote : ascii) : quotes_result :=
  if negb (ceq quote "'"%char) && negb (ceq quote dquote) then QuotesBadInternalCall
  else
    (* Skip the leading quote char. *)
    let s1 := S s0 in
    let len := (length s - s1)%nat in
    if INT_MAX <? Z.of_nat len then QuotesTooLong
    else
      match len with
      | O =>
          (* strlen(s) == 0: [--len] wraps around and s[len] is read outside
             the string *)
          QuotesUndefined
      | S len1 =>
          if negb (ceq (char_at s (s1 + len1)) quote) then QuotesBadInternalCall
          else if (4 <=? len1)%nat && ceq (char_at s s1) quote
                  && ceq (char_at s (S s1)) quote then
            (* A triple quoted string. *)
            let s2 := (s1 + 2)%nat in
            if negb (ceq (char_at s (s2 + (len1 - 3))) quote)
               || negb (ceq (char_at s (s2 + (len1 - 4))) quote)
            then QuotesBadInternalCall
            else QuotesOk s2 (len1 - 4)
          else QuotesOk s1 len1
      end.

Section Parsestr.
Context `{TokenKinds} `{Collaborators}.

Definition parsestr_fail (bytesmode rawmode : bool) : parsestr_out :=
  {| ps_return := -1; ps_bytesmode := bytesmode; ps_rawmode := rawmode;
     ps_result := None; ps_fstr := None; ps_fstrlen := -1 |}.

(** The end of [parsestr], for a string that is not an f-string: [rest]
    is the string from the body on (up to the NUL), [body] its first [len]
    characters. *)
Definition parsestr_decode (p : Parser) (bytesmode rawmode : bool)
    (rest body : list ascii) : M parsestr_out :=
  (* Avoid invoking escape decoding routines if possible. *)
  let rawmode := rawmode || negb (existsb (fun c => ceq c "\"%char) rest) in
  let finish (result : option PyObject) : M parsestr_out :=
    mret {| ps_return := match result with None => -1 | Some _ => 0 end;
            ps_bytesmode := bytesmode; ps_rawmode := rawmode;
            ps_result := result; ps_fstr := None; ps_fstrlen := -1 |} in
  if bytesmode then
    (* Disallow non-ASCII characters. *)
    if existsb high_bit rest then
      _ ← raise_syntax_error p (str "bytes can only contain ASCII literal characters.");
      mret (parsestr_fail bytesmode rawmode)
    else if rawmode then finish (Some (PyBytes body))
    else
      r ← decode_bytes_with_escapes p body;
      finish (option_map PyBytes r)
  else if rawmode then
    r ← PyUnicode_DecodeUTF8Stateful body;
    finish (option_map PyUnicode r)
  else
    r ← decode_unicode_with_escapes p body;
    finish (option_map PyUnicode r).

(** [s] is the whole token text: prefixes, quotes and body.  [ps_fstrlen]
    is [-1] where C leaves [*fstrlen] as the caller initialised it. *)
Definition parsestr (p : Parser) (s : list ascii) : M parsestr_out :=
  let quote := char_at s 0 in
  match (if Py_ISALPHA quote
         then parsestr_prefixes (S (length s)) s 0 quote false false false
         else Some (O, quote, false, false, false)) with
  | None => out_of_fuel
  | Some (s0, quote, bytesmode, rawmode, fmode) =>
      if fmode && bytesmode then
        _ ← PyErr_Set BadInternalCall; mret (parsestr_fail bytesmode rawmode)
      else
        match parsestr_quotes s s0 quote with
        | QuotesBadInternalCall =>
            _ ← PyErr_Set BadInternalCall; mret (parsestr_fail bytesmode rawmode)
        | QuotesTooLong =>
            _ ← PyErr_Set (OverflowError (str "string to parse is too long"));
            mret (parsestr_fail bytesmode rawmode)
        | QuotesUndefined => undefined
        | QuotesOk s2 len =>
            if fmode then
              (* Just return the bytes. The caller will parse the
                 resulting string. *)
              mret {| ps_return := 0; ps_bytesmode := bytesmode;
                      ps_rawmode := rawmode; ps_result := None;
                      ps_fstr := Some s2; ps_fstrlen := Z.of_nat len |}
            else
              parsestr_decode p bytesmode rawmode (drop s2 s) (take len (drop s2 s))
        end
  end.
End Parsestr.

(** ** The f-string sub-parser

    The f-string body lives inside the token text [buf]; [str] and [end_] are
    offsets into it ([end_] is the offset of the closing quote).  The token
    [t] is handed to every function that builds nodes from it. *)

Definition is_expr_whitespace (c : ascii) : bool :=
  ceq c " "%char || ceq c "009"%char || ceq c "010"%char || ceq c "012"%char.

(** How the scan of [fstring_find_literal] ends: [return -1] (with [*str]
    as it is then), [goto done] after a doubled brace, or the normal exit of
    the loop.  [s] is the end of the literal run. *)
Inductive literal_scan :=
| ScanError (str' : nat)
| ScanDoubled (str' : nat) (s : nat)
| ScanEnd (s : nat).

(** [while (s < end && *s++ != '}') {}] *)
Fixpoint skip_unicode_name (fuel : nat) (buf : list ascii) (end_ s : nat) : nat :=
  match fuel with
  | O => s
  | S fuel' =>
      if (s <? end_)%nat then
        if negb (ceq (char_at buf s) "}"%char) then skip_unicode_name fuel' buf end_ (S s)
        else S s
      else s
  end.

(** The number of [Py_ISSPACE] characters at the head of a C string. *)
Fixpoint count_spaces (l : list ascii) : nat :=
  match l with
  | c :: l' => if Py_ISSPACE c then S (count_spaces l') else O
  | [] => O
  end.

(** The local variables of the scanning loop of [fstring_find_expr].
    [parenstack] holds the cells [0 .. nested_depth - 1] of the C array, the
    top first, so that [nested_depth] is its length. *)
Record expr_scan := {
  sc_str : nat;
  quote_char : ascii;
  string_type : Z;
  parenstack : list ascii }.

Definition nested_depth (st : expr_scan) : nat := length (parenstack st).

Inductive expr_step :=
| StepNext (st : expr_scan)
| StepBreak (st : expr_scan)
| StepError.

Record FstringParser := {
  last_str : option (list ascii);
  expr_list : list expr_ty;
  fmode : bool }.

Definition FstringParser_Init : FstringParser :=
  {| last_str := None; expr_list := []; fmode := false |}.

Definition ExprList_Append (l : list expr_ty) (exp : expr_ty) : list expr_ty :=
  l ++ [exp].

Section Fstring.
Context `{TokenKinds} `{Allocators} `{Collaborators}.

(** What the three [assert]s at the head of [fstring_compile_expr] state
    of its arguments.  The function below is the code with [NDEBUG]: the
    conditions are not tested. *)
Definition fstring_compile_expr_asserts (buf : list ascii)
    (expr_start expr_end : nat) : bool :=
  (expr_start <=? expr_end)%nat
  && ceq (char_at buf (expr_start - 1)) "{"%char
  && (ceq (char_at buf expr_end) "}"%char || ceq (char_at buf expr_end) "!"%char
      || ceq (char_at buf expr_end) ":"%char || ceq (char_at buf expr_end) "="%char).

Definition fstring_compile_expr (p : Parser) (buf : list ascii)
    (expr_start expr_end : nat) : M expr_ty :=
  let body := take (expr_end - expr_start) (drop expr_start buf) in
  if forallb is_expr_whitespace body then
    _ ← raise_syntax_error p (str "f-string: empty expression not allowed");
    mret None
  else
    let str_ := "("%char :: body ++ [")"%char] in
    match PyTokenizer_FromString str_ with
    | None =>
        _ ← PyErr_Set (CollabError (str "PyTokenizer_FromString"));
        mret None
    | Some tok_ =>
        let p2 := {| tok := tok_; tokens := [zero_token]; mark := 0; fill := 0;
                     size := 1; keywords := keywords p |} in
        '(r, p2) ← fill_token p2;
        if r <? 0 then
          (* goto exit: [mod] is read before it was ever assigned *)
          undefined
        else
          _ ← PyErr_Clear;
          '(mod_, _) ← start_rule_func p2;
          match mod_ with
          | None => mret None
          | Some (Module body_) =>
              _ ← (if negb (length body_ =? 1)%nat
                   then raise_syntax_error p (str "f-string: invalid expression")
                   else mret 0);
              mret unbound_expr_value
          end
    end.

(** The [while (s < end)] loop of [fstring_find_literal]. *)
Fixpoint fstring_find_literal_scan (fuel : nat) (p : Parser) (buf : list ascii)
    (end_ : nat) (raw : bool) (recurse_lvl : nat) (str0 s : nat) : M literal_scan :=
  if (s <? end_)%nat then
    match fuel with
    | O => out_of_fuel
    | S fuel' =>
        let braces (ch : ascii) (s : nat) : M literal_scan :=
          if ceq ch "{"%char || ceq ch "}"%char then
            if (recurse_lvl =? 0)%nat then
              if (s <? end_)%nat && ceq (char_at buf s) ch then
                mret (ScanDoubled (S s) s)
              else if ceq ch "}"%char then
                _ ← raise_syntax_error p (str "f-string: single '}' is not allowed");
                mret (ScanError (s - 1))
              else mret (ScanEnd (s - 1))
            else mret (ScanEnd (s - 1))
          else fstring_find_literal_scan fuel' p buf end_ raw recurse_lvl str0 s in
        let ch := char_at buf s in
        let s := S s in
        if negb raw && ceq ch "\"%char && (s <? end_)%nat then
          let ch := char_at buf s in
          let s := S s in
          if ceq ch "N"%char then
            if (s <? end_)%nat then
              if ceq (char_at buf s) "{"%char then
                fstring_find_literal_scan fuel' p buf end_ raw recurse_lvl str0
                  (skip_unicode_name (end_ - S s) buf end_ (S s))
              else mret (ScanEnd (S s))
            else mret (ScanEnd s)
          else
            r ← (if ceq ch "{"%char then warn_invalid_escape_sequence p ch else mret 0);
            if r <? 0 then mret (ScanError str0) else braces ch s
        else braces ch s
    end
  else mret (ScanEnd s).

(** The decoding at [done:]; nothing is decoded for an empty run. *)
Definition fstring_decode_literal (p : Parser) (buf : list ascii) (raw : bool)
    (literal_start s : nat) : M (option (option (list ascii))) :=
  if (literal_start =? s)%nat then mret (Some None)
  else
    let run := take (s - literal_start) (drop literal_start buf) in
    literal ← (if raw then PyUnicode_DecodeUTF8Stateful run
               else decode_unicode_with_escapes p run);
    match literal with
    | None => mret None
    | Some l => mret (Some (Some l))
    end.

(** Returns the status, the new [*str] and [*literal]. *)
Definition fstring_find_literal (p : Parser) (buf : list ascii) (str_ end_ : nat)
    (raw : bool) (recurse_lvl : nat) : M (Z * nat * option (list ascii)) :=
  sc ← fstring_find_literal_scan (S (end_ - str_)) p buf end_ raw recurse_lvl str_ str_;
  match sc with
  | ScanError str' => mret (-1, str', None)
  | ScanDoubled str' s =>
      l ← fstring_decode_literal p buf raw str_ s;
      match l with
      | None => mret (-1, str', None)
      | Some literal => mret (1, str', literal)
      end
  | ScanEnd s =>
      l ← fstring_decode_literal p buf raw str_ s;
      match l with
      | None => mret (-1, s, None)
      | Some literal => mret (0, s, literal)
      end
  end.
End Fstring.

Section FstringExpr.
Context `{TokenKinds} `{Allocators} `{Collaborators}.

Definition closes (opening ch : ascii) : bool :=
  ceq opening "("%char && ceq ch ")"%char
  || ceq opening "["%char && ceq ch "]"%char
  || ceq opening "{"%char && ceq ch "}"%char.

(** One round of the [for] loop over [*str] of
    [fstring_find_expr], entered with [sc_str st < end_].  [StepNext] is
    the state at the end of the body, before [*str] is incremented. *)
Definition fstring_find_expr_step (p : Parser) (buf : list ascii) (end_ : nat)
    (st : expr_scan) : M expr_step :=
  let i := sc_str st in
  let ch := char_at buf i in
  let tripled :=
    (i + 2 <? end_)%nat && ceq (char_at buf (i + 1)) ch
    && ceq (char_at buf (i + 2)) ch in
  if ceq ch "\"%char then
    _ ← raise_syntax_error p (str "f-string expression part cannot include a backslash");
    mret StepError
  else if negb (ceq (quote_char st) NUL) then
    (* We're inside a string. See if we're at the end. *)
    if ceq ch (quote_char st) then
      if string_type st =? 3 then
        if tripled then
          mret (StepNext {| sc_str := i + 2; quote_char := NUL; string_type := 0;
                            parenstack := parenstack st |})
        else mret (StepNext st)
      else
        mret (StepNext {| sc_str := i; quote_char := NUL; string_type := 0;
                          parenstack := parenstack st |})
    else mret (StepNext st)
  else if ceq ch "'"%char || ceq ch dquote then
    if tripled then
      mret (StepNext {| sc_str := i + 2; quote_char := ch; string_type := 3;
                        parenstack := parenstack st |})
    else
      mret (StepNext {| sc_str := i; quote_char := ch; string_type := 1;
                        parenstack := parenstack st |})
  else if ceq ch "["%char || ceq ch "{"%char || ceq ch "("%char then
    if (MAXLEVEL <=? nested_depth st)%nat then
      _ ← raise_syntax_error p (str "f-string: too many nested parenthesis");
      mret StepError
    else
      mret (StepNext {| sc_str := i; quote_char := quote_char st;
                        string_type := string_type st;
                        parenstack := ch :: parenstack st |})
  else if ceq ch "#"%char then
    _ ← raise_syntax_error p (str "f-string expression part cannot include '#'");
    mret StepError
  else if (nested_depth st =? 0)%nat
          && (ceq ch "!"%char || ceq ch ":"%char || ceq ch "}"%char
              || ceq ch "="%char || ceq ch ">"%char || ceq ch "<"%char) then
    (* See if there's a next character. *)
    if (i + 1 <? end_)%nat then
      let next := char_at buf (i + 1) in
      if ceq ch "!"%char && ceq next "="%char
         || ceq ch "="%char && ceq next "="%char
         || ceq ch "<"%char && ceq next "="%char
         || ceq ch ">"%char && ceq next "="%char then
        mret (StepNext {| sc_str := i + 1; quote_char := quote_char st;
                          string_type := string_type st;
                          parenstack := parenstack st |})
      else if ceq ch ">"%char || ceq ch "<"%char then mret (StepNext st)
      else mret (StepBreak st)
    else mret (StepBreak st)
  else if ceq ch "]"%char || ceq ch "}"%char || ceq ch ")"%char then
    match parenstack st with
    | [] =>
        _ ← raise_syntax_error p (str "f-string: unmatched '" ++ [ch] ++ str "'");
        mret StepError
    | opening :: below =>
        if negb (closes opening ch) then
          _ ← raise_syntax_error p
                (str "f-string: closing parenthesis '" ++ [ch]
                 ++ str "' does not match opening parenthesis '" ++ [opening]
                 ++ str "'");
          mret StepError
        else
          mret (StepNext {| sc_str := i; quote_char := quote_char st;
                            string_type := string_type st; parenstack := below |})
    end
  else mret (StepNext st).

(** How the loop ends: by [break] or at [end_], in the state [st]; or by
    [goto error], with [*str] at the character that the round looked at
    (no round moves [*str] before it fails). *)
Inductive expr_scan_result :=
| ExprEnd (st : expr_scan)
| ExprError (str_ : nat).

(** The loop itself. *)
Fixpoint fstring_find_expr_scan (fuel : nat) (p : Parser) (buf : list ascii)
    (end_ : nat) (st : expr_scan) : M expr_scan_result :=
  if (sc_str st <? end_)%nat then
    match fuel with
    | O => out_of_fuel
    | S fuel' =>
        r ← fstring_find_expr_step p buf end_ st;
        match r with
        | StepError => mret (ExprError (sc_str st))
        | StepBreak st' => mret (ExprEnd st')
        | StepNext st' =>
            fstring_find_expr_scan fuel' p buf end_
              {| sc_str := S (sc_str st'); quote_char := quote_char st';
                 string_type := string_type st'; parenstack := parenstack st' |}
        end
    end
  else mret (ExprEnd st).

(** [fstring_parse] one recursion level further down, for a format spec. *)
Variable fstring_parse_rec :
  Parser -> list ascii -> nat -> nat -> bool -> nat -> Token -> M (expr_ty * nat).

Definition unexpected_end_of_string (p : Parser) (str_ : nat)
    : M (Z * nat * option (list ascii) * expr_ty) :=
  _ ← raise_syntax_error p (str "f-string: expecting '}'");
  mret (-1, str_, None, None).

(** [fstring_find_expr] from the conversion character to the
    [FormattedValue] node. *)
Definition fstring_find_expr_tail (p : Parser) (buf : list ascii) (str_ end_ : nat)
    (raw : bool) (recurse_lvl : nat) (t : Token) (simple_expression : expr)
    (expr_text : option (list ascii)) : M (Z * nat * option (list ascii) * expr_ty) :=
  let error (str_ : nat) : M (Z * nat * option (list ascii) * expr_ty) :=
    mret (-1, str_, None, None) in
  (* Check for a conversion char, if present. *)
  let has_conversion := ceq (char_at buf str_) "!"%char in
  if has_conversion && (end_ <=? S str_)%nat then unexpected_end_of_string p (S str_)
  else
    let conversion :=
      if has_conversion then Z.of_nat (nat_of_ascii (char_at buf (S str_))) else -1 in
    let str_ := if has_conversion then S (S str_) else str_ in
    if has_conversion
       && negb ((conversion =? 115) || (conversion =? 114) || (conversion =? 97)) then
      _ ← raise_syntax_error p
            (str "f-string: invalid conversion character: expected 's', 'r', or 'a'");
      error str_
    else if (end_ <=? str_)%nat then unexpected_end_of_string p str_
    else
      (* Check for the format spec, if present. *)
      let has_spec := ceq (char_at buf str_) ":"%char in
      if has_spec && (end_ <=? S str_)%nat then unexpected_end_of_string p (S str_)
      else
        '(format_spec, str_) ←
          (if has_spec then fstring_parse_rec p buf (S str_) end_ raw (S recurse_lvl) t
           else mret (None, str_));
        if has_spec && negb (bool_decide (is_Some format_spec)) then error str_
        else if (end_ <=? str_)%nat || negb (ceq (char_at buf str_) "}"%char) then
          unexpected_end_of_string p str_
        else
          (* We're at a right brace. Consume it. *)
          let str_ := S str_ in
          let conversion :=
            if bool_decide (is_Some expr_text)
               && negb (bool_decide (is_Some format_spec)) && (conversion =? -1)
            then 114 else conversion in
          mret (0, str_, expr_text,
                Some (FormattedValue simple_expression conversion format_spec
                        (Location 1 1 1 1))).

(** Returns the status, the new [*str], [*expr_text] and [*expression]. *)
Definition fstring_find_expr (p : Parser) (buf : list ascii) (str_ end_ : nat)
    (raw : bool) (recurse_lvl : nat) (t : Token)
    : M (Z * nat * option (list ascii) * expr_ty) :=
  let error (str_ : nat) : M (Z * nat * option (list ascii) * expr_ty) :=
    mret (-1, str_, None, None) in
  (* Can only nest one level deep. *)
  if (2 <=? recurse_lvl)%nat then
    _ ← raise_syntax_error p (str "f-string: expressions nested too deeply");
    error str_
  else
    let str_ := S str_ in
    let expr_start := str_ in
    sc ← fstring_find_expr_scan (end_ - str_) p buf end_
           {| sc_str := str_; quote_char := NUL; string_type := 0; parenstack := [] |};
    match sc with
    | ExprError str_ => error str_
    | ExprEnd st =>
        let str_ := sc_str st in
        let expr_end := str_ in
        if negb (ceq (quote_char st) NUL) then
          _ ← raise_syntax_error p (str "f-string: unterminated string");
          error str_
        else
          match parenstack st with
          | opening :: _ =>
              _ ← raise_syntax_error p (str "f-string: unmatched '" ++ [opening] ++ str "'");
              error str_
          | [] =>
              if (end_ <=? str_)%nat then unexpected_end_of_string p str_
              else
                simple_expression ← fstring_compile_expr p buf expr_start expr_end;
                match simple_expression with
                | None => error str_
                | Some simple_expression =>
                    (* Check for =, which puts the text value of the
                       expression in expr_text. *)
                    let debug := ceq (char_at buf str_) "="%char in
                    let str_ :=
                      if debug
                      then (S str_ + count_spaces (drop (S str_) buf))%nat
                      else str_ in
                    let expr_text :=
                      if debug
                      then PyUnicode_DecodeUTF8
                             (take (str_ - expr_start) (drop expr_start buf))
                      else None in
                    if debug && negb (bool_decide (is_Some expr_text)) then
                      _ ← PyErr_Set (CollabError (str "UnicodeDecodeError"));
                      error str_
                    else
                      fstring_find_expr_tail p buf str_ end_ raw recurse_lvl t
                        simple_expression expr_text
                end
          end
    end.
End FstringExpr.

Section FstringAssembler.
Context `{TokenKinds} `{Allocators} `{Collaborators}.

Variable fstring_parse_rec :
  Parser -> list ascii -> nat -> nat -> bool -> nat -> Token -> M (expr_ty * nat).

(** Returns the status, the new [*str], [*literal], [*expr_text] and
    [*expression]. *)
Definition fstring_find_literal_and_expr (p : Parser) (buf : list ascii)
    (str_ end_ : nat) (raw : bool) (recurse_lvl : nat) (t : Token)
    : M (Z * nat * option (list ascii) * option (list ascii) * expr_ty) :=
  (* Get any literal string. *)
  '(result, str_, literal) ← fstring_find_literal p buf str_ end_ raw recurse_lvl;
  if result <? 0 then mret (-1, str_, None, None, None)
  else if result =? 1 then
    (* We have a literal, but don't look at the expression. *)
    mret (1, str_, literal, None, None)
  else if (end_ <=? str_)%nat || ceq (char_at buf str_) "}"%char then
    mret (0, str_, literal, None, None)
  else
    '(r, str_, expr_text, expression) ←
      fstring_find_expr fstring_parse_rec p buf str_ end_ raw recurse_lvl t;
    if r <? 0 then mret (-1, str_, None, None, None)
    else mret (0, str_, literal, expr_text, expression).

(** Make a Constant node out of [*str]. *)
Definition make_str_node_and_del (p : Parser) (s : list ascii) (t : Token) : M expr_ty :=
  let kind := if ceq (char_at s 0) "u"%char then Some (str "u") else None in
  occurred ← PyErr_Occurred;
  if negb (bool_decide (is_Some kind)) && occurred then mret None
  else mret (Some (Constant (PyUnicode s) kind (t_loc t))).

Definition FstringParser_ConcatAndDel (state : FstringParser) (s : list ascii)
    : FstringParser :=
  match s with
  | [] => state
  | _ =>
      match last_str state with
      | None =>
          {| last_str := Some s; expr_list := expr_list state; fmode := fmode state |}
      | Some l =>
          {| last_str := Some (l ++ s); expr_list := expr_list state;
             fmode := fmode state |}
      end
  end.

Definition concat_if_any (state : FstringParser) (s : option (list ascii))
    : FstringParser :=
  match s with
  | Some s => FstringParser_ConcatAndDel state s
  | None => state
  end.

(** The [while (1)] loop of [FstringParser_ConcatFstring]: [inl] is
    [return -1], [inr] the [break] at the end of the f-string. *)
Fixpoint FstringParser_ConcatFstring_loop (fuel : nat) (p : Parser)
    (state : FstringParser) (buf : list ascii) (str_ end_ : nat) (raw : bool)
    (recurse_lvl : nat) (t : Token)
    : M ((nat * FstringParser) + (nat * FstringParser)) :=
  match fuel with
  | O => out_of_fuel
  | S fuel' =>
      '(result, str_, literal, expr_text, expression) ←
        fstring_find_literal_and_expr p buf str_ end_ raw recurse_lvl t;
      if result <? 0 then mret (inl (str_, state))
      else
        (* Add the literal and the expr_text, if any. *)
        let state := concat_if_any state literal in
        let state := concat_if_any state expr_text in
        if result =? 1 then
          FstringParser_ConcatFstring_loop fuel' p state buf str_ end_ raw recurse_lvl t
        else
          match expression with
          | None => mret (inr (str_, state))
          | Some _ =>
              flushed ←
                match last_str state with
                | None => mret (Some state)
                | Some l =>
                    node_ ← make_str_node_and_del p l t;
                    match node_ with
                    | None =>
                        mret None
                    | Some _ =>
                        mret (Some {| last_str := None;
                                      expr_list := ExprList_Append (expr_list state) node_;
                                      fmode := fmode state |})
                    end
                end;
              match flushed with
              | None =>
                  mret (inl (str_, {| last_str := None; expr_list := expr_list state;
                                      fmode := fmode state |}))
              | Some state =>
                  let state :=
                    {| last_str := last_str state;
                       expr_list := ExprList_Append (expr_list state) expression;
                       fmode := fmode state |} in
                  FstringParser_ConcatFstring_loop fuel' p state buf str_ end_ raw
                    recurse_lvl t
              end
          end
  end.

(** Returns the status, the new [*str] and the state. *)
Definition FstringParser_ConcatFstring (p : Parser) (state : FstringParser)
    (buf : list ascii) (str_ end_ : nat) (raw : bool) (recurse_lvl : nat) (t : Token)
    : M (Z * nat * FstringParser) :=
  let state := {| last_str := last_str state; expr_list := expr_list state;
                  fmode := true |} in
  r ← FstringParser_ConcatFstring_loop (S (S (end_ - str_))) p state buf str_ end_ raw
        recurse_lvl t;
  match r with
  | inl (str_, state) => mret (-1, str_, state)
  | inr (str_, state) =>
      if (recurse_lvl =? 0)%nat && (Z.of_nat str_ <? Z.of_nat end_ - 1) then
        _ ← raise_syntax_error p (str "f-string: unexpected end of string");
        mret (-1, str_, state)
      else if negb (recurse_lvl =? 0)%nat && negb (ceq (char_at buf str_) "}"%char) then
        _ ← raise_syntax_error p (str "f-string: expecting '}'");
        mret (-1, str_, state)
      else mret (0, str_, state)
  end.

(** Convert the partial state to an [expr_ty]: a [Constant] or a
    [JoinedStr]. *)
Definition FstringParser_Finish (p : Parser) (state : FstringParser) (t : Token)
    : M expr_ty :=
  if negb (fmode state) then
    make_str_node_and_del p (default [] (last_str state)) t
  else
    flushed ←
      match last_str state with
      | None => mret (Some (expr_list state))
      | Some l =>
          node_ ← make_str_node_and_del p l t;
          match node_ with
          | None => mret None
          | Some _ => mret (Some (ExprList_Append (expr_list state) node_))
          end
      end;
    match flushed with
    | None => mret None
    | Some seq => mret (Some (JoinedStr (Some seq) (t_loc t)))
    end.

Definition fstring_parse_level (p : Parser) (buf : list ascii) (str_ end_ : nat)
    (raw : bool) (recurse_lvl : nat) (t : Token) : M (expr_ty * nat) :=
  '(r, str_, state) ←
    FstringParser_ConcatFstring p FstringParser_Init buf str_ end_ raw recurse_lvl t;
  if r <? 0 then mret (None, str_)
  else
    e ← FstringParser_Finish p state t;
    mret (e, str_).
End FstringAssembler.

(** [fstring_parse] calls itself through [fstring_find_expr], one recursion
    level deeper each time; [fstring_find_expr] refuses level 2 before it
    recurses, so three nested bodies are all that can run. *)
Fixpoint fstring_parse_depth `{TokenKinds} `{Allocators} `{Collaborators} (depth : nat)
    (p : Parser) (buf : list ascii) (str_ end_ : nat) (raw : bool) (recurse_lvl : nat)
    (t : Token) : M (expr_ty * nat) :=
  match depth with
  | O => out_of_fuel
  | S depth' =>
      fstring_parse_level (fstring_parse_depth depth') p buf str_ end_ raw recurse_lvl t
  end.

Section StringToken.
Context `{TokenKinds} `{Allocators} `{Collaborators}.

Definition fstring_parse := fstring_parse_depth 3.

(** The [for] loop that follows the early [return] of
    [concatenate_strings]: [None] is [goto error]. *)
Fixpoint concatenate_strings_loop (p : Parser) (strings : list expr_ty) (i : nat)
    (bytesmode kind_unicode : bool) (final_str : PyObject)
    : M (option (bool * PyObject)) :=
  match strings with
  | [] => mret (Some (kind_unicode, final_str))
  | Some (Constant s kind_ _) :: rest =>
      let this_bytesmode := match s with PyBytes _ => true | PyUnicode _ => false end in
      if negb (i =? 0)%nat && negb (Bool.eqb bytesmode this_bytesmode) then
        _ ← raise_syntax_error p (str "cannot mix bytes and nonbytes literals");
        mret None
      else
        match final_str, s with
        | PyBytes f, PyBytes b =>
            concatenate_strings_loop p rest (S i) this_bytesmode kind_unicode
              (PyBytes (f ++ b))
        | PyUnicode f, PyUnicode u =>
            concatenate_strings_loop p rest (S i) this_bytesmode
              (kind_unicode || bool_decide (is_Some kind_)) (PyUnicode (f ++ u))
        | _, _ =>
            _ ← PyErr_Set (CollabError (str "TypeError"));
            mret None
        end
  | _ :: _ => undefined
  end.

(** What follows the early [return] in [concatenate_strings]. *)
Definition concatenate_strings_rest (p : Parser) (strings : list expr_ty)
    : M expr_ty :=
  let first := nth 0 strings None in
  let last_ := nth (length strings - 1) strings None in
  match first, last_ with
  | Some (Constant v _ first_loc), Some last_node =>
      let final_str :=
        match v with PyBytes _ => PyBytes [] | PyUnicode _ => PyUnicode [] end in
      r ← concatenate_strings_loop p strings 0 false false final_str;
      match r : option (bool * PyObject) with
      | Some (kind_unicode, final_str) =>
          let u_kind := if kind_unicode then Some (str "u") else None in
          mret (Some (Constant final_str u_kind
                        (Location (lineno first_loc) (col_offset first_loc)
                           (end_lineno (expr_loc last_node))
                           (end_col_offset (expr_loc last_node)))))
      | None => mret None
      end
  | _, _ => undefined
  end.

(** A C function body that may [return] early: [inl v] has returned [v],
    [inr tt] goes on to the next statement. *)
Definition or_else {A} (early : A + unit) (rest : M A) : M A :=
  match early with
  | inl v => mret v
  | inr _ => rest
  end.

(** [concatenate_strings]: [return first;] stands before the code that
    would merge the strings.  An empty sequence is excluded by the
    [assert]; [asdl_seq_GET(strings, 0)] is then read out of bounds. *)
Definition concatenate_strings (p : Parser) (strings : list expr_ty) : M expr_ty :=
  match strings with
  | [] => undefined
  | _ :: _ =>
      let first := nth 0 strings None in
      or_else (inl first) (concatenate_strings_rest p strings)
  end.

Definition string_token (p : Parser) : M (expr_ty * Parser) :=
  '(t, p) ← expect_token p STRING;
  match t with
  | None => mret (None, p)
  | Some t =>
      match t_bytes t with
      | None =>
          _ ← PyErr_Set (CollabError (str "TypeError"));
          mret (None, p)
      | Some the_str =>
          o ← parsestr p the_str;
          if negb (ps_return o =? 0) then mret (None, p)
          else
            (* Check if it has a 'u' prefix *)
            let kind_unicode := ceq (char_at the_str 0) "u"%char in
            match ps_fstr o with
            | Some fstr =>
                (* We are parsing an f-string. *)
                '(result, _, state) ←
                  FstringParser_ConcatFstring fstring_parse p FstringParser_Init the_str
                    fstr (fstr + Z.to_nat (ps_fstrlen o)) (ps_rawmode o) 0 t;
                e ← FstringParser_Finish p state t;
                mret (e, p)
            | None =>
                match ps_result o with
                | None => undefined
                | Some final_str =>
                    let u_kind :=
                      if negb (ps_bytesmode o) && kind_unicode then Some (str "u")
                      else None in
                    mret (Some (Constant final_str u_kind (t_loc t)), p)
                end
            end
      end
  end.
End StringToken.

(** ** A concrete environment for the examples

    Token numbers as in CPython 3.8; decoders that accept plain ASCII
    without backslashes (where every decoder is the identity) and refuse
    everything else; a tokenizer and a start rule that read an f-string
    expression as the single statement [x]. *)
Module Example.
#[export] Instance token_kinds : TokenKinds :=
  {| ENDMARKER := 0; NAME := 1; STRING := 3; ERRORTOKEN := 59 |}.

(** Allocators that always return a block. *)
#[export] Instance allocators : Allocators :=
  {| PyMem_Realloc := fun _ => true; PyMem_Malloc := fun _ => true;
     PyBytes_FromStringAndSize := fun _ => true |}.

Definition plain (s : list ascii) : bool :=
  forallb (fun c => negb (high_bit c) && negb (ceq c "\"%char)) s.

Definition loc0 : location := Location 1 0 1 0.

Definition name_x : expr := Name (str "x") Load (Location 1 1 1 2).

(** What the undeclared [expr] of [fstring_compile_expr] stands for in
    the examples: a node that no parse produces. *)
Definition unbound_node : expr := Name (str "?") Load (Location 0 0 0 0).

Definition raw_token (type : Z) (text : list ascii) (start : Z) : RawToken :=
  {| rt_type := type; rt_start := Some start;
     rt_end := Some (start + Z.of_nat (length text)); rt_text := text;
     rt_lineno := 1; rt_first_lineno := 1; rt_line_start := 0;
     rt_multi_line_start := 0 |}.

Definition tokenizer (pending : list RawToken) : tok_state :=
  {| tok_pending := pending; tok_filename := None; tok_lineno := 1;
     tok_first_lineno := 1; tok_line_start := 0; tok_multi_line_start := 0 |}.

#[export] Instance collaborators : Collaborators :=
  {| PyErr_WarnExplicitObject := fun _ => WarnIssued;
     PyUnicode_DecodeUTF8 := fun s => if plain s then Some s else None;
     PyUnicode_READ := List.map (fun c => Z.of_nat (nat_of_ascii c));
     _PyUnicode_DecodeUnicodeEscape := fun s => (if plain s then Some s else None, None);
     _PyBytes_DecodeEscape := fun s => (if plain s then Some s else None, None);
     PyTokenizer_FromString := fun s => Some (tokenizer [raw_token 7 (str "(") 0]);
     start_rule_func := fun p => mret (Some (Module [Expr name_x loc0]), p);
     MAXLEVEL := 200;
     unbound_expr_value := Some unbound_node |}.

(** A parser that has read nothing yet and whose tokenizer will deliver
    the given raw tokens. *)
Definition parser_on (pending : list RawToken) : Parser :=
  {| tok := tokenizer pending; tokens := [zero_token]; mark := 0; fill := 0;
     size := 1; keywords := [] |}.

(** A parser whose only token, already materialised, is a STRING with the
    given text. *)
Definition parser_at_string (text : list ascii) : Parser :=
  {| tok := tokenizer [];
     tokens := [{| t_type := 3; t_bytes := Some text;
                   t_loc := Location 1 0 1 (Z.of_nat (length text)); t_memo := [] |}];
     mark := 1; fill := 1; size := 1; keywords := [] |}.

Definition string_tok (text : list ascii) : Token :=
  {| t_type := 3; t_bytes := Some text;
     t_loc := Location 1 0 1 (Z.of_nat (length text)); t_memo := [] |}.

Definition st0 : PyState := {| exc := None; warned := [] |}.
End Example.

(** ** Vocabulary of the properties *)

(** A run of the memo cache: calls of [insert_memo] and [update_memo], with
    the cursor moving in between. *)
Inductive memo_op :=
| OpInsert (arena_ok : bool) (at_ : nat) (type : Z) (node_ : option node)
| OpUpdate (arena_ok : bool) (at_ : nat) (type : Z) (node_ : option node)
| OpSetMark (m : nat).

Fixpoint run_memo_ops (ops : list memo_op) (p : Parser) : M Parser :=
  match ops with
  | [] => mret p
  | op :: ops' =>
      p' ← match op with
           | OpInsert a i ty n => '(_, p') ← insert_memo a p i ty n; mret p'
           | OpUpdate a i ty n => '(_, p') ← update_memo a p i ty n; mret p'
           | OpSetMark m => mret (set_mark p m)
           end;
      run_memo_ops ops' p'
  end.

(** The entries of a rule-id in a chain, and the rule-ids of a token's
    chain in the order of the chain. *)
Definition entries_of (type : Z) (chain : list Memo) : list Memo :=
  List.filter (fun m => memo_type m =? type) chain.

Definition rule_ids (t : Token) : list Z := List.map memo_type (t_memo t).

(** What the memo cache answers: for a position and a rule-id, the node and
    the end position that [is_memoized] would deliver there. *)
Definition memo_view (p : Parser) (i : nat) (r : Z) : option (option node * nat) :=
  match tokens p !! i with
  | Some t =>
      match memo_find (t_memo t) r with
      | Some m => Some (memo_node m, memo_mark m)
      | None => None
      end
  | None => None
  end.

Definition view_store (v : nat -> Z -> option (option node * nat)) (pos : nat) (r : Z)
    (n : option node) (cursor : nat) : nat -> Z -> option (option node * nat) :=
  fun i r' => if (i =? pos)%nat && (r' =? r) then Some (n, cursor) else v i r'.

(** The same run on the answers alone: both operations store under the key
    (position, rule-id); without a block from the arena [insert_memo] stores
    nothing and [update_memo] only rewrites an entry that is there. *)
Fixpoint run_view (ops : list memo_op) (cursor : nat)
    (v : nat -> Z -> option (option node * nat)) : nat -> Z -> option (option node * nat) :=
  match ops with
  | [] => v
  | OpInsert a pos r n :: ops' =>
      run_view ops' cursor (if a then view_store v pos r n cursor else v)
  | OpUpdate a pos r n :: ops' =>
      run_view ops' cursor
        (if a || match v pos r with Some _ => true | None => false end
         then view_store v pos r n cursor else v)
  | OpSetMark m :: ops' => run_view ops' m v
  end.

(** One operation of a run. *)
Definition memo_op_run (op : memo_op) (p : Parser) : M Parser :=
  match op with
  | OpInsert a i ty n => '(_, p') ← insert_memo a p i ty n; mret p'
  | OpUpdate a i ty n => '(_, p') ← update_memo a p i ty n; mret p'
  | OpSetMark m => mret (set_mark p m)
  end.

(** The discipline of a memoised rule: it calls [insert_memo] for a position
    and a rule-id only after [is_memoized] has missed there, that is when
    the chain of the token has no entry of the rule-id. *)
Fixpoint inserts_after_miss (ops : list memo_op) (p : Parser) (st : PyState) : bool :=
  match ops with
  | [] => true
  | op :: ops' =>
      match op with
      | OpInsert _ i ty _ =>
          match memo_view p i ty with None => true | Some _ => false end
      | _ => true
      end
      && match memo_op_run op p st with
         | Ok p' st' => inserts_after_miss ops' p' st'
         | Abort _ => true
         end
  end.


Definition quotes (q : ascii) (triple : bool) : list ascii :=
  if triple then [q; q; q] else [q].

Definition bytes_literal (prefix : list ascii) (q : ascii) (triple : bool)
    (body : list ascii) : list ascii :=
  prefix ++ quotes q triple ++ body ++ quotes q triple.


(** [t] is the last token that the parser has materialised, the one at
    which [raise_syntax_error] anchors its error. *)
Definition last_token (p : Parser) (t : Token) : Prop :=
  exists i, fill p = S i /\ tokens p !! i = Some t.

(** The scanning state of [fstring_find_expr], [k] characters further on. *)
Definition advance (st : expr_scan) (k : nat) : expr_scan :=
  {| sc_str := k + sc_str st; quote_char := quote_char st;
     string_type := string_type st; parenstack := parenstack st |}.



(** The collaborators [C] with another start rule. *)
Definition with_start_rule (C : Collaborators)
    (rule : Parser -> M (mod_ty * Parser)) : Collaborators :=
  {| PyErr_WarnExplicitObject := @PyErr_WarnExplicitObject C;
     PyUnicode_DecodeUTF8 := @PyUnicode_DecodeUTF8 C;
     PyUnicode_READ := @PyUnicode_READ C;
     _PyUnicode_DecodeUnicodeEscape := @_PyUnicode_DecodeUnicodeEscape C;
     _PyBytes_DecodeEscape := @_PyBytes_DecodeEscape C;
     PyTokenizer_FromString := @PyTokenizer_FromString C;
     start_rule_func := rule;
     MAXLEVEL := @MAXLEVEL C;
     unbound_expr_value := @unbound_expr_value C |}.

(** Two start rules that differ at most in the statements of the modules
    they return: on every parser and error indicator both fail, or both
    return a module, with the same number of statements and the same error
    indicator. *)
Definition same_up_to_statements (rule1 rule2 : Parser -> M (mod_ty * Parser)) : Prop :=
  forall p st,
    match rule1 p st, rule2 p st with
    | Ok (m1, _) st1, Ok (m2, _) st2 =>
        st1 = st2
        /\ match m1, m2 with
           | Some (Module body1), Some (Module body2) => length body1 = length body2
           | None, None => True
           | _, _ => False
           end
    | Abort why1, Abort why2 => why1 = why2
    | _, _ => False
    end.

(** The start rule that returns the module of the single statement [e]. *)
Definition rule_of_expression (e : expr) (loc : location)
    : Parser -> M (mod_ty * Parser) :=
  fun p => mret (Some (Module [Expr e loc]), p).


(** The decoding of a literal run at [done:] in [fstring_find_literal]. *)
Definition decode_run `{TokenKinds} `{Collaborators} (p : Parser) (raw : bool)
    (run : list ascii) : M (option (list ascii)) :=
  if raw then PyUnicode_DecodeUTF8Stateful run else decode_unicode_with_escapes p run.

(** * The rest of pegen.c

    The functions below are the ones that the generated rules call besides
    those above: the remaining token primitives, the sequence helpers, the
    builders of comparison, assignment-target and argument nodes, the
    expression list of the f-string assembler, and the driver
    [run_parser]. *)

(** ** More token primitives *)

(** Further token kinds of [token.h], parameters like the ones above. *)
Class LayoutKinds := {
  NEWLINE : Z; DEDENT : Z; DOT : Z; ELLIPSIS : Z }.

(** [strcmp(a, b) == 0] on C strings: the comparison ends at the first NUL
    of either string, and a list that is used up reads as NUL. *)
Fixpoint strcmp_eq (a b : list ascii) : bool :=
  match a, b with
  | [], [] => true
  | x :: a', [] => Ascii.eqb x NUL
  | [], y :: b' => Ascii.eqb NUL y
  | x :: a', y :: b' =>
      if Ascii.eqb x y then
        if Ascii.eqb x NUL then true else strcmp_eq a' b'
      else false
  end.

(** What a C function sees of a bytes object: the bytes in front of the
    first NUL. *)
Fixpoint c_string (b : list ascii) : list ascii :=
  match b with
  | [] => []
  | c :: b' => if Ascii.eqb c NUL then [] else c :: c_string b'
  end.

Section Primitives.
Context `{TokenKinds} `{Allocators} `{LayoutKinds}.

(** [keyword_token]: [PyBytes_AsString] of a token without bytes is
    [NULL], which [strcmp] must not be given. *)
Definition keyword_token (p : Parser) (val : list ascii) : M (option Token * Parser) :=
  let mark_ := mark p in
  '(t, p) ← expect_token p NAME;
  match t with
  | None => mret (None, p)
  | Some t =>
      match t_bytes t with
      | None => undefined
      | Some bytes =>
          if strcmp_eq val bytes then mret (Some t, p)
          else mret (None, set_mark p mark_)
      end
  end.

(** The [for] loop of [get_last_nonnwhitespace_token], entered with
    [m = n - 1]; [token] is the variable of that name. *)
Fixpoint last_nonwhitespace_scan (p : Parser) (n : nat) (token : option Token)
    : M (option Token) :=
  match n with
  | O => mret token
  | S m =>
      match tokens p !! m with
      | None => undefined
      | Some t =>
          if negb (t_type t =? ENDMARKER)
             && ((t_type t <? NEWLINE) || (DEDENT <? t_type t))
          then mret (Some t)
          else last_nonwhitespace_scan p m (Some t)
      end
  end.

Definition get_last_nonnwhitespace_token (p : Parser) : M (option Token) :=
  last_nonwhitespace_scan p (mark p) None.
End Primitives.

(** ** Sequences *)

(** Modelled from the spec: the sequence container of the AST collaborator
    ([asdl_seq] of asdl.h), a nullable pointer to an array of nullable
    pointers.  [asdl_seq_LEN] of [NULL] is 0; a cell is read and written
    inside the sequence only, anything else is undefined; a new sequence is
    zeroed. *)
Definition asdl_seq_of (A : Type) : Type := option (list (option A)).

Definition asdl_seq_LEN {A} (s : asdl_seq_of A) : nat :=
  match s with
  | Some l => length l
  | None => O
  end.

Definition asdl_seq_GET {A} (s : asdl_seq_of A) (i : nat) : M (option A) :=
  match s with
  | Some l =>
      match l !! i with
      | Some x => mret x
      | None => undefined
      end
  | None => undefined
  end.

Definition asdl_seq_SET {A} (l : list (option A)) (i : nat) (v : option A)
    : M (list (option A)) :=
  if (i <? length l)%nat then mret (<[i := v]> l) else undefined.

Definition _Py_asdl_seq_new {A} (size_ : nat) : list (option A) :=
  replicate size_ None.

(** [for (i = from; i < to; i++) body], with bounds that the body leaves
    alone; [s] is what the body reads and writes. *)
Fixpoint for_loop_rec {St : Type} (n i : nat) (body : nat -> St -> M St) (s : St)
    : M St :=
  match n with
  | O => mret s
  | S n' => s' ← body i s; for_loop_rec n' (S i) body s'
  end.

Definition for_loop {St : Type} (from to : nat) (body : nat -> St -> M St) (s : St)
    : M St :=
  for_loop_rec (to - from) from body s.

(** [ptr->field] on a nullable pointer. *)
Definition deref {A} (ptr : option A) : M A :=
  match ptr with
  | Some a => mret a
  | None => undefined
  end.

Section SeqHelpers.
Context {A : Type}.

(** [at_address_1 a]: the pointer is the address 1, the placeholder that
    [seq_flatten] passes over. *)
Variable at_address_1 : A -> bool.

Definition is_placeholder (cell : option A) : bool :=
  match cell with
  | Some a => at_address_1 a
  | None => false
  end.

Definition singleton_seq (a : option A) : M (asdl_seq_of A) :=
  let seq := _Py_asdl_seq_new 1 in
  seq ← asdl_seq_SET seq 0 a;
  mret (Some seq).

Definition seq_insert_in_front (a : option A) (seq : asdl_seq_of A) : M (asdl_seq_of A) :=
  match seq with
  | None => singleton_seq a
  | Some _ =>
      let new_seq := _Py_asdl_seq_new (asdl_seq_LEN seq + 1) in
      new_seq ← asdl_seq_SET new_seq 0 a;
      new_seq ← for_loop 1 (length new_seq)
                  (fun i new_seq =>
                     x ← asdl_seq_GET seq (i - 1);
                     asdl_seq_SET new_seq i x)
                  new_seq;
      mret (Some new_seq)
  end.

Definition _get_flattened_seq_size (seqs : asdl_seq_of (list (option A))) : M nat :=
  for_loop 0 (asdl_seq_LEN seqs)
    (fun i size_ =>
       inner_seq ← asdl_seq_GET seqs i;
       first ← asdl_seq_GET inner_seq 0;
       if is_placeholder first then mret size_
       else mret (size_ + asdl_seq_LEN inner_seq)%nat)
    O.

(** The two nested loops of [seq_flatten]; the result is the sequence with
    [flattened_seq_idx] as the loops leave it. *)
Definition seq_flatten_fill (seqs : asdl_seq_of (list (option A)))
    (flattened_seq : list (option A)) : M (list (option A) * nat) :=
  for_loop 0 (asdl_seq_LEN seqs)
    (fun i '(flattened_seq, flattened_seq_idx) =>
       inner_seq ← asdl_seq_GET seqs i;
       first ← asdl_seq_GET inner_seq 0;
       if is_placeholder first then mret (flattened_seq, flattened_seq_idx)
       else
         for_loop 0 (asdl_seq_LEN inner_seq)
           (fun j '(flattened_seq, flattened_seq_idx) =>
              x ← asdl_seq_GET inner_seq j;
              flattened_seq ← asdl_seq_SET flattened_seq flattened_seq_idx x;
              mret (flattened_seq, S flattened_seq_idx))
           (flattened_seq, flattened_seq_idx))
    (flattened_seq, O).

(** [seq_flatten]; its [assert] compares the index that [seq_flatten_fill]
    returns with the size computed before. *)
Definition seq_flatten (seqs : asdl_seq_of (list (option A))) : M (asdl_seq_of A) :=
  flattened_seq_size ← _get_flattened_seq_size seqs;
  let flattened_seq := _Py_asdl_seq_new flattened_seq_size in
  '(flattened_seq, _) ← seq_flatten_fill seqs flattened_seq;
  mret (Some flattened_seq).

Definition seq_get_head (previous : option A) (seq : asdl_seq_of A) : M (option A) :=
  if (asdl_seq_LEN seq =? 0)%nat then mret previous
  else asdl_seq_GET seq 0.

Definition seq_get_tail (previous : option A) (seq : asdl_seq_of A) : M (option A) :=
  if (asdl_seq_LEN seq =? 0)%nat then mret previous
  else asdl_seq_GET seq (asdl_seq_LEN seq - 1).

Definition _join_seqs (a b : asdl_seq_of A) : M (asdl_seq_of A) :=
  let first_len := asdl_seq_LEN a in
  let second_len := asdl_seq_LEN b in
  let new_seq := _Py_asdl_seq_new (first_len + second_len) in
  '(new_seq, k) ← for_loop 0 first_len
                    (fun i '(new_seq, k) =>
                       x ← asdl_seq_GET a i;
                       new_seq ← asdl_seq_SET new_seq k x;
                       mret (new_seq, S k))
                    (new_seq, O);
  '(new_seq, _) ← for_loop 0 second_len
                    (fun i '(new_seq, k) =>
                       x ← asdl_seq_GET b i;
                       new_seq ← asdl_seq_SET new_seq k x;
                       mret (new_seq, S k))
                    (new_seq, k);
  mret (Some new_seq).
End SeqHelpers.

(** [seq_count_dots]: the loop with [n] rounds to go. *)
Fixpoint seq_count_dots_loop `{LayoutKinds} (n i : nat) (seq : asdl_seq_of Token)
    (number_of_dots : Z) : M Z :=
  match n with
  | O => mret number_of_dots
  | S n' =>
      current_expr ← asdl_seq_GET seq i;
      current_expr ← deref current_expr;
      if t_type current_expr =? ELLIPSIS then
        seq_count_dots_loop n' (S i) seq (number_of_dots + 3)
      else if t_type current_expr =? DOT then
        seq_count_dots_loop n' (S i) seq (number_of_dots + 1)
      else mret (-1)
  end.

Definition seq_count_dots `{LayoutKinds} (seq : asdl_seq_of Token) : M Z :=
  seq_count_dots_loop (asdl_seq_LEN seq) 0 seq 0.

(** [map_names_to_ids]: [e->v.Name.id] is read from every element, which
    must be a [Name]. *)
Definition map_names_to_ids (seq : asdl_seq_of expr) : M (asdl_seq_of identifier) :=
  let len := asdl_seq_LEN seq in
  let new_seq := _Py_asdl_seq_new len in
  new_seq ← for_loop 0 len
              (fun i new_seq =>
                 e ← asdl_seq_GET seq i;
                 e ← deref e;
                 match e with
                 | Name id _ _ => asdl_seq_SET new_seq i (Some id)
                 | _ => undefined
                 end)
              new_seq;
  mret (Some new_seq).

(** ** Pairs and the nodes built from them *)

(** Modelled from the spec: the structs [CmpopExprPair], [KeyValuePair],
    [NameDefaultPair], [SlashWithDefault], [StarEtc] and [KeywordOrStarred]
    of pegen.h, with the fields that their constructors in pegen.c assign.
    An [arg] node and the element of a [KeywordOrStarred] are pointers that
    pegen.c only passes on. *)
Record CmpopExprPair := { cmpop : Z; cmp_expr : expr_ty }.
Record KeyValuePair := { kv_key : expr_ty; kv_value : expr_ty }.
Record NameDefaultPair (arg : Type) := { nd_arg : option arg; nd_value : expr_ty }.
Arguments nd_arg {arg} _.
Arguments nd_value {arg} _.
Record SlashWithDefault (arg : Type) := {
  sd_plain_names : asdl_seq_of arg;
  sd_names_with_defaults : asdl_seq_of (NameDefaultPair arg) }.
Arguments sd_plain_names {arg} _.
Arguments sd_names_with_defaults {arg} _.
Record StarEtc (arg : Type) := {
  se_vararg : option arg;
  se_kwonlyargs : asdl_seq_of (NameDefaultPair arg);
  se_kwarg : option arg }.
Arguments se_vararg {arg} _.
Arguments se_kwonlyargs {arg} _.
Arguments se_kwarg {arg} _.
Record KeywordOrStarred (elt : Type) := { ks_element : option elt; ks_is_keyword : Z }.
Arguments ks_element {elt} _.
Arguments ks_is_keyword {elt} _.

(** The constructors: a block from the arena, the fields assigned. *)
Definition cmpop_expr_pair (cmpop_ : Z) (expr_ : expr_ty) : option CmpopExprPair :=
  Some {| cmpop := cmpop_; cmp_expr := expr_ |}.
Definition key_value_pair (key value : expr_ty) : option KeyValuePair :=
  Some {| kv_key := key; kv_value := value |}.
Definition name_default_pair {arg} (arg_ : option arg) (value : expr_ty)
    : option (NameDefaultPair arg) :=
  Some {| nd_arg := arg_; nd_value := value |}.
Definition slash_with_default {arg} (plain_names : asdl_seq_of arg)
    (names_with_defaults : asdl_seq_of (NameDefaultPair arg))
    : option (SlashWithDefault arg) :=
  Some {| sd_plain_names := plain_names; sd_names_with_defaults := names_with_defaults |}.
Definition star_etc {arg} (vararg : option arg)
    (kwonlyargs : asdl_seq_of (NameDefaultPair arg)) (kwarg : option arg)
    : option (StarEtc arg) :=
  Some {| se_vararg := vararg; se_kwonlyargs := kwonlyargs; se_kwarg := kwarg |}.
Definition keyword_or_starred {elt} (element : option elt) (is_keyword : Z)
    : option (KeywordOrStarred elt) :=
  Some {| ks_element := element; ks_is_keyword := is_keyword |}.

(** Modelled from the spec: [asdl_int_seq], the sequence of enum values. *)
Definition asdl_int_seq : Type := option (list Z).

Definition _get_cmpops (seq : asdl_seq_of CmpopExprPair) : M asdl_int_seq :=
  let len := asdl_seq_LEN seq in
  let new_seq := replicate len 0 in
  new_seq ← for_loop 0 len
              (fun i new_seq =>
                 pair ← asdl_seq_GET seq i;
                 pair ← deref pair;
                 if (i <? length new_seq)%nat then mret (<[i := cmpop pair]> new_seq)
                 else undefined)
              new_seq;
  mret (Some new_seq).

Definition _get_exprs (seq : asdl_seq_of CmpopExprPair) : M (asdl_seq_of expr) :=
  let len := asdl_seq_LEN seq in
  let new_seq := _Py_asdl_seq_new len in
  new_seq ← for_loop 0 len
              (fun i new_seq =>
                 pair ← asdl_seq_GET seq i;
                 pair ← deref pair;
                 asdl_seq_SET new_seq i (cmp_expr pair))
              new_seq;
  mret (Some new_seq).

(** Modelled from the spec: the comparison node of the AST collaborator, as
    the arguments that [_Py_Compare] is given. *)
Record Compare_node := {
  cmp_left : expr;
  cmp_ops : asdl_int_seq;
  cmp_comparators : asdl_seq_of expr;
  cmp_loc : location }.

(** [Pegen_Compare]: [EXTRA_EXPR] reads the position of [expr] and of the
    expression of the last pair. *)
Definition Pegen_Compare (expr_ : expr_ty) (pairs : asdl_seq_of CmpopExprPair)
    : M (option Compare_node) :=
  ops ← _get_cmpops pairs;
  exprs ← _get_exprs pairs;
  tail ← seq_get_tail None pairs;
  tail ← deref tail;
  head_ ← deref expr_;
  tail_expr ← deref (cmp_expr tail);
  mret (Some {| cmp_left := head_; cmp_ops := ops; cmp_comparators := exprs;
                cmp_loc := Location (lineno (expr_loc head_)) (col_offset (expr_loc head_))
                             (end_lineno (expr_loc tail_expr))
                             (end_col_offset (expr_loc tail_expr)) |}).

Definition get_keys (seq : asdl_seq_of KeyValuePair) : M (asdl_seq_of expr) :=
  let len := asdl_seq_LEN seq in
  let new_seq := _Py_asdl_seq_new len in
  new_seq ← for_loop 0 len
              (fun i new_seq =>
                 pair ← asdl_seq_GET seq i;
                 pair ← deref pair;
                 asdl_seq_SET new_seq i (kv_key pair))
              new_seq;
  mret (Some new_seq).

Definition get_values (seq : asdl_seq_of KeyValuePair) : M (asdl_seq_of expr) :=
  let len := asdl_seq_LEN seq in
  let new_seq := _Py_asdl_seq_new len in
  new_seq ← for_loop 0 len
              (fun i new_seq =>
                 pair ← asdl_seq_GET seq i;
                 pair ← deref pair;
                 asdl_seq_SET new_seq i (kv_value pair))
              new_seq;
  mret (Some new_seq).

(** The exception object that [PyErr_Format(PyExc_SyntaxError, msg)] sets:
    a syntax error without a position, built by the collaborator. *)
Class ErrorObjects := { SyntaxError_of_message : list ascii -> PyExc }.

(** [_create_dummy_identifier]: the empty identifier. *)
Definition _create_dummy_identifier : identifier := [].

Definition construct_assign_target `{ErrorObjects} (node_ : expr_ty) : M expr_ty :=
  match node_ with
  | None => mret None
  | Some (Tuple elts _ loc) =>
      if negb (asdl_seq_LEN elts =? 1)%nat then
        _ ← PyErr_Set (SyntaxError_of_message
                         (str "Only single target (not tuple) can be annotated"));
        mret (Some (Name _create_dummy_identifier Store loc))
      else asdl_seq_GET elts 0
  | Some (List_ _ _ loc) =>
      _ ← PyErr_Set (SyntaxError_of_message
                       (str "Only single target (not list) can be annotated"));
      mret (Some (Name _create_dummy_identifier Store loc))
  | Some _ => mret node_
  end.

(** [join_names_with_dot]: the two identifiers are copied as C strings
    around a dot and the buffer is decoded; both nodes must be [Name]s. *)
Definition join_names_with_dot `{Collaborators} (first_name second_name : expr_ty)
    : M expr_ty :=
  first_name ← deref first_name;
  second_name ← deref second_name;
  match first_name, second_name with
  | Name first_identifier _ first_loc, Name second_identifier _ second_loc =>
      let first_str := c_string first_identifier in
      let second_str := c_string second_identifier in
      let s := first_str ++ "."%char :: second_str in
      match PyUnicode_DecodeUTF8 s with
      | None =>
          _ ← PyErr_Set (CollabError (str "UnicodeDecodeError"));
          mret None
      | Some uni =>
          mret (Some (Name uni Load
                        (Location (lineno first_loc) (col_offset first_loc)
                           (end_lineno second_loc) (end_col_offset second_loc))))
      end
  | _, _ => undefined
  end.

(** ** Argument lists *)

(** Modelled from the spec: the [arguments] record of the AST collaborator,
    as the arguments that [_Py_arguments] is given. *)
Record arguments (arg : Type) := {
  posonlyargs : asdl_seq_of arg;
  args : asdl_seq_of arg;
  vararg : option arg;
  kwonlyargs : asdl_seq_of arg;
  kw_defaults : asdl_seq_of expr;
  kwarg : option arg;
  defaults : asdl_seq_of expr }.
Arguments posonlyargs {arg} _.
Arguments args {arg} _.
Arguments vararg {arg} _.
Arguments kwonlyargs {arg} _.
Arguments kw_defaults {arg} _.
Arguments kwarg {arg} _.
Arguments defaults {arg} _.

Section Arguments.
Context {arg : Type}.

Definition _get_names (names_with_defaults : asdl_seq_of (NameDefaultPair arg))
    : M (asdl_seq_of arg) :=
  let len := asdl_seq_LEN names_with_defaults in
  let seq := _Py_asdl_seq_new len in
  seq ← for_loop 0 len
          (fun i seq =>
             pair ← asdl_seq_GET names_with_defaults i;
             pair ← deref pair;
             asdl_seq_SET seq i (nd_arg pair))
          seq;
  mret (Some seq).

Definition _get_defaults (names_with_defaults : asdl_seq_of (NameDefaultPair arg))
    : M (asdl_seq_of expr) :=
  let len := asdl_seq_LEN names_with_defaults in
  let seq := _Py_asdl_seq_new len in
  seq ← for_loop 0 len
          (fun i seq =>
             pair ← asdl_seq_GET names_with_defaults i;
             pair ← deref pair;
             asdl_seq_SET seq i (nd_value pair))
          seq;
  mret (Some seq).

Definition make_arguments (slash_without_default : asdl_seq_of arg)
    (slash_with_default_ : option (SlashWithDefault arg))
    (plain_names : asdl_seq_of arg)
    (names_with_default : asdl_seq_of (NameDefaultPair arg))
    (star_etc_ : option (StarEtc arg)) : M (option (arguments arg)) :=
  posonlyargs_ ←
    match slash_without_default, slash_with_default_ with
    | Some _, _ => mret slash_without_default
    | None, Some swd =>
        slash_with_default_names ← _get_names (sd_names_with_defaults swd);
        _join_seqs (sd_plain_names swd) slash_with_default_names
    | None, None => mret (Some (_Py_asdl_seq_new 0))
    end;
  posargs ←
    match plain_names, names_with_default with
    | Some _, Some _ =>
        names_with_default_names ← _get_names names_with_default;
        _join_seqs plain_names names_with_default_names
    | None, Some _ => _get_names names_with_default
    | Some _, None => mret plain_names
    | None, None => mret (Some (_Py_asdl_seq_new 0))
    end;
  posdefaults ←
    match slash_with_default_, names_with_default with
    | Some swd, Some _ =>
        slash_with_default_values ← _get_defaults (sd_names_with_defaults swd);
        names_with_default_values ← _get_defaults names_with_default;
        _join_seqs slash_with_default_values names_with_default_values
    | None, Some _ => _get_defaults names_with_default
    | Some swd, None => _get_defaults (sd_names_with_defaults swd)
    | None, None => mret (Some (_Py_asdl_seq_new 0))
    end;
  let vararg_ :=
    match star_etc_ with
    | Some se => se_vararg se
    | None => None
    end in
  kwonlyargs_ ←
    match star_etc_ with
    | Some {| se_kwonlyargs := Some kw |} => _get_names (Some kw)
    | _ => mret (Some (_Py_asdl_seq_new 0))
    end;
  kwdefaults ←
    match star_etc_ with
    | Some {| se_kwonlyargs := Some kw |} => _get_defaults (Some kw)
    | _ => mret (Some (_Py_asdl_seq_new 0))
    end;
  let kwarg_ :=
    match star_etc_ with
    | Some se => se_kwarg se
    | None => None
    end in
  mret (Some {| posonlyargs := posonlyargs_; args := posargs; vararg := vararg_;
                kwonlyargs := kwonlyargs_; kw_defaults := kwdefaults; kwarg := kwarg_;
                defaults := posdefaults |}).

(** [empty_arguments] hands the sequence [kwdefaults] to [_Py_arguments]
    twice, as [kw_defaults] and as [defaults]. *)
Definition empty_arguments : M (option (arguments arg)) :=
  let posonlyargs_ : list (option arg) := _Py_asdl_seq_new 0 in
  let posargs : list (option arg) := _Py_asdl_seq_new 0 in
  let kwonlyargs_ : list (option arg) := _Py_asdl_seq_new 0 in
  let kwdefaults : list (option expr) := _Py_asdl_seq_new 0 in
  mret (Some {| posonlyargs := Some posonlyargs_; args := Some posargs; vararg := None;
                kwonlyargs := Some kwonlyargs_; kw_defaults := Some kwdefaults;
                kwarg := None; defaults := Some kwdefaults |}).
End Arguments.

(** ** Keyword arguments and starred expressions *)

Section KeywordOrStarred.
Context {elt : Type}.

Definition _seq_number_of_starred_exprs (seq : asdl_seq_of (KeywordOrStarred elt))
    : M nat :=
  for_loop 0 (asdl_seq_LEN seq)
    (fun i n =>
       k ← asdl_seq_GET seq i;
       k ← deref k;
       if ks_is_keyword k =? 0 then mret (S n) else mret n)
    O.

Definition seq_extract_starred_exprs (kwargs : asdl_seq_of (KeywordOrStarred elt))
    : M (asdl_seq_of elt) :=
  new_len ← _seq_number_of_starred_exprs kwargs;
  if (new_len =? 0)%nat then mret None
  else
    let new_seq := _Py_asdl_seq_new new_len in
    '(new_seq, _) ← for_loop 0 (asdl_seq_LEN kwargs)
                      (fun i '(new_seq, idx) =>
                         k ← asdl_seq_GET kwargs i;
                         k ← deref k;
                         if ks_is_keyword k =? 0 then
                           new_seq ← asdl_seq_SET new_seq idx (ks_element k);
                           mret (new_seq, S idx)
                         else mret (new_seq, idx))
                      (new_seq, O);
    mret (Some new_seq).

Definition seq_delete_starred_exprs (kwargs : asdl_seq_of (KeywordOrStarred elt))
    : M (asdl_seq_of elt) :=
  let len := asdl_seq_LEN kwargs in
  starred ← _seq_number_of_starred_exprs kwargs;
  let new_len := (len - starred)%nat in
  if (new_len =? 0)%nat then mret None
  else
    let new_seq := _Py_asdl_seq_new new_len in
    '(new_seq, _) ← for_loop 0 len
                      (fun i '(new_seq, idx) =>
                         k ← asdl_seq_GET kwargs i;
                         k ← deref k;
                         if negb (ks_is_keyword k =? 0) then
                           new_seq ← asdl_seq_SET new_seq idx (ks_element k);
                           mret (new_seq, S idx)
                         else mret (new_seq, idx))
                      (new_seq, O);
    mret (Some new_seq).
End KeywordOrStarred.

(** ** The expression list of the f-string assembler, with its buffers

    [ExprList_Append] above is the list that the assembler builds; here is
    the array behind it: [EXPRLIST_N_CACHED] cells inside the struct, and a
    block from [PyMem_RawMalloc] of twice the size each time the cells are
    used up.  A cell is [None] until a pointer has been stored in it. *)
Definition EXPRLIST_N_CACHED : Z := 64.

(** Where [l->p] points: to [l->data], to the allocated block, or nowhere. *)
Inductive buffer_ptr := PtrData | PtrBlock | PtrNull.

Record ExprList := {
  el_allocated : Z;
  el_size : Z;
  el_p : buffer_ptr;
  el_data : list (option expr_ty);
  el_block : list (option expr_ty) }.

Module Buffer.
(** The cells that [l->p] points to. *)
Definition cells_at (l : ExprList) : option (list (option expr_ty)) :=
  match el_p l with
  | PtrData => Some (el_data l)
  | PtrBlock => Some (el_block l)
  | PtrNull => None
  end.

Definition read_cell (buf : list (option expr_ty)) (i : Z) : M expr_ty :=
  if i <? 0 then undefined
  else
    match buf !! Z.to_nat i with
    | Some (Some e) => mret e
    | _ => undefined
    end.

Definition write_cell (buf : list (option expr_ty)) (i : Z) (e : expr_ty)
    : M (list (option expr_ty)) :=
  if (0 <=? i) && (i <? Z.of_nat (length buf)) then mret (<[Z.to_nat i := Some e]> buf)
  else undefined.

(** The conditions that [ExprList_check_invariants] asserts. *)
Definition ExprList_check_invariants (l : ExprList) : bool :=
  (0 <=? el_size l)
  && match el_p l with PtrNull => false | _ => true end
  && (if el_size l <=? EXPRLIST_N_CACHED
      then match el_p l with PtrData => true | _ => false end
      else true).

Definition ExprList_Init : ExprList :=
  {| el_allocated := EXPRLIST_N_CACHED; el_size := 0; el_p := PtrData;
     el_data := replicate (Z.to_nat EXPRLIST_N_CACHED) None; el_block := [] |}.

(** [l->p[l->size++] = exp] *)
Definition store_next (l : ExprList) (exp : expr_ty) : M (Z * ExprList) :=
  match el_p l with
  | PtrData =>
      data ← write_cell (el_data l) (el_size l) exp;
      mret (0, {| el_allocated := el_allocated l; el_size := el_size l + 1;
                  el_p := PtrData; el_data := data; el_block := el_block l |})
  | PtrBlock =>
      block ← write_cell (el_block l) (el_size l) exp;
      mret (0, {| el_allocated := el_allocated l; el_size := el_size l + 1;
                  el_p := PtrBlock; el_data := el_data l; el_block := block |})
  | PtrNull => undefined
  end.

(** [ExprList_Append]: [alloc_ok] is whether [PyMem_RawMalloc] or
    [PyMem_RawRealloc] returns a block; neither sets an exception. *)
Definition ExprList_Append (alloc_ok : bool) (l : ExprList) (exp : expr_ty)
    : M (Z * ExprList) :=
  if el_allocated l <=? el_size l then
    (* We need to alloc (or realloc) the memory. *)
    let new_size := el_allocated l * 2 in
    match el_p l with
    | PtrData =>
        if negb alloc_ok then
          mret (-1, {| el_allocated := el_allocated l; el_size := el_size l;
                       el_p := PtrNull; el_data := el_data l; el_block := [] |})
        else
          (* Copy the cached data into the new buffer. *)
          block ← for_loop 0 (Z.to_nat (el_size l))
                    (fun i block =>
                       e ← read_cell (el_data l) (Z.of_nat i);
                       write_cell block (Z.of_nat i) e)
                    (replicate (Z.to_nat new_size) None);
          store_next {| el_allocated := new_size; el_size := el_size l;
                        el_p := PtrBlock; el_data := el_data l; el_block := block |} exp
    | _ =>
        (* Just realloc. *)
        if negb alloc_ok then
          mret (-1, {| el_allocated := el_allocated l; el_size := el_size l;
                       el_p := PtrNull; el_data := el_data l; el_block := [] |})
        else
          let old := default [] (cells_at l) in
          let block :=
            take (Z.to_nat new_size) old
            ++ replicate (Z.to_nat new_size - length old) None in
          store_next {| el_allocated := new_size; el_size := el_size l;
                        el_p := PtrBlock; el_data := el_data l; el_block := block |} exp
    end
  else store_next l exp.

Definition ExprList_Dealloc (l : ExprList) : ExprList :=
  {| el_allocated := el_allocated l; el_size := -1; el_p := PtrNull;
     el_data := el_data l; el_block := [] |}.

(** [ExprList_Finish]: the sequence and the list as it is left. *)
Definition ExprList_Finish (l : ExprList) : M (asdl_seq_of expr * ExprList) :=
  let seq := _Py_asdl_seq_new (Z.to_nat (el_size l)) in
  seq ← for_loop 0 (Z.to_nat (el_size l))
          (fun i seq =>
             buf ← deref (cells_at l);
             e ← read_cell buf (Z.of_nat i);
             asdl_seq_SET seq i e)
          seq;
  mret (Some seq, ExprList_Dealloc l).

(** Appending a list of expressions, every allocation succeeding. *)
Fixpoint append_all (es : list expr_ty) (l : ExprList) : M (Z * ExprList) :=
  match es with
  | [] => mret (0, l)
  | e :: es' =>
      '(r, l) ← ExprList_Append true l e;
      if r <? 0 then mret (r, l) else append_all es' l
  end.
End Buffer.

(** ** The driver *)


Section RunParser.
Context `{TokenKinds} `{Allocators} `{Collaborators}.

(** The objects that [run_parser] returns, with the two conversions of the
    module that it leaves to CPython, and [Py_None]. *)
Variable object : Type.
Variable PyAST_CompileObject : mod_ -> list ascii -> M (option object).
Variable PyAST_mod2obj : mod_ -> M (option object).
Variable Py_None : object.

End RunParser.

(** ** Vocabulary of the further properties *)

(** The shape in which [run_parser] sets the parser up and every primitive
    leaves it: the buffer has [size] slots, [mark <= fill <= size], a
    materialised token has its bytes, the slots that are not yet
    materialised have no memo entry, and no memo entry points past [fill]. *)
Definition wf_parser (p : Parser) : bool :=
  (0 <? size p)%nat && (size p =? length (tokens p))%nat
  && (mark p <=? fill p)%nat && (fill p <=? size p)%nat
  && forallb (fun t => match t_bytes t with Some _ => true | None => false end)
       (take (fill p) (tokens p))
  && forallb (fun t => forallb (fun m => (memo_mark m <=? fill p)%nat) (t_memo t))
       (tokens p)
  && forallb (fun t => match t_memo t with [] => true | _ :: _ => false end)
       (drop (fill p) (tokens p)).

(** Every allocation of the next [fill_token] on [p] returns a block: the
    doubled buffer and its new slots when the buffer is full, and the bytes
    object of the token that the lexer delivers. *)
Definition allocations_granted `{TokenKinds} `{Allocators} (p : Parser) : bool :=
  (if (fill p =? size p)%nat
   then PyMem_Realloc (size p * 2) && forallb PyMem_Malloc (seq (size p) (size p))
   else true)
  && PyBytes_FromStringAndSize (rt_text (fst (PyTokenizer_Get (tok p)))).

(** The entries of a keyword bucket in front of the sentinel. *)
Fixpoint keyword_entries (bucket : list KeywordToken) : list KeywordToken :=
  match bucket with
  | [] => []
  | k :: rest => if k_type k =? -1 then [] else k :: keyword_entries rest
  end.

(** The tokens that [get_last_nonnwhitespace_token] stops at. *)
Definition significant `{TokenKinds} `{LayoutKinds} (t : Token) : bool :=
  negb (t_type t =? ENDMARKER) && ((t_type t <? NEWLINE) || (DEDENT <? t_type t)).

(** A run of the memo cache stays inside the buffer: it stores at
    materialised positions and moves the cursor no further than [fill]. *)
Definition memo_op_in_range (limit : nat) (op : memo_op) : bool :=
  match op with
  | OpInsert _ at_ _ _ | OpUpdate _ at_ _ _ => (at_ <? limit)%nat
  | OpSetMark m => (m <=? limit)%nat
  end.

(** ** More of the concrete environment for the examples *)
Module Sample.
#[export] Instance layout_kinds : LayoutKinds :=
  {| NEWLINE := 4; DEDENT := 6; DOT := 23; ELLIPSIS := 52 |}.

Definition token (type : Z) (text : list ascii) : Token :=
  {| t_type := type; t_bytes := Some text; t_loc := Example.loc0; t_memo := [] |}.

(** A parser that has materialised the given tokens, with the cursor
    behind them and one free slot. *)
Definition parser_after (ts : list Token) : Parser :=
  {| tok := Example.tokenizer []; tokens := ts ++ [zero_token]; mark := length ts;
     fill := length ts; size := S (length ts); keywords := [] |}.

(** A keyword table with the buckets of the lengths 2 and 3. *)
Definition keyword_table : list (option (list KeywordToken)) :=
  [None; None;
   Some [{| k_str := str "if"; k_type := 500 |}; {| k_str := str "in"; k_type := 501 |};
         {| k_str := []; k_type := -1 |}];
   Some [{| k_str := str "for"; k_type := 502 |}; {| k_str := []; k_type := -1 |}]].

Definition with_keywords (p : Parser) : Parser :=
  {| tok := tok p; tokens := tokens p; mark := mark p; fill := fill p; size := size p;
     keywords := keyword_table |}.

(** Allocators that refuse every bytes object, and allocators that refuse
    to enlarge the token buffer. *)
Definition no_bytes : Allocators :=
  {| PyMem_Realloc := fun _ => true; PyMem_Malloc := fun _ => true;
     PyBytes_FromStringAndSize := fun _ => false |}.

Definition no_realloc : Allocators :=
  {| PyMem_Realloc := fun _ => false; PyMem_Malloc := fun _ => true;
     PyBytes_FromStringAndSize := fun _ => true |}.

End Sample.

(** The inner sequences that [seq_flatten] copies: those whose first cell
    is not the placeholder. *)
Definition kept_by_flatten {A} (at_address_1 : A -> bool) (inner : list (option A))
    : bool :=
  negb (is_placeholder at_address_1 (hd None inner)).

(** The tokens that [seq_count_dots] counts, and what each adds. *)
Definition is_dot `{LayoutKinds} (t : Token) : bool :=
  (t_type t =? ELLIPSIS) || (t_type t =? DOT).

Definition dot_weight `{LayoutKinds} (t : Token) : Z :=
  if t_type t =? ELLIPSIS then 3 else 1.

Definition total_dots `{LayoutKinds} (l : list Token) : Z :=
  fold_right (fun t acc => dot_weight t + acc) 0 l.

(** A sequence without [NULL] cells. *)
Definition seq_of {A} (l : list A) : asdl_seq_of A := Some (List.map Some l).

(** [NULL] read as the empty sequence. *)
Definition cells {A} (s : asdl_seq_of A) : list (option A) := default [] s.

(** A sequence without [NULL] cells ([NULL] itself counts as empty), and
    the objects that its cells point to. *)
Definition no_null_cells {A} (s : asdl_seq_of A) : bool :=
  forallb (fun c => match c with Some _ => true | None => false end) (cells s).

Definition pointees {A} (s : asdl_seq_of A) : list A := omap id (cells s).

(** The entries of a call's argument list that are starred expressions,
    and those that are keywords. *)
Definition is_starred {elt} (k : KeywordOrStarred elt) : bool := ks_is_keyword k =? 0.
Definition is_keyword_entry {elt} (k : KeywordOrStarred elt) : bool :=
  negb (ks_is_keyword k =? 0).

(** A result sequence that is [NULL] when it would be empty. *)
Definition null_if_empty {A} (l : list (option A)) : asdl_seq_of A :=
  match l with
  | [] => None
  | _ :: _ => Some l
  end.

(** The pairs that [make_arguments] reads from its [slash_with_default] and
    [star_etc] arguments ([NULL] when the argument is [NULL]). *)
Definition slash_pairs {arg} (swd : option (SlashWithDefault arg))
    : asdl_seq_of (NameDefaultPair arg) :=
  match swd with
  | Some s => sd_names_with_defaults s
  | None => None
  end.

Definition kwonly_pairs {arg} (se : option (StarEtc arg))
    : asdl_seq_of (NameDefaultPair arg) :=
  match se with
  | Some s => se_kwonlyargs s
  | None => None
  end.

(** [EXTRA_EXPR(head, tail)]: from the start of [head] to the end of
    [tail]. *)
Definition span (head_ tail_ : location) : location :=
  Location (lineno head_) (col_offset head_) (end_lineno tail_) (end_col_offset tail_).

(** The expression list [l] holds the expressions [es]: they are the first
    [el_size l] cells of the array that [el_p l] points to, which is the
    array inside the struct as long as they fit into it. *)
Definition buffer_holds (l : ExprList) (es : list expr_ty) : Prop :=
  el_size l = Z.of_nat (length es)
  /\ el_size l <= el_allocated l
  /\ (exists k : nat, el_allocated l = EXPRLIST_N_CACHED * 2 ^ Z.of_nat k)
  /\ ((el_p l = PtrData /\ el_allocated l = EXPRLIST_N_CACHED
       /\ Z.of_nat (length (el_data l)) = EXPRLIST_N_CACHED
       /\ take (length es) (el_data l) = List.map Some es)
      \/ (el_p l = PtrBlock /\ EXPRLIST_N_CACHED < el_size l
          /\ Z.of_nat (length (el_block l)) = el_allocated l
          /\ take (length es) (el_block l) = List.map Some es)).

(** Two format-spec parsers agree on every call one recursion level below
    [lvl], as far as [fstring_find_expr] makes such calls. *)
Definition agree_below (lvl : nat)
    (rec rec' : Parser -> list ascii -> nat -> nat -> bool -> nat -> Token
                -> M (expr_ty * nat)) : Prop :=
  (lvl < 2)%nat ->
  forall p buf s e raw t st, rec p buf s e raw (S lvl) t st = rec' p buf s e raw (S lvl) t st.

(** F-string literals as the tokenizer hands them over: one of the prefixes
    of f-strings, the opening quote or triple quote, the body, the closing
    quote or triple quote. *)
Definition fstring_prefixes (raw : bool) : list (list ascii) :=
  if raw
  then [str "rf"; str "rF"; str "Rf"; str "RF"; str "fr"; str "fR"; str "Fr"; str "FR"]
  else [str "f"; str "F"].

Definition fstring_literal (prefix : list ascii) (q : ascii) (triple : bool)
    (body : list ascii) : list ascii :=
  prefix ++ quotes q triple ++ body ++ quotes q triple.

(** Text with no brace in it and, unless the literal is raw, no backslash. *)
Definition plain_text (raw : bool) (x : list ascii) : bool :=
  forallb (fun c => negb (ceq c "{"%char) && negb (ceq c "}"%char)
                    && (raw || negb (ceq c "\"%char))) x.

(** The node that [FstringParser_Finish] makes of an f-string that is all
    literal text [l]: no [Constant] for empty text. *)
Definition joined_literal (l : list ascii) (loc : location) : expr :=
  JoinedStr
    (Some match l with
          | [] => []
          | c :: _ =>
              [Some (Constant (PyUnicode l)
                       (if ceq c "u"%char then Some (str "u") else None) loc)]
          end)
    loc.

(** The letters that the prefix loop of [parsestr] steps over. *)
Definition is_b (c : ascii) : bool := ceq c "b"%char || ceq c "B"%char.
Definition is_u (c : ascii) : bool := ceq c "u"%char || ceq c "U"%char.
Definition is_r (c : ascii) : bool := ceq c "r"%char || ceq c "R"%char.
Definition is_f (c : ascii) : bool := ceq c "f"%char || ceq c "F"%char.
Definition prefix_letter (c : ascii) : bool := is_b c || is_u c || is_r c || is_f c.
(** * Properties *)

(** The concrete environment serves the examples only; the theorems bind
    their own. *)
#[local] Existing Instance Example.token_kinds.
#[local] Existing Instance Example.allocators.
#[local] Existing Instance Example.collaborators.

(** Unfold the monad of the model. *)
Ltac monad := unfold mbind, mret, M_bind, M_ret in *; cbn beta iota.

(** A step of the monad whose result is known. *)
Lemma bind_Ok {A B} (m : M A) (f : A -> M B) (a : A) (st st' : PyState) :
  m st = Ok a st' -> (m ≫= f) st = f a st'.
Proof. intros E. unfold mbind, M_bind. now rewrite E. Qed.

(** ** Context rewriting *)

Lemma set_expr_context_node_twice (e : expr) (A B : expr_context_ty) :
  set_expr_context_node (set_expr_context_node e A) B = set_expr_context_node e B.
Proof.
  induction e as [id c l|s c l IH|s c l IH|v sl c l IHv IHsl|v a c l IHv|v c l IHv
                  |v k l|s l IH|v c f l IHv IHf|k ch l IH] using expr_nested_ind;
    simpl; try reflexivity.
  - f_equal. destruct s as [elts|]; simpl in *; [|reflexivity].
    f_equal. rewrite List.map_map. apply List.map_ext_Forall.
    eapply List.Forall_impl; [|exact IH].
    intros [x|] Hx; simpl in *; [now rewrite Hx|reflexivity].
  - f_equal. destruct s as [elts|]; simpl in *; [|reflexivity].
    f_equal. rewrite List.map_map. apply List.map_ext_Forall.
    eapply List.Forall_impl; [|exact IH].
    intros [x|] Hx; simpl in *; [now rewrite Hx|reflexivity].
  - now rewrite IHv.
Qed.

(** C6.  Rewriting the context twice is rewriting it once with the second
    context: [set_expr_context (set_expr_context e A) B = set_expr_context e B]
    for every expression, [NULL] included.  The six recognised shapes take
    the new context (tuple and list element by element, starred in its
    value); every other shape is returned unchanged. *)
Theorem set_expr_context_replaces :
  (forall (e : expr_ty) (A B : expr_context_ty),
      set_expr_context (set_expr_context e A) B = set_expr_context e B)
  /\ (forall id c l ctx, set_expr_context (Some (Name id c l)) ctx = Some (Name id ctx l))
  /\ (forall elts c l ctx,
        set_expr_context (Some (Tuple elts c l)) ctx
        = Some (Tuple (option_map (List.map (fun e => set_expr_context e ctx)) elts) ctx l))
  /\ (forall elts c l ctx,
        set_expr_context (Some (List_ elts c l)) ctx
        = Some (List_ (option_map (List.map (fun e => set_expr_context e ctx)) elts) ctx l))
  /\ (forall v sl c l ctx,
        set_expr_context (Some (Subscript v sl c l)) ctx = Some (Subscript v sl ctx l))
  /\ (forall v a c l ctx,
        set_expr_context (Some (Attribute v a c l)) ctx = Some (Attribute v a ctx l))
  /\ (forall v c l ctx,
        set_expr_context (Some (Starred v c l)) ctx
        = option_map (fun v' => Starred v' ctx l) (set_expr_context (Some v) ctx))
  /\ (forall v k l ctx, set_expr_context (Some (Constant v k l)) ctx = Some (Constant v k l))
  /\ (forall s l ctx, set_expr_context (Some (JoinedStr s l)) ctx = Some (JoinedStr s l))
  /\ (forall v c f l ctx,
        set_expr_context (Some (FormattedValue v c f l)) ctx
        = Some (FormattedValue v c f l))
  /\ (forall k ch l ctx,
        set_expr_context (Some (OtherExpr k ch l)) ctx = Some (OtherExpr k ch l)).
Proof.
  split.
  - intros [e|] A B; simpl; [|reflexivity].
    now rewrite set_expr_context_node_twice.
  - repeat split; intros; reflexivity.
Qed.

(** ** [concatenate_strings] *)

(** C10.  For a non-empty sequence [concatenate_strings] returns its first
    element as it is and leaves the error indicator alone: nothing of the
    code after the early [return] takes part in the result.  That code would
    have joined ['a'] and ['b'] into one constant, given [u'a' 'b'] the kind
    ["u"], and refused to mix [b'a'] with ['b']; [concatenate_strings]
    answers the first element in all three cases. *)
Theorem concatenate_strings_returns_first :
  (forall (p : Parser) (first : expr_ty) (rest : list expr_ty) (st : PyState),
      concatenate_strings p (first :: rest) st = Ok first st)
  /\ (let p := Example.parser_at_string (str "'a'") in
      let l := Example.loc0 in
      let a := Some (Constant (PyUnicode (str "a")) None l) in
      let ua := Some (Constant (PyUnicode (str "a")) (Some (str "u")) l) in
      let ba := Some (Constant (PyBytes (str "a")) None l) in
      let b := Some (Constant (PyUnicode (str "b")) None l) in
      concatenate_strings_rest p [a; b] Example.st0
      = Ok (Some (Constant (PyUnicode (str "ab")) None l)) Example.st0
      /\ concatenate_strings p [a; b] Example.st0 = Ok a Example.st0
      /\ concatenate_strings_rest p [ua; b] Example.st0
         = Ok (Some (Constant (PyUnicode (str "ab")) (Some (str "u")) l)) Example.st0
      /\ concatenate_strings p [ua; b] Example.st0 = Ok ua Example.st0
      /\ concatenate_strings_rest p [ba; b] Example.st0
         = Ok None {| exc := Some (SyntaxError
                                    (str "cannot mix bytes and nonbytes literals") 1 0);
                      warned := [] |}
      /\ concatenate_strings p [ba; b] Example.st0 = Ok ba Example.st0).
Proof.
  split.
  - intros p first rest st. unfold concatenate_strings, or_else. reflexivity.
  - repeat split.
Qed.

(** ** Lookahead *)

(** C5.  Each of the three lookahead functions calls the parse function on
    the state it was given, puts the cursor back to where it was before the
    call, and returns [(res != NULL) == positive]; everything else the
    parse function did to the parser and to the error indicator stays. *)
Theorem lookahead_restores_mark {A : Type} (positive : Z)
    (p : Parser) (st : PyState)
    (f : Parser -> M (option A * Parser))
    (fs : Parser -> list ascii -> M (option A * Parser)) (s : list ascii)
    (fi : Parser -> Z -> M (option A * Parser)) (i : Z)
    (r1 r2 r3 : option A) (p1 p2 p3 : Parser) (st1 st2 st3 : PyState)
    (Hf : f p st = Ok (r1, p1) st1)
    (Hfs : fs p s st = Ok (r2, p2) st2)
    (Hfi : fi p i st = Ok (r3, p3) st3) :
  let eq_positive (r : option A) :=
    if (match r with Some _ => 1 | None => 0 end) =? positive then 1 else 0 in
  (exists q, lookahead positive f p st = Ok (eq_positive r1, q) st1
             /\ mark q = mark p /\ q = set_mark p1 (mark p))
  /\ (exists q, lookahead_with_string positive fs p s st = Ok (eq_positive r2, q) st2
                /\ mark q = mark p /\ q = set_mark p2 (mark p))
  /\ (exists q, lookahead_with_int positive fi p i st = Ok (eq_positive r3, q) st3
                /\ mark q = mark p /\ q = set_mark p3 (mark p)).
Proof.
  intros eq_positive.
  unfold lookahead, lookahead_with_string, lookahead_with_int, mbind, M_bind.
  rewrite Hf, Hfs, Hfi. simpl.
  repeat split; eexists; repeat split; reflexivity.
Qed.

Lemma lookahead_restores_mark_witness :
  let p := Example.parser_on [Example.raw_token 3 (str "'a'") 0] in
  let f := fun q : Parser => expect_token q 3 in
  let fs := fun (q : Parser) (_ : list ascii) =>
              (mret (@None Token, set_mark q 7) : M (option Token * Parser)) in
  (exists q, lookahead 1 f p Example.st0 = Ok (1, q) Example.st0 /\ mark q = mark p)
  /\ (exists q, lookahead_with_string 0 fs p [] Example.st0 = Ok (1, q) Example.st0
                /\ mark q = mark p)
  /\ (exists q, lookahead_with_int 0 expect_token p 3 Example.st0 = Ok (0, q) Example.st0
                /\ mark q = mark p).
Proof.
  intros p f fs.
  edestruct (lookahead_restores_mark 1 p Example.st0 f fs [] expect_token 3)
    as [[q1 [H1 [M1 _]]] _]; [reflexivity..|].
  edestruct (lookahead_restores_mark 0 p Example.st0 f fs [] expect_token 3)
    as [_ [[q2 [H2 [M2 _]]] [q3 [H3 [M3 _]]]]]; [reflexivity..|].
  repeat split; [exists q1|exists q2|exists q3]; split; assumption.
Defined.

(** ** Memo cache *)

(** C3.  When [insert_memo] has stored node [n] for rule [r] at the
    materialised position [pos], with the cursor then at [e = mark p], a call
    of [is_memoized] for [r] with the cursor back at [pos] is a hit, writes
    [n] to the output slot and moves the cursor to [e]. *)
Theorem is_memoized_after_insert_memo `{TokenKinds} `{allocs : Allocators}
    (arena_ok : bool) (p p1 : Parser)
    (pos : nat) (r : Z) (n pres : option node) (st st1 : PyState)
    (Hinsert : insert_memo arena_ok p pos r n st = Ok (0, p1) st1)
    (Hpos : (pos < fill p)%nat) :
  is_memoized (set_mark p1 pos) r pres st1 = Ok (1, n, set_mark p1 (mark p)) st1.
Proof.
  unfold insert_memo in Hinsert.
  destruct arena_ok; simpl in Hinsert; [|discriminate Hinsert].
  destruct (tokens p !! pos) as [t|] eqn:Ht; [|discriminate Hinsert].
  injection Hinsert as <- <-.
  unfold is_memoized. simpl.
  assert ((pos =? fill p)%nat = false) as -> by (apply Nat.eqb_neq; lia).
  monad. simpl. rewrite list_lookup_insert_eq by (eapply lookup_lt_Some; exact Ht).
  simpl. rewrite Z.eqb_refl. reflexivity.
Qed.

Lemma is_memoized_after_insert_memo_witness :
  let p := set_mark (Example.parser_at_string (str "'a'")) 1 in
  exists p1,
    insert_memo true p 0 42 (Some (OpaqueNode 7)) Example.st0 = Ok (0, p1) Example.st0
    /\ is_memoized (set_mark p1 0) 42 None Example.st0
       = Ok (1, Some (OpaqueNode 7), set_mark p1 1) Example.st0.
Proof.
  intros p. eexists. split; [reflexivity|].
  apply (is_memoized_after_insert_memo true p _ 0 42 (Some (OpaqueNode 7)) None
           Example.st0 Example.st0 eq_refl).
  simpl. lia.
Defined.

(** [insert_memo] prepends and [update_memo] rewrites the first entry of the
    rule where it stands: the rule-ids of the chain are those of before, with
    the new rule in front when an entry was added. *)
Lemma update_chain_types (chain chain' : list Memo) (r : Z) (n : option node) (e : nat) :
  update_chain chain r n e = Some chain' ->
  List.map memo_type chain' = List.map memo_type chain
  /\ memo_find chain' r = Some {| memo_type := r; memo_node := n; memo_mark := e |}.
Proof.
  revert chain'. induction chain as [|m next IH]; simpl; intros chain' Hu; [discriminate|].
  destruct (memo_type m =? r) eqn:E.
  - injection Hu as <-. simpl. rewrite E. apply Z.eqb_eq in E. subst r. auto.
  - destruct (update_chain next r n e) as [next'|]; [|discriminate].
    injection Hu as <-. destruct (IH next' eq_refl) as [Hm Hf].
    simpl. rewrite Hm, E. auto.
Qed.

Lemma update_chain_none (chain : list Memo) (r : Z) (n : option node) (e : nat) :
  update_chain chain r n e = None <-> memo_find chain r = None.
Proof.
  induction chain as [|m next IH]; simpl; [tauto|].
  destruct (memo_type m =? r); [split; discriminate|].
  destruct (update_chain next r n e); split; intros Hx; try discriminate;
    try reflexivity; apply IH in Hx; try discriminate; tauto.
Qed.

Lemma update_chain_other (chain chain' : list Memo) (r r' : Z) (n : option node) (e : nat) :
  update_chain chain r n e = Some chain' -> r' <> r ->
  memo_find chain' r' = memo_find chain r'.
Proof.
  revert chain'. induction chain as [|m next IH]; simpl; intros chain' Hu Hne; [discriminate|].
  destruct (memo_type m =? r) eqn:E.
  - injection Hu as <-. simpl. apply Z.eqb_eq in E.
    destruct (Z.eqb_spec (memo_type m) r'); [congruence|reflexivity].
  - destruct (update_chain next r n e) as [next'|]; [|discriminate].
    injection Hu as <-. simpl. destruct (memo_type m =? r'); [reflexivity|].
    now apply IH.
Qed.

Lemma memo_view_set_tokens (p : Parser) (pos : nat) (t : Token) (chain : list Memo)
    (i : nat) (r : Z) :
  tokens p !! pos = Some t ->
  memo_view (set_tokens p (<[pos := set_memo t chain]> (tokens p))) i r
  = if (i =? pos)%nat
    then match memo_find chain r with
         | Some m => Some (memo_node m, memo_mark m)
         | None => None
         end
    else memo_view p i r.
Proof.
  intros Ht. unfold memo_view. simpl.
  destruct (Nat.eqb_spec i pos) as [->|Hne].
  - rewrite list_lookup_insert_eq by (eapply lookup_lt_Some; exact Ht). reflexivity.
  - rewrite list_lookup_insert_ne by congruence. reflexivity.
Qed.

(** On the answers of the cache, [insert_memo] is a store under the key
    (position, rule-id) ... *)
Lemma insert_memo_view (p p1 : Parser) (pos : nat) (r : Z) (n : option node)
    (st st1 : PyState) (ret : Z) (a : bool) (i : nat) (r' : Z) :
  insert_memo a p pos r n st = Ok (ret, p1) st1 ->
  mark p1 = mark p
  /\ memo_view p1 i r'
     = (if a then view_store (memo_view p) pos r n (mark p) else memo_view p) i r'.
Proof.
  unfold insert_memo. destruct a; simpl.
  - destruct (tokens p !! pos) as [t|] eqn:Ht; [|discriminate].
    intros Hi. injection Hi as _ <- _. split; [reflexivity|].
    rewrite memo_view_set_tokens by exact Ht. unfold view_store. simpl.
    destruct (Nat.eqb_spec i pos) as [->|Hne]; simpl; [|reflexivity].
    rewrite (Z.eqb_sym r' r). destruct (r =? r'); [reflexivity|].
    unfold memo_view. now rewrite Ht.
  - monad. simpl. intros Hi. injection Hi as _ <- _. auto.
Qed.

(** ... and so is [update_memo]. *)
Lemma update_memo_view (p p1 : Parser) (pos : nat) (r : Z) (n : option node)
    (st st1 : PyState) (ret : Z) (a : bool) (i : nat) (r' : Z) :
  update_memo a p pos r n st = Ok (ret, p1) st1 ->
  mark p1 = mark p
  /\ memo_view p1 i r'
     = (if a || match memo_view p pos r with Some _ => true | None => false end
        then view_store (memo_view p) pos r n (mark p) else memo_view p) i r'.
Proof.
  unfold update_memo.
  destruct (tokens p !! pos) as [t|] eqn:Ht; [|discriminate].
  destruct (update_chain (t_memo t) r n (mark p)) as [chain'|] eqn:Hu.
  - monad. intros Hi. injection Hi as _ <- _. split; [reflexivity|].
    assert (memo_view p pos r <> None) as Hsome.
    { unfold memo_view. rewrite Ht.
      destruct (memo_find (t_memo t) r) eqn:Hf; [discriminate|].
      apply update_chain_none with (n := n) (e := mark p) in Hf. congruence. }
    destruct (memo_view p pos r); [|congruence]. rewrite orb_true_r.
    rewrite memo_view_set_tokens by exact Ht. unfold view_store.
    destruct (Nat.eqb_spec i pos) as [->|Hne]; simpl; [|reflexivity].
    destruct (Z.eqb_spec r' r) as [->|Hr].
    + destruct (update_chain_types _ _ _ _ _ Hu) as [_ ->]. reflexivity.
    + rewrite (update_chain_other _ _ _ _ _ _ Hu Hr). unfold memo_view. now rewrite Ht.
  - intros Hi. apply update_chain_none in Hu.
    assert (memo_view p pos r = None) as -> by (unfold memo_view; now rewrite Ht, Hu).
    rewrite orb_false_r. eapply insert_memo_view. exact Hi.
Qed.

Lemma run_view_ext (ops : list memo_op) (cursor : nat)
    (v w : nat -> Z -> option (option node * nat)) :
  (forall i r, v i r = w i r) -> forall i r, run_view ops cursor v i r = run_view ops cursor w i r.
Proof.
  revert cursor v w. induction ops as [|[a pos r0 n|a pos r0 n|m] ops IH];
    intros cursor v w Hvw i r; simpl; [apply Hvw|..].
  - apply IH. intros j r'. destruct a; [|apply Hvw].
    unfold view_store. now rewrite Hvw.
  - apply IH. intros j r'. rewrite (Hvw pos r0).
    destruct (a || _); [|apply Hvw]. unfold view_store. now rewrite Hvw.
  - now apply IH.
Qed.

Lemma run_memo_ops_view (ops : list memo_op) (p p' : Parser) (st st' : PyState) :
  run_memo_ops ops p st = Ok p' st' ->
  forall i r, memo_view p' i r = run_view ops (mark p) (memo_view p) i r.
Proof.
  revert p st. induction ops as [|op ops IH]; intros p st Hrun i r.
  - simpl in Hrun. monad. injection Hrun as <- _. reflexivity.
  - simpl in Hrun. monad.
    destruct op as [a pos r0 n|a pos r0 n|m].
    + destruct (insert_memo a p pos r0 n st) as [[ret p1] st1|] eqn:Hop; [|discriminate].
      rewrite (IH _ _ Hrun). simpl.
      destruct (insert_memo_view _ _ _ _ _ _ _ _ _ i r Hop) as [-> _].
      apply run_view_ext. intros j r'.
      now destruct (insert_memo_view _ _ _ _ _ _ _ _ _ j r' Hop).
    + destruct (update_memo a p pos r0 n st) as [[ret p1] st1|] eqn:Hop; [|discriminate].
      rewrite (IH _ _ Hrun). simpl.
      destruct (update_memo_view _ _ _ _ _ _ _ _ _ i r Hop) as [-> _].
      apply run_view_ext. intros j r'.
      now destruct (update_memo_view _ _ _ _ _ _ _ _ _ j r' Hop).
    + rewrite (IH _ _ Hrun). reflexivity.
Qed.

Lemma memo_find_none_ids (chain : list Memo) (r : Z) :
  memo_find chain r = None <-> ~ In r (List.map memo_type chain).
Proof.
  induction chain as [|m next IH]; simpl; [tauto|].
  destruct (Z.eqb_spec (memo_type m) r) as [E|E].
  - split; [discriminate|]. intros Hn. exfalso. apply Hn. now left.
  - rewrite IH. tauto.
Qed.

Lemma filter_none {A} (f : A -> bool) (l : list A) :
  (forall x, In x l -> f x = false) -> List.filter f l = [].
Proof.
  induction l as [|x l IH]; intros Hf; simpl; [reflexivity|].
  rewrite (Hf x) by now left. apply IH. intros y Hy. apply Hf. now right.
Qed.

Lemma entries_of_NoDup (chain : list Memo) (r : Z) :
  NoDup (List.map memo_type chain) -> (length (entries_of r chain) <= 1)%nat.
Proof.
  unfold entries_of. induction chain as [|m next IH]; simpl; [lia|].
  intros Hnd. apply NoDup_cons in Hnd as [Hnotin Hnd].
  destruct (Z.eqb_spec (memo_type m) r) as [E|E]; [|apply IH, Hnd].
  simpl. rewrite filter_none; [simpl; lia|].
  intros x Hx. apply Z.eqb_neq. intros Hc.
  apply Hnotin. rewrite E, <- Hc. apply list_elem_of_In, in_map, Hx.
Qed.

(** The chains of a parser hold every rule-id once. *)
Lemma chains_distinct_set (p : Parser) (pos : nat) (t : Token) (chain : list Memo) :
  (forall i t', tokens p !! i = Some t' -> NoDup (rule_ids t')) ->
  NoDup (List.map memo_type chain) ->
  forall i t', tokens (set_tokens p (<[pos := set_memo t chain]> (tokens p))) !! i = Some t'
               -> NoDup (rule_ids t').
Proof.
  intros Hinv Hchain i t' Hi. cbn [set_tokens tokens] in Hi.
  destruct (Nat.eq_dec i pos) as [->|Hne].
  - destruct (decide (pos < length (tokens p))%nat) as [Hlt|Hge].
    + rewrite list_lookup_insert_eq in Hi by exact Hlt. injection Hi as <-. exact Hchain.
    + rewrite list_insert_ge in Hi by lia. apply (Hinv pos), Hi.
  - rewrite list_lookup_insert_ne in Hi by congruence. apply (Hinv i), Hi.
Qed.

Lemma insert_memo_distinct (a : bool) (p p1 : Parser) (pos : nat) (r : Z)
    (n : option node) (st st1 : PyState) (ret : Z) :
  (forall i t, tokens p !! i = Some t -> NoDup (rule_ids t)) ->
  memo_view p pos r = None ->
  insert_memo a p pos r n st = Ok (ret, p1) st1 ->
  forall i t, tokens p1 !! i = Some t -> NoDup (rule_ids t).
Proof.
  intros Hinv Hmiss. unfold insert_memo. destruct a; cbn [negb].
  - destruct (tokens p !! pos) as [t|] eqn:Ht; [|discriminate].
    intros Hi. injection Hi as _ <- _.
    apply chains_distinct_set; [exact Hinv|].
    cbn [List.map memo_type]. apply NoDup_cons. split; [|apply (Hinv pos), Ht].
    rewrite list_elem_of_In. apply memo_find_none_ids.
    unfold memo_view in Hmiss. rewrite Ht in Hmiss.
    destruct (memo_find (t_memo t) r); [discriminate|reflexivity].
  - monad. intros Hi. injection Hi as _ <- _. exact Hinv.
Qed.

Lemma update_memo_distinct (a : bool) (p p1 : Parser) (pos : nat) (r : Z)
    (n : option node) (st st1 : PyState) (ret : Z) :
  (forall i t, tokens p !! i = Some t -> NoDup (rule_ids t)) ->
  update_memo a p pos r n st = Ok (ret, p1) st1 ->
  forall i t, tokens p1 !! i = Some t -> NoDup (rule_ids t).
Proof.
  intros Hinv. unfold update_memo.
  destruct (tokens p !! pos) as [t|] eqn:Ht; [|discriminate].
  destruct (update_chain (t_memo t) r n (mark p)) as [chain'|] eqn:Hu.
  - monad. intros Hi. injection Hi as _ <- _.
    apply chains_distinct_set; [exact Hinv|].
    destruct (update_chain_types _ _ _ _ _ Hu) as [-> _]. apply (Hinv pos), Ht.
  - apply insert_memo_distinct; [exact Hinv|].
    apply update_chain_none in Hu. unfold memo_view. now rewrite Ht, Hu.
Qed.

Lemma run_memo_ops_distinct (ops : list memo_op) (p p' : Parser) (st st' : PyState) :
  (forall i t, tokens p !! i = Some t -> NoDup (rule_ids t)) ->
  inserts_after_miss ops p st = true ->
  run_memo_ops ops p st = Ok p' st' ->
  forall i t, tokens p' !! i = Some t -> NoDup (rule_ids t).
Proof.
  revert p st. induction ops as [|op ops IH]; intros p st Hinv Hmiss Hrun.
  - simpl in Hrun. monad. injection Hrun as <- _. exact Hinv.
  - cbn [inserts_after_miss] in Hmiss. apply andb_prop in Hmiss as [Hop Hrest].
    change (run_memo_ops (op :: ops) p st)
      with ((p1 ← memo_op_run op p; run_memo_ops ops p1) st) in Hrun.
    unfold mbind at 1, M_bind in Hrun.
    destruct (memo_op_run op p st) as [p1 st1|] eqn:Hstep; [|discriminate].
    apply (IH p1 st1); [|exact Hrest|exact Hrun].
    destruct op as [a pos r n|a pos r n|m]; cbn [memo_op_run] in Hstep.
    + unfold mbind, M_bind in Hstep.
      destruct (insert_memo a p pos r n st) as [[ret q] s|] eqn:Hi; [|discriminate].
      injection Hstep as <- <-.
      eapply insert_memo_distinct; [exact Hinv| |exact Hi].
      destruct (memo_view p pos r); [discriminate|reflexivity].
    + unfold mbind, M_bind in Hstep.
      destruct (update_memo a p pos r n st) as [[ret q] s|] eqn:Hi; [|discriminate].
      injection Hstep as <- <-.
      eapply update_memo_distinct; [exact Hinv|exact Hi].
    + injection Hstep as <- <-. exact Hinv.
Qed.

(** C4.  [insert_memo] prepends without looking for an entry of the rule,
    so the chains keep one entry per rule-id only under the discipline of
    the memoised rules: when every chain holds each rule-id at most once
    and [insert_memo] is called for a position and a rule-id only where the
    chain has no entry of it ([update_memo] being free), then after the run
    every token's chain holds at most one entry per rule-id.  With or
    without the discipline, what [is_memoized] finds for a position and a
    rule-id is what the last call for them stored: the chains answer as a
    map keyed by position and rule-id. *)
Theorem memo_chain_one_entry_per_rule (ops : list memo_op) (p p' : Parser)
    (st st' : PyState)
    (Hrun : run_memo_ops ops p st = Ok p' st') :
  ((forall i t, tokens p !! i = Some t -> NoDup (rule_ids t)) ->
   inserts_after_miss ops p st = true ->
   forall i t r,
     tokens p' !! i = Some t ->
     NoDup (rule_ids t) /\ (length (entries_of r (t_memo t)) <= 1)%nat)
  /\ (forall i r, memo_view p' i r = run_view ops (mark p) (memo_view p) i r).
Proof.
  split.
  - intros Hinv Hmiss i t r Ht.
    pose proof (run_memo_ops_distinct ops p p' st st' Hinv Hmiss Hrun i t Ht) as Hnd.
    split; [exact Hnd|]. apply entries_of_NoDup, Hnd.
  - apply (run_memo_ops_view ops p p' st st' Hrun).
Qed.

Lemma memo_chain_one_entry_per_rule_witness :
  let ops := [OpInsert true 0 42 (Some (OpaqueNode 1)); OpSetMark 0;
              OpUpdate true 0 7 None; OpUpdate true 0 42 (Some (OpaqueNode 3))] in
  exists p' t,
    run_memo_ops ops (Example.parser_at_string (str "'a'")) Example.st0
    = Ok p' Example.st0
    /\ tokens p' !! 0%nat = Some t
    /\ rule_ids t = [7; 42]
    /\ (length (entries_of 42 (t_memo t)) <= 1)%nat
    /\ memo_view p' 0 42 = Some (Some (OpaqueNode 3), 0%nat).
Proof.
  intros ops. eexists. eexists.
  split; [reflexivity|]. split; [reflexivity|]. split; [reflexivity|].
  destruct (memo_chain_one_entry_per_rule ops (Example.parser_at_string (str "'a'")) _
              Example.st0 Example.st0 eq_refl) as [Hone Hview].
  split.
  - eapply (Hone ltac:(intros [|[|i]] t Ht; try discriminate Ht;
                       injection Ht as <-; constructor)
                 eq_refl 0%nat _ 42).
    reflexivity.
  - rewrite Hview. reflexivity.
Defined.

(** Two [insert_memo] calls for one position and rule-id, as a rule makes
    them that does not ask [is_memoized] in between: the chain holds two
    entries of the rule-id. *)
Lemma memo_chain_two_entries_of_a_rule :
  let ops := [OpInsert true 0 42 (Some (OpaqueNode 1));
              OpInsert true 0 42 (Some (OpaqueNode 2))] in
  exists p' t,
    run_memo_ops ops (Example.parser_at_string (str "'a'")) Example.st0
    = Ok p' Example.st0
    /\ tokens p' !! 0%nat = Some t
    /\ rule_ids t = [42; 42]
    /\ length (entries_of 42 (t_memo t)) = 2%nat
    /\ inserts_after_miss ops (Example.parser_at_string (str "'a'")) Example.st0 = false.
Proof.
  intros ops. eexists. eexists. repeat split.
Qed.

(** ** The string literal decoder *)

Lemma char_at_app_r (pre l : list ascii) (i : nat) :
  char_at (pre ++ l) (length pre + i) = char_at l i.
Proof. unfold char_at. rewrite List.app_nth2_plus. reflexivity. Qed.


Lemma quotes_bytes_literal (prefix : list ascii) (q : ascii) (triple : bool)
    (body : list ascii) :
  q = "'"%char \/ q = dquote ->
  (triple = false -> hd NUL body <> q) ->
  Z.of_nat (length body) + 5 <= INT_MAX ->
  parsestr_quotes (bytes_literal prefix q triple body) (length prefix) q
  = QuotesOk (length prefix + length (quotes q triple)) (length body).
Proof.
  intros Hq Hhd Hlen. unfold parsestr_quotes.
  assert (negb (ceq q "'"%char) && negb (ceq q dquote) = false) as ->
    by (destruct Hq as [-> | ->]; reflexivity).
  unfold bytes_literal.
  destruct triple; cbn [quotes app].
  - assert (length (prefix ++ q :: q :: q :: body ++ [q; q; q]) - S (length prefix)
            = S (length body + 4))%nat as ->.
    { rewrite !length_app. cbn [length]. rewrite length_app. simpl. lia. }
    assert ((INT_MAX <? Z.of_nat (S (length body + 4))) = false) as ->
      by (apply Z.ltb_ge; lia).
    replace (S (length prefix) + (length body + 4))%nat
      with (length prefix + (length [q; q; q] + (length body + 2)))%nat by (simpl; lia).
    replace (S (length prefix)) with (length prefix + 1)%nat by lia.
    replace (S (length prefix + 1)) with (length prefix + 2)%nat by lia.
    replace (length prefix + 1 + 2 + (length body + 4 - 3))%nat
      with (length prefix + (length [q; q; q] + (length body + 1)))%nat by (simpl; lia).
    replace (length prefix + 1 + 2 + (length body + 4 - 4))%nat
      with (length prefix + (length [q; q; q] + (length body + 0)))%nat by (simpl; lia).
    rewrite !char_at_app_r.
    change (q :: q :: q :: body ++ [q; q; q]) with ([q; q; q] ++ body ++ [q; q; q]).
    rewrite !char_at_app_r.
    unfold ceq. cbn [char_at nth app]. rewrite !Ascii.eqb_refl.
    assert ((4 <=? length body + 4)%nat = true) as -> by (apply Nat.leb_le; lia).
    cbn [negb andb orb]. f_equal; simpl; lia.
  - specialize (Hhd eq_refl).
    assert (length (prefix ++ q :: body ++ [q]) - S (length prefix)
            = S (length body))%nat as ->.
    { rewrite !length_app. cbn [length]. rewrite length_app. simpl. lia. }
    assert ((INT_MAX <? Z.of_nat (S (length body))) = false) as ->
      by (apply Z.ltb_ge; lia).
    replace (S (length prefix) + length body)%nat
      with (length prefix + (length [q] + (length body + 0)))%nat by (simpl; lia).
    replace (S (length prefix)) with (length prefix + 1)%nat by lia.
    rewrite !char_at_app_r.
    change (q :: body ++ [q]) with ([q] ++ body ++ [q]).
    rewrite !char_at_app_r.
    unfold ceq at 1. cbn [char_at nth app]. rewrite Ascii.eqb_refl. cbn [negb].
    assert ((4 <=? length body)%nat && ceq (char_at (body ++ [q]) 0) q = false) as ->.
    { destruct body as [|c body]; [reflexivity|].
      apply andb_false_intro2. apply Ascii.eqb_neq. exact Hhd. }
    cbn [andb]. f_equal.
Qed.

Section ParsestrProofs.
Context `{TokenKinds} `{allocs : Allocators} `{Collaborators}.

Lemma raise_syntax_error_last (p : Parser) (t : Token) (msg : list ascii) (st : PyState) :
  last_token p t ->
  raise_syntax_error p msg st
  = Ok 0 {| exc := Some (SyntaxError msg (lineno (t_loc t)) (col_offset (t_loc t)));
            warned := warned st |}.
Proof.
  intros [i [Hf Ht]]. unfold raise_syntax_error. rewrite Hf, Ht. reflexivity.
Qed.




End ParsestrProofs.



(** ** The expression scanner of the f-string sub-parser *)

Section ExprScanProofs.
Context `{TokenKinds} `{allocs : Allocators} `{Collaborators}.

Ltac split_ifs H :=
  repeat match type of H with
         | context [if ?x then _ else _] =>
             lazymatch x with
             | context [if _ then _ else _] => fail
             | _ => destruct x eqn:?
             end
         end.

Lemma ceq_eq (a b : ascii) : ceq a b = true <-> a = b.
Proof. apply Ascii.eqb_eq. Qed.

(** One round of the loop at bracket depth 0 and outside a string, with
    the current character [ch] and the test for a next character spelled
    out. *)
Lemma fstring_find_expr_step_top (p : Parser) (buf : list ascii) (end_ : nat)
    (st : expr_scan) (s : PyState) (ch : ascii) :
  parenstack st = [] -> quote_char st = NUL -> char_at buf (sc_str st) = ch ->
  ceq ch "!"%char || ceq ch ":"%char || ceq ch "}"%char
  || ceq ch "="%char || ceq ch ">"%char || ceq ch "<"%char = true ->
  fstring_find_expr_step p buf end_ st s
  = Ok (if (S (sc_str st) <? end_)%nat
        then
          if (ceq ch "!"%char || ceq ch "="%char || ceq ch "<"%char || ceq ch ">"%char)
             && ceq (char_at buf (S (sc_str st))) "="%char
          then StepNext (advance st 1)
          else if ceq ch ">"%char || ceq ch "<"%char then StepNext st
               else StepBreak st
        else StepBreak st) s.
Proof.
  intros Hdepth Hquote Hch Hterm.
  unfold fstring_find_expr_step, nested_depth, advance.
  rewrite Hquote, Hdepth, Hch, Nat.add_1_r.
  repeat rewrite orb_true_iff in Hterm. rewrite !ceq_eq in Hterm.
  destruct (S (sc_str st) <? end_)%nat;
    destruct Hterm as [[[[[-> | ->] | ->] | ->] | ->] | ->]; cbn;
    try reflexivity;
    destruct (ceq (char_at buf (S (sc_str st))) "="%char); reflexivity.
Qed.

(** The loop is left by [break] only on one of the six characters that
    the test at bracket depth 0 names. *)
Lemma fstring_find_expr_step_break (p : Parser) (buf : list ascii) (end_ : nat)
    (st : expr_scan) (s : PyState) (st' : expr_scan) (s' : PyState) :
  parenstack st = [] -> quote_char st = NUL ->
  fstring_find_expr_step p buf end_ st s = Ok (StepBreak st') s' ->
  st' = st /\ s' = s
  /\ (let ch := char_at buf (sc_str st) in
      ceq ch "!"%char || ceq ch ":"%char || ceq ch "}"%char
      || ceq ch "="%char || ceq ch ">"%char || ceq ch "<"%char = true).
Proof.
  intros Hdepth Hquote. unfold fstring_find_expr_step, nested_depth.
  rewrite Hquote, Hdepth. cbn [length negb]. change (ceq NUL NUL) with true.
  cbn [negb andb Nat.eqb]. monad. intros Hs.
  split_ifs Hs;
    repeat match type of Hs with
           | context [raise_syntax_error ?a ?b ?c] =>
               destruct (raise_syntax_error a b c)
           end; try discriminate Hs;
    injection Hs as <- <-; auto.
Qed.

(** C9.  At bracket depth 0 and outside a string: a [<] or [>] that has a
    character after it in the f-string body does not end the expression
    (the scan goes on behind it, or behind the [=] of [<=] and [>=]); [!=]
    and [==] are passed over as one unit; [!], [:], [}] and [=] otherwise
    end the expression.  Nothing else should end it, but a [<] or [>] that
    is the last character of the body does: the tests for a single [<] or
    [>] stand inside the test for a next character, and without one the
    loop is left by [break].  [fstring_find_expr] then hands
    [fstring_compile_expr] an [expr_end] at that [<] or [>], which is not
    one of the four characters that the function's [assert] lists; with
    the [assert]s compiled out the expression in front of it is compiled
    before the missing [}] is reported. *)
Theorem fstring_find_expr_terminators (p : Parser) (buf : list ascii) (end_ : nat)
    (st : expr_scan) (s : PyState) (fuel : nat)
    (Hdepth : parenstack st = [])
    (Hquote : quote_char st = NUL)
    (Hin : (sc_str st < end_)%nat) :
  let ch := char_at buf (sc_str st) in
  let has_next := (S (sc_str st) < end_)%nat in
  let next := char_at buf (S (sc_str st)) in
  let scan := fstring_find_expr_scan (S fuel) p buf end_ st s in
  ((ch = "<"%char \/ ch = ">"%char) -> has_next -> next <> "="%char ->
     scan = fstring_find_expr_scan fuel p buf end_ (advance st 1) s)
  /\ ((ch = "!"%char \/ ch = "="%char \/ ch = "<"%char \/ ch = ">"%char) ->
      has_next -> next = "="%char ->
      scan = fstring_find_expr_scan fuel p buf end_ (advance st 2) s)
  /\ ((ch = "!"%char \/ ch = "="%char) -> ~ (has_next /\ next = "="%char) ->
      scan = Ok (ExprEnd st) s)
  /\ ((ch = ":"%char \/ ch = "}"%char) -> scan = Ok (ExprEnd st) s)
  /\ ((ch = "<"%char \/ ch = ">"%char) -> ~ has_next -> scan = Ok (ExprEnd st) s)
  /\ ((ch = "<"%char \/ ch = ">"%char) -> ~ has_next ->
      (forall expr_start,
          fstring_compile_expr_asserts buf expr_start (sc_str st) = false)
      /\ forall rec raw lvl t i s0,
           (lvl < 2)%nat ->
           fstring_find_expr_scan (end_ - S i) p buf end_
             {| sc_str := S i; quote_char := NUL; string_type := 0; parenstack := [] |}
             s0
           = Ok (ExprEnd st) s ->
           fstring_find_expr rec p buf i end_ raw lvl t s0
           = (e ← fstring_compile_expr p buf (S i) (sc_str st);
              match e with
              | None => mret (-1, sc_str st, None, None)
              | Some _ => unexpected_end_of_string p (sc_str st)
              end) s)
  /\ (forall st' s',
        fstring_find_expr_step p buf end_ st s = Ok (StepBreak st') s' ->
        st' = st /\ s' = s
        /\ (((ch = "!"%char \/ ch = "="%char) /\ ~ (has_next /\ next = "="%char))
            \/ ch = ":"%char \/ ch = "}"%char
            \/ ((ch = "<"%char \/ ch = ">"%char) /\ ~ has_next))).
Proof.
  intros ch has_next next scan.
  assert (forall c, ch = c ->
            ceq c "!"%char || ceq c ":"%char || ceq c "}"%char
            || ceq c "="%char || ceq c ">"%char || ceq c "<"%char = true ->
            scan = match (if (S (sc_str st) <? end_)%nat
                          then
                            if (ceq c "!"%char || ceq c "="%char || ceq c "<"%char
                                || ceq c ">"%char) && ceq next "="%char
                            then StepNext (advance st 1)
                            else if ceq c ">"%char || ceq c "<"%char then StepNext st
                                 else StepBreak st
                          else StepBreak st) with
                   | StepError => Ok (ExprError (sc_str st)) s
                   | StepBreak st' => Ok (ExprEnd st') s
                   | StepNext st' =>
                       fstring_find_expr_scan fuel p buf end_ (advance st' 1) s
                   end) as Hscan.
  { intros c Hc Hterm. unfold scan. cbn [fstring_find_expr_scan].
    apply Nat.ltb_lt in Hin. rewrite Hin. monad.
    rewrite (fstring_find_expr_step_top p buf end_ st s c Hdepth Hquote Hc Hterm).
    fold next.
    destruct (S (sc_str st) <? end_)%nat; [|reflexivity].
    clear Hterm.
    destruct ((ceq c "!"%char || ceq c "="%char || ceq c "<"%char || ceq c ">"%char)
              && ceq next "="%char); [reflexivity|].
    destruct (ceq c ">"%char || ceq c "<"%char); reflexivity. }
  assert (ceq next "="%char = false <-> next <> "="%char) as Hne
    by (unfold ceq; apply Ascii.eqb_neq).
  assert ((S (sc_str st) <? end_)%nat = true <-> has_next) as Hlt by apply Nat.ltb_lt.
  assert ((S (sc_str st) <? end_)%nat = false <-> ~ has_next) as Hge.
  { rewrite <- Hlt. destruct (S (sc_str st) <? end_)%nat; split; congruence. }
  split; [|split; [|split; [|split; [|split; [|split]]]]].
  - intros Hch Hnext Hnot. apply Hlt in Hnext. apply Hne in Hnot.
    destruct Hch as [Hc | Hc]; rewrite (Hscan _ Hc eq_refl), Hnext, Hnot; reflexivity.
  - intros Hch Hnext Heq. apply Hlt in Hnext. apply ceq_eq in Heq.
    destruct Hch as [Hc | [Hc | [Hc | Hc]]];
      rewrite (Hscan _ Hc eq_refl), Hnext, Heq; reflexivity.
  - intros Hch Hnot.
    destruct (S (sc_str st) <? end_)%nat eqn:Hnext.
    + assert (ceq next "="%char = false) as Hn.
      { apply Hne. intros Heq. apply Hnot. split; [now apply Hlt|exact Heq]. }
      destruct Hch as [Hc | Hc]; rewrite (Hscan _ Hc eq_refl), Hn; reflexivity.
    + destruct Hch as [Hc | Hc]; rewrite (Hscan _ Hc eq_refl); reflexivity.
  - intros Hch.
    destruct Hch as [Hc | Hc]; rewrite (Hscan _ Hc eq_refl);
      destruct (S (sc_str st) <? end_)%nat; reflexivity.
  - intros Hch Hnot. apply Hge in Hnot.
    destruct Hch as [Hc | Hc]; rewrite (Hscan _ Hc eq_refl), Hnot; reflexivity.
  - intros Hch Hnot. split.
    + intros expr_start. unfold fstring_compile_expr_asserts. fold ch.
      destruct Hch as [-> | ->]; cbn; apply andb_false_r.
    + intros rec raw lvl t i s0 Hlvl Hrun.
      unfold fstring_find_expr. cbn zeta.
      assert ((2 <=? lvl)%nat = false) as -> by (apply Nat.leb_gt; exact Hlvl).
      erewrite bind_Ok by exact Hrun. cbn beta iota.
      rewrite Hquote, Hdepth. change (ceq NUL NUL) with true. cbn [negb].
      assert ((end_ <=? sc_str st)%nat = false) as -> by (apply Nat.leb_gt; exact Hin).
      unfold mbind at 1 3, M_bind.
      destruct (fstring_compile_expr p buf (S i) (sc_str st) s) as [[e|] s1|];
        [|reflexivity|reflexivity].
      assert (ceq (char_at buf (sc_str st)) "="%char = false
              /\ ceq (char_at buf (sc_str st)) "!"%char = false
              /\ ceq (char_at buf (sc_str st)) ":"%char = false
              /\ ceq (char_at buf (sc_str st)) "}"%char = false)
        as (Ee & Eb & Ec & Er)
        by (unfold ch in Hch; destruct Hch as [E | E]; rewrite E; repeat split).
      rewrite Ee. cbn [andb].
      unfold fstring_find_expr_tail. cbn zeta. rewrite Eb, Ec.
      cbn [andb negb orb].
      assert ((end_ <=? sc_str st)%nat = false) as -> by (apply Nat.leb_gt; exact Hin).
      unfold mbind, M_bind, mret, M_ret. cbn [andb].
      rewrite Er. cbn [negb orb]. rewrite orb_true_r. reflexivity.
  - intros st' s' Hs.
    destruct (fstring_find_expr_step_break p buf end_ st s _ _ Hdepth Hquote Hs)
      as (E1 & E2 & Hterm).
    split; [exact E1|]. split; [exact E2|].
    rewrite (fstring_find_expr_step_top p buf end_ st s ch Hdepth Hquote eq_refl Hterm)
      in Hs.
    fold next in Hs. unfold ch in *.
    repeat rewrite orb_true_iff in Hterm. rewrite !ceq_eq in Hterm.
    destruct (S (sc_str st) <? end_)%nat eqn:Hn.
    + match type of Hs with
      | context [if ?c then StepNext (advance st 1) else _] => destruct c eqn:H2
      end; [discriminate Hs|].
      match type of Hs with
      | context [if ?c then StepNext st else _] => destruct c eqn:Hgl
      end; [discriminate Hs|].
      destruct Hterm as [[[[[Hc|Hc]|Hc]|Hc]|Hc]|Hc]; rewrite Hc in H2, Hgl;
        cbn in H2, Hgl; try discriminate; try tauto;
        left; (split; [tauto|]); intros [_ Heq]; apply ceq_eq in Heq; congruence.
    + injection Hs as <- <-.
      assert (~ has_next) by (apply Nat.ltb_ge in Hn; unfold has_next; lia).
      tauto.
Qed.
End ExprScanProofs.

Lemma fstring_find_expr_terminators_witness :
  let text := str "f'{a<b}'" in
  let p := Example.parser_at_string text in
  let st := {| sc_str := 4; quote_char := NUL; string_type := 0; parenstack := [] |} in
  let cut := str "f'{a<'" in
  (char_at text 4 = "<"%char
   /\ fstring_find_expr_scan 4 p text 7 st Example.st0
      = fstring_find_expr_scan 3 p text 7 (advance st 1) Example.st0)
  /\ (char_at cut 4 = "<"%char
      /\ fstring_find_expr_scan 1 (Example.parser_at_string cut) cut 5 st Example.st0
         = Ok (ExprEnd st) Example.st0
      /\ fstring_compile_expr_asserts cut 3 4 = false
      /\ fstring_find_expr fstring_parse (Example.parser_at_string cut) cut 2 5 false 0
           (Example.string_tok cut) Example.st0
         = Ok (-1, 4%nat, None, None)
             {| exc := Some (SyntaxError (str "f-string: expecting '}'") 1 0);
                warned := [] |}).
Proof.
  intros text p st cut. split.
  - split; [reflexivity|].
    destruct (fstring_find_expr_terminators p text 7 st Example.st0 3 eq_refl eq_refl)
      as [Hpast _].
    + simpl. lia.
    + apply Hpast; [left; reflexivity|simpl; lia|discriminate].
  - split; [reflexivity|].
    destruct (fstring_find_expr_terminators (Example.parser_at_string cut) cut 5 st
                Example.st0 0 eq_refl eq_refl)
      as (_ & _ & _ & _ & Hend & Hbug & _).
    + simpl. lia.
    + split; [apply Hend; [left; reflexivity|simpl; lia]|].
      destruct Hbug as [Hassert Hcall]; [left; reflexivity|simpl; lia|].
      split; [apply Hassert|].
      rewrite (Hcall fstring_parse false 0%nat (Example.string_tok cut) 2%nat Example.st0);
        [reflexivity|lia|reflexivity].
Defined.

(** At recursion level 2 and deeper [fstring_find_expr] gives up before it
    looks at the text: the format-spec parser one level further down is
    never called, which is why three nested bodies of [fstring_parse] are
    enough. *)
Lemma fstring_find_expr_deep `{TokenKinds} `{allocs : Allocators} `{Collaborators}
    (rec rec' : Parser -> list ascii -> nat -> nat -> bool -> nat -> Token
                -> M (expr_ty * nat))
    (p : Parser) (buf : list ascii) (str_ end_ : nat) (raw : bool) (lvl : nat)
    (t : Token) :
  (2 <= lvl)%nat ->
  fstring_find_expr rec p buf str_ end_ raw lvl t
  = fstring_find_expr rec' p buf str_ end_ raw lvl t.
Proof.
  intros Hlvl. unfold fstring_find_expr.
  apply Nat.leb_le in Hlvl. rewrite Hlvl. reflexivity.
Qed.

(** ** The literal scanner of the f-string sub-parser *)

Lemma char_at_here (pre : list ascii) (c : ascii) (rest : list ascii) :
  char_at (pre ++ c :: rest) (length pre) = c.
Proof. unfold char_at. rewrite List.app_nth2, Nat.sub_diag by lia. reflexivity. Qed.


Section LiteralScanProofs.
Context `{TokenKinds} `{allocs : Allocators} `{Collaborators}.

Lemma ltb_true (a b : nat) : (a < b)%nat -> (a <? b)%nat = true.
Proof. apply Nat.ltb_lt. Qed.




Lemma decode_literal_run (p : Parser) (pre run post : list ascii) (raw : bool) (st : PyState) :
  run <> [] ->
  fstring_decode_literal p (pre ++ run ++ post) raw (length pre) (length pre + length run) st
  = match decode_run p raw run st with
    | Ok (Some l) st' => Ok (Some (Some l)) st'
    | Ok None st' => Ok None st'
    | Abort w => Abort w
    end.
Proof.
  intros Hne. unfold fstring_decode_literal, decode_run.
  assert ((length pre =? length pre + length run)%nat = false) as ->.
  { apply Nat.eqb_neq. destruct run; [congruence|simpl; lia]. }
  replace (length pre + length run - length pre)%nat with (length run) by lia.
  rewrite drop_app_length, take_app_length. monad.
  destruct raw.
  - destruct (PyUnicode_DecodeUTF8Stateful run st) as [[l|] st'|]; reflexivity.
  - destruct (decode_unicode_with_escapes p run st) as [[l|] st'|]; reflexivity.
Qed.




Lemma find_literal_at_end (p : Parser) (buf : list ascii) (end_ : nat) (raw : bool)
    (lvl : nat) (st : PyState) :
  fstring_find_literal p buf end_ end_ raw lvl st = Ok (0, end_, None) st.
Proof.
  unfold fstring_find_literal. rewrite Nat.sub_diag. cbn [fstring_find_literal_scan].
  rewrite Nat.ltb_irrefl. monad. unfold fstring_decode_literal.
  rewrite Nat.eqb_refl. reflexivity.
Qed.



End LiteralScanProofs.



(** ** Where the code departs from its own design *)

(** C2.  [string_token] drops the status of [FstringParser_ConcatFstring].
    For the token [f'}'] the segmenter fails ("single '}' is not allowed")
    and [string_token] still returns a node, an empty [JoinedStr], with the
    error pending; [fstring_parse], the sibling that runs the same two calls
    for a format spec, returns [NULL] on the same body. *)
Theorem string_token_returns_node_after_fstring_error :
  let text := str "f'}'" in
  let p := Example.parser_on [Example.raw_token 3 text 0] in
  let t := Example.string_tok text in
  let err := SyntaxError (str "f-string: single '}' is not allowed") 1 0 in
  (exists state,
      FstringParser_ConcatFstring fstring_parse (Example.parser_at_string text)
        FstringParser_Init text 2 3 false 0 t Example.st0
      = Ok (-1, 2%nat, state) {| exc := Some err; warned := [] |})
  /\ (exists p',
        string_token p Example.st0
        = Ok (Some (JoinedStr (Some []) (t_loc t)), p') {| exc := Some err; warned := [] |})
  /\ fstring_parse (Example.parser_at_string text) text 2 3 false 0 t Example.st0
     = Ok (None, 2%nat) {| exc := Some err; warned := [] |}.
Proof.
  intros text p t err. split; [|split].
  - eexists. vm_compute. reflexivity.
  - eexists. vm_compute. reflexivity.
  - vm_compute. reflexivity.
Qed.

(** C1.  [fstring_compile_expr] ends in [return expr->v.Subscript.value]
    with [expr] undeclared: the module that the sub-parser returned is
    looked at for the number of its statements only.  Whatever the
    collaborators are and whatever the unbound name stands for, the result
    does not depend on the statements of that module: two start rules that
    differ only in them give the same result and the same error indicator
    on every input.  So when the sub-parse of a body gives the single
    statement [e1] under one rule and the single statement [e2] under the
    other, the function returns the same expression for both, which cannot
    be the value of both statements. *)
Theorem fstring_compile_expr_ignores_module `{TokenKinds} `{allocs : Allocators}
    (C : Collaborators) (rule1 rule2 : Parser -> M (mod_ty * Parser))
    (p : Parser) (buf : list ascii) (expr_start expr_end : nat) (st : PyState)
    (Hsame : same_up_to_statements rule1 rule2) :
  let compile rule :=
    @fstring_compile_expr _ _ (with_start_rule C rule) p buf expr_start expr_end st in
  compile rule1 = compile rule2
  /\ (forall e1 e2 loc1 loc2 r1 r2 st1 st2,
        rule1 = rule_of_expression e1 loc1 -> rule2 = rule_of_expression e2 loc2 ->
        compile rule1 = Ok r1 st1 -> compile rule2 = Ok r2 st2 ->
        r1 = r2 /\ st1 = st2 /\ (e1 <> e2 -> ~ (r1 = Some e1 /\ r2 = Some e2))).
Proof.
  intros compile.
  assert (compile rule1 = compile rule2) as Heq.
  { unfold compile, fstring_compile_expr. cbn zeta.
    cbn [with_start_rule PyTokenizer_FromString start_rule_func unbound_expr_value].
    destruct (forallb is_expr_whitespace _); [reflexivity|].
    destruct (@PyTokenizer_FromString C _) as [tok_|]; [|reflexivity].
    unfold mbind, M_bind.
    destruct (fill_token _ st) as [[r p2] st2|]; [|reflexivity].
    destruct (r <? 0); [reflexivity|].
    cbn [PyErr_Clear].
    specialize (Hsame p2 {| exc := None; warned := warned st2 |}).
    destruct (rule1 p2 _) as [[m1 q1] s1|w1], (rule2 p2 _) as [[m2 q2] s2|w2];
      try contradiction; [|congruence].
    destruct Hsame as [<- Hm].
    destruct m1 as [[body1]|], m2 as [[body2]|]; try contradiction; [|reflexivity].
    rewrite Hm. reflexivity. }
  split; [exact Heq|].
  intros e1 e2 loc1 loc2 r1 r2 st1 st2 _ _ H1 H2.
  rewrite Heq, H2 in H1. injection H1 as <- <-.
  split; [reflexivity|]. split; [reflexivity|].
  intros Hne [Hr1 Hr2]. rewrite Hr1 in Hr2. injection Hr2 as Hc. exact (Hne Hc).
Qed.

Lemma fstring_compile_expr_ignores_module_witness :
  let text := str "f'{x}'" in
  let p := Example.parser_at_string text in
  let name_y := Name (str "y") Load (Location 1 1 1 2) in
  let compile e :=
    @fstring_compile_expr _ _
      (with_start_rule Example.collaborators (rule_of_expression e Example.loc0))
      p text 3 4 Example.st0 in
  compile Example.name_x = compile name_y
  /\ ~ (compile Example.name_x = Ok (Some Example.name_x) Example.st0
        /\ compile name_y = Ok (Some name_y) Example.st0).
Proof.
  intros text p name_y compile.
  destruct (fstring_compile_expr_ignores_module Example.collaborators
              (rule_of_expression Example.name_x Example.loc0)
              (rule_of_expression name_y Example.loc0) p text 3 4 Example.st0)
    as [Heq Hvalues].
  - intros q st. cbn. split; reflexivity.
  - split; [exact Heq|].
    intros [Hx Hy].
    destruct (Hvalues _ _ _ _ _ _ _ _ eq_refl eq_refl Hx Hy) as (_ & _ & Hnot).
    apply Hnot; [discriminate|split; reflexivity].
Defined.
(** * Further properties *)

#[local] Existing Instance Sample.layout_kinds.

(** ** The token buffer *)

Lemma forallb_Forall {A} (f : A -> bool) (l : list A) :
  forallb f l = true <-> Forall (fun x => f x = true) l.
Proof.
  induction l as [|x l IH]; simpl.
  - split; [constructor|reflexivity].
  - rewrite andb_true_iff, IH. split.
    + intros [? ?]. now constructor.
    + intros HF. inversion HF; subst. now split.
Qed.

Lemma wf_parser_spec (p : Parser) :
  wf_parser p = true <->
  (0 < size p)%nat /\ size p = length (tokens p)
  /\ (mark p <= fill p)%nat /\ (fill p <= size p)%nat
  /\ Forall (fun t => is_Some (t_bytes t)) (take (fill p) (tokens p))
  /\ Forall (fun t => Forall (fun m => (memo_mark m <= fill p)%nat) (t_memo t)) (tokens p)
  /\ Forall (fun t => t_memo t = []) (drop (fill p) (tokens p)).
Proof.
  unfold wf_parser. rewrite !andb_true_iff, !forallb_Forall.
  rewrite Nat.ltb_lt, Nat.eqb_eq, !Nat.leb_le.
  assert (forall l, Forall (fun t : Token => match t_bytes t with Some _ => true | None => false end = true) l
                    <-> Forall (fun t => is_Some (t_bytes t)) l) as E1.
  { intros l. apply Forall_iff. intros t. destruct (t_bytes t); split; intros Hx;
      try reflexivity; try discriminate; [eexists; reflexivity|destruct Hx; discriminate]. }
  assert (forall l, Forall (fun t : Token => forallb (fun m => (memo_mark m <=? fill p)%nat) (t_memo t) = true) l
                    <-> Forall (fun t => Forall (fun m => (memo_mark m <= fill p)%nat) (t_memo t)) l) as E2.
  { intros l. apply Forall_iff. intros t. rewrite forallb_Forall.
    apply Forall_iff. intros m. apply Nat.leb_le. }
  assert (forall l, Forall (fun t : Token => match t_memo t with [] => true | _ :: _ => false end = true) l
                    <-> Forall (fun t => t_memo t = []) l) as E3.
  { intros l. apply Forall_iff. intros t. destruct (t_memo t); split; intros Hx;
      try reflexivity; discriminate. }
  rewrite E1, E2, E3. tauto.
Qed.

Section BufferProofs.
Context `{TokenKinds} `{allocs : Allocators}.

(** The doubled buffer. *)
Lemma grown_parser_wf (p : Parser) :
  wf_parser p = true -> fill p = size p ->
  wf_parser {| tok := tok p; tokens := tokens p ++ replicate (size p) zero_token;
               mark := mark p; fill := fill p; size := (size p * 2)%nat;
               keywords := keywords p |} = true.
Proof.
  rewrite !wf_parser_spec. cbn [tok tokens mark fill size keywords].
  intros (Hsz & Hlen & Hmark & Hfill & Hbytes & Hmemo & Hfresh) Hfull.
  rewrite length_app, length_replicate.
  split; [lia|]. split; [lia|]. split; [lia|]. split; [lia|].
  split; [rewrite take_app_le by lia; exact Hbytes|].
  split.
  - apply Forall_app. split; [exact Hmemo|]. apply Forall_replicate. constructor.
  - rewrite drop_app, (drop_ge (tokens p)) by lia.
    apply Forall_drop, Forall_replicate. reflexivity.
Qed.

(** The slot that the next token goes to, and what [fill_token_store]
    leaves: [bytes] is the bytes object of the token, [NULL] when the
    allocation failed. *)
Lemma store_slot (q : Parser) :
  wf_parser q = true -> (fill q < size q)%nat ->
  exists t, tokens q !! fill q = Some t /\ t_memo t = [].
Proof.
  rewrite wf_parser_spec.
  intros (Hsz & Hlen & Hmark & Hfill & Hbytes & Hmemo & Hfresh) Hroom.
  destruct (lookup_lt_is_Some_2 (tokens q) (fill q)) as [t Ht]; [lia|].
  exists t. split; [exact Ht|].
  rewrite Forall_lookup in Hfresh. apply (Hfresh 0%nat).
  rewrite lookup_drop, Nat.add_0_r. exact Ht.
Qed.

Lemma store_wf (q : Parser) (t' : Token) (k : nat) :
  wf_parser q = true -> (fill q < size q)%nat -> t_memo t' = [] ->
  (k = fill q \/ k = S (fill q) /\ is_Some (t_bytes t')) ->
  wf_parser {| tok := tok q; tokens := <[fill q := t']> (tokens q); mark := mark q;
               fill := k; size := size q; keywords := keywords q |} = true.
Proof.
  rewrite !wf_parser_spec. cbn [tok tokens mark fill size keywords].
  intros (Hsz & Hlen & Hmark & Hfill & Hbytes & Hmemo & Hfresh) Hroom Hm Hk.
  rewrite length_insert.
  split; [lia|]. split; [lia|]. split; [lia|]. split; [lia|].
  assert (Forall (fun t => Forall (fun m => (memo_mark m <= k)%nat) (t_memo t))
            (<[fill q := t']> (tokens q))) as Hmemo'.
  { apply Forall_insert; [|rewrite Hm; constructor].
    eapply Forall_impl; [exact Hmemo|]. cbn beta. intros t Ht.
    eapply Forall_impl; [exact Ht|]. cbn beta. lia. }
  destruct Hk as [->|[-> Hb]].
  - split; [rewrite take_insert_ge by lia; exact Hbytes|].
    split; [exact Hmemo'|].
    rewrite Forall_lookup in Hfresh |- *. intros i x Hi.
    rewrite lookup_drop in Hi.
    destruct (Nat.eq_dec i 0%nat) as [->|Hne].
    + rewrite Nat.add_0_r, list_lookup_insert_eq in Hi by lia.
      injection Hi as <-. exact Hm.
    + rewrite list_lookup_insert_ne in Hi by lia.
      apply (Hfresh i). rewrite lookup_drop. exact Hi.
  - split.
    { rewrite (take_S_r _ _ _ (list_lookup_insert_eq (tokens q) (fill q) _ ltac:(lia))).
      rewrite take_insert_ge by lia.
      apply Forall_app. split; [exact Hbytes|]. constructor; [exact Hb|constructor]. }
    split; [exact Hmemo'|].
    rewrite drop_insert_lt by lia.
    rewrite Forall_lookup in Hfresh |- *. intros i x Hi.
    rewrite lookup_drop in Hi. apply (Hfresh (S i)).
    rewrite lookup_drop.
    replace (fill q + S i)%nat with (S (fill q) + i)%nat by lia. exact Hi.
Qed.

Lemma fill_token_store_ok (q : Parser) (rt : RawToken) (st : PyState) :
  wf_parser q = true -> (fill q < size q)%nat ->
  PyBytes_FromStringAndSize (rt_text rt) = true ->
  exists q',
    fill_token_store q rt st = Ok (0, q') st
    /\ wf_parser q' = true
    /\ fill q' = S (fill q) /\ mark q' = mark q /\ size q' = size q
    /\ (forall i, i <> fill q -> tokens q' !! i = tokens q !! i)
    /\ exists t, tokens q' !! fill q = Some t
                 /\ t_bytes t = Some (rt_text rt)
                 /\ t_type t = (if rt_type rt =? NAME
                                then _get_keyword_or_name_type q (rt_text rt)
                                       (length (rt_text rt))
                                else rt_type rt)
                 /\ t_memo t = [].
Proof.
  intros Hwf Hroom Hb.
  destruct (store_slot q Hwf Hroom) as (t0 & Ht0 & Hm0).
  pose proof Hwf as Hwf0. apply wf_parser_spec in Hwf0.
  destruct Hwf0 as (_ & Hlen & _).
  unfold fill_token_store. cbn zeta. rewrite Ht0, Hb. cbn [negb].
  eexists. split; [reflexivity|].
  split; [apply store_wf; [exact Hwf|exact Hroom|exact Hm0|]|].
  { right. split; [reflexivity|]. cbn [t_bytes]. eexists; reflexivity. }
  cbn [tok tokens mark fill size keywords].
  split; [reflexivity|]. split; [reflexivity|]. split; [reflexivity|].
  split; [intros i Hi; apply list_lookup_insert_ne; congruence|].
  eexists. split; [apply list_lookup_insert_eq; lia|].
  split; [reflexivity|]. split; [reflexivity|exact Hm0].
Qed.

Lemma fill_token_store_no_bytes (q : Parser) (rt : RawToken) (st : PyState) :
  wf_parser q = true -> (fill q < size q)%nat ->
  PyBytes_FromStringAndSize (rt_text rt) = false ->
  exists q',
    fill_token_store q rt st
    = Ok (-1, q') {| exc := Some (CollabError (str "MemoryError")); warned := warned st |}
    /\ wf_parser q' = true
    /\ fill q' = fill q /\ mark q' = mark q /\ size q' = size q /\ tok q' = tok q
    /\ (forall i, i <> fill q -> tokens q' !! i = tokens q !! i)
    /\ exists t, tokens q' !! fill q = Some t /\ t_bytes t = None.
Proof.
  intros Hwf Hroom Hb.
  destruct (store_slot q Hwf Hroom) as (t0 & Ht0 & Hm0).
  pose proof Hwf as Hwf0. apply wf_parser_spec in Hwf0.
  destruct Hwf0 as (_ & Hlen & _).
  unfold fill_token_store. cbn zeta. rewrite Ht0, Hb. cbn [negb].
  eexists. split; [reflexivity|].
  split.
  { unfold set_tokens. apply (store_wf q _ (fill q) Hwf Hroom); [exact Hm0|].
    left. reflexivity. }
  cbn [set_tokens tok tokens mark fill size keywords].
  split; [reflexivity|]. split; [reflexivity|]. split; [reflexivity|].
  split; [reflexivity|].
  split; [intros i Hi; apply list_lookup_insert_ne; congruence|].
  eexists. split; [apply list_lookup_insert_eq; lia|reflexivity].
Qed.

(** The parser that [fill_token_store] is entered with. *)
Lemma fill_token_grows (p : Parser) (st : PyState) :
  wf_parser p = true ->
  rt_type (fst (PyTokenizer_Get (tok p))) <> ERRORTOKEN ->
  (fill p = size p ->
   PyMem_Realloc (size p * 2) = true
   /\ forallb PyMem_Malloc (seq (size p) (size p)) = true) ->
  exists q,
    fill_token p st = fill_token_store q (fst (PyTokenizer_Get (tok p))) st
    /\ wf_parser q = true /\ (fill q < size q)%nat
    /\ fill q = fill p /\ mark q = mark p
    /\ size q = (if (fill p =? size p)%nat then size p * 2 else size p)%nat
    /\ tok q = snd (PyTokenizer_Get (tok p)) /\ keywords q = keywords p
    /\ (forall i, (i < fill p)%nat -> tokens q !! i = tokens p !! i).
Proof.
  intros Hwf Hrt Hgrow.
  pose proof Hwf as Hwf0. apply wf_parser_spec in Hwf0.
  destruct Hwf0 as (Hsz & Hlen & Hmark & Hfill & _).
  unfold fill_token.
  destruct (PyTokenizer_Get (tok p)) as [rt tok'] eqn:Eget. cbn [fst snd] in *.
  apply Z.eqb_neq in Hrt. cbn zeta. rewrite Hrt.
  assert (wf_parser (set_tok p tok') = true) as Hwf1 by (destruct p; exact Hwf).
  cbn [set_tok tok tokens mark fill size keywords].
  destruct (fill p =? size p)%nat eqn:E.
  - apply Nat.eqb_eq in E. destruct (Hgrow E) as [-> ->]. cbn [negb].
    eexists. split; [reflexivity|].
    split; [apply (grown_parser_wf (set_tok p tok') Hwf1 E)|].
    cbn [tok tokens mark fill size keywords].
    split; [lia|]. do 5 (split; [reflexivity|]).
    intros i Hi. apply lookup_app_l. lia.
  - apply Nat.eqb_neq in E.
    exists (set_tok p tok'). split; [reflexivity|]. split; [exact Hwf1|].
    cbn [set_tok tok tokens mark fill size keywords].
    split; [lia|]. do 5 (split; [reflexivity|]). reflexivity.
Qed.

Lemma allocations_granted_spec (p : Parser) :
  allocations_granted p = true <->
  (fill p = size p ->
   PyMem_Realloc (size p * 2) = true
   /\ forallb PyMem_Malloc (seq (size p) (size p)) = true)
  /\ PyBytes_FromStringAndSize (rt_text (fst (PyTokenizer_Get (tok p)))) = true.
Proof.
  unfold allocations_granted. rewrite andb_true_iff.
  destruct (fill p =? size p)%nat eqn:E.
  - apply Nat.eqb_eq in E. rewrite andb_true_iff. tauto.
  - apply Nat.eqb_neq in E. tauto.
Qed.

Lemma fill_token_ok (p : Parser) (st : PyState) :
  wf_parser p = true ->
  rt_type (fst (PyTokenizer_Get (tok p))) <> ERRORTOKEN ->
  allocations_granted p = true ->
  exists p',
    fill_token p st = Ok (0, p') st
    /\ wf_parser p' = true
    /\ fill p' = S (fill p)
    /\ mark p' = mark p
    /\ size p' = (if (fill p =? size p)%nat then size p * 2 else size p)%nat
    /\ (forall i, (i < fill p)%nat -> tokens p' !! i = tokens p !! i)
    /\ exists t, tokens p' !! fill p = Some t
                 /\ t_bytes t = Some (rt_text (fst (PyTokenizer_Get (tok p))))
                 /\ t_type t = (if rt_type (fst (PyTokenizer_Get (tok p))) =? NAME
                                then _get_keyword_or_name_type p
                                       (rt_text (fst (PyTokenizer_Get (tok p))))
                                       (length (rt_text (fst (PyTokenizer_Get (tok p)))))
                                else rt_type (fst (PyTokenizer_Get (tok p))))
                 /\ t_memo t = [].
Proof.
  intros Hwf Hrt Halloc. apply allocations_granted_spec in Halloc.
  destruct Halloc as [Hgrow Hb].
  destruct (fill_token_grows p st Hwf Hrt Hgrow)
    as (q & -> & Hwfq & Hroom & Hfq & Hmq & Hsq & _ & Hkq & Hold).
  destruct (fill_token_store_ok q _ st Hwfq Hroom Hb)
    as (q' & Hrun & Hwf' & Hf' & Hm' & Hs' & Hrest & t & Ht & Htb & Htt & Htm).
  exists q'. split; [exact Hrun|]. split; [exact Hwf'|].
  split; [lia|]. split; [congruence|]. split; [congruence|].
  split.
  { intros i Hi. rewrite Hrest by lia. apply Hold, Hi. }
  exists t. rewrite <- Hfq. split; [exact Ht|]. split; [exact Htb|].
  split; [|exact Htm].
  rewrite Htt. unfold _get_keyword_or_name_type, n_keyword_lists. rewrite Hkq.
  reflexivity.
Qed.

Lemma fill_token_lexer_error (p : Parser) (st : PyState) :
  rt_type (fst (PyTokenizer_Get (tok p))) = ERRORTOKEN ->
  fill_token p st
  = Ok (-1, set_tok p (snd (PyTokenizer_Get (tok p))))
      match exc st with
      | Some _ => st
      | None => {| exc := Some (TokenizerError
                                  (tok_lineno (snd (PyTokenizer_Get (tok p)))));
                   warned := warned st |}
      end.
Proof.
  intros Hrt. unfold fill_token.
  destruct (PyTokenizer_Get (tok p)) as [rt tok'] eqn:Eget. cbn [fst snd] in *.
  cbn zeta. rewrite Hrt, Z.eqb_refl.
  destruct st as [[e|] w]; reflexivity.
Qed.

Lemma fill_token_no_realloc (p : Parser) (st : PyState) :
  rt_type (fst (PyTokenizer_Get (tok p))) <> ERRORTOKEN ->
  fill p = size p -> PyMem_Realloc (size p * 2) = false ->
  fill_token p st
  = Ok (-1, set_tokens (set_tok p (snd (PyTokenizer_Get (tok p)))) [])
      {| exc := Some (MemoryError (str "Realloc tokens failed")); warned := warned st |}.
Proof.
  intros Hrt Hfull Hre. unfold fill_token.
  destruct (PyTokenizer_Get (tok p)) as [rt0 tok'] eqn:Eget. cbn [fst snd] in *.
  apply Z.eqb_neq in Hrt. cbn zeta. rewrite Hrt.
  cbn [set_tok tok tokens mark fill size keywords].
  rewrite Hfull, Nat.eqb_refl, Hre. reflexivity.
Qed.

(** When [fill_token] does not store a token it returns -1 with an
    exception set and leaves [mark] and [fill] alone, as long as no [NULL]
    is written through. *)
Lemma fill_token_fails (p : Parser) (st : PyState) :
  wf_parser p = true ->
  (rt_type (fst (PyTokenizer_Get (tok p))) <> ERRORTOKEN ->
   fill p = size p -> PyMem_Realloc (size p * 2) = true ->
   forallb PyMem_Malloc (seq (size p) (size p)) = true) ->
  ~ (rt_type (fst (PyTokenizer_Get (tok p))) <> ERRORTOKEN
     /\ allocations_granted p = true) ->
  exists p' st',
    fill_token p st = Ok (-1, p') st'
    /\ mark p' = mark p /\ fill p' = fill p /\ exc st' <> None.
Proof.
  intros Hwf Hslots Hnot.
  destruct (Z.eq_dec (rt_type (fst (PyTokenizer_Get (tok p)))) ERRORTOKEN) as [Herr|Hrt].
  - rewrite (fill_token_lexer_error p st Herr).
    eexists; eexists. split; [reflexivity|]. split; [reflexivity|].
    split; [reflexivity|]. destruct st as [[e|] w]; discriminate.
  - destruct (PyBytes_FromStringAndSize (rt_text (fst (PyTokenizer_Get (tok p)))))
      eqn:Hb.
    + destruct (Nat.eq_dec (fill p) (size p)) as [Hfull|Hroom].
      * destruct (PyMem_Realloc (size p * 2)) eqn:Hre.
        -- exfalso. apply Hnot. split; [exact Hrt|].
           apply allocations_granted_spec. split; [|exact Hb].
           intros _. split; [exact Hre|]. apply Hslots; auto.
        -- rewrite (fill_token_no_realloc p st Hrt Hfull Hre).
           eexists; eexists. split; [reflexivity|]. split; [reflexivity|].
           split; [reflexivity|]. discriminate.
      * exfalso. apply Hnot. split; [exact Hrt|].
        apply allocations_granted_spec. split; [|exact Hb].
        intros Hfull. contradiction.
    + destruct (Nat.eq_dec (fill p) (size p)) as [Hfull|Hroom].
      * destruct (PyMem_Realloc (size p * 2)) eqn:Hre.
        -- destruct (fill_token_grows p st Hwf Hrt)
             as (q & -> & Hwfq & Hroomq & Hfq & Hmq & _).
           { intros _. split; [exact Hre|]. apply Hslots; auto. }
           destruct (fill_token_store_no_bytes q _ st Hwfq Hroomq Hb)
             as (q' & Hrun & _ & Hf' & Hm' & _).
           eexists; eexists. split; [exact Hrun|].
           split; [congruence|]. split; [congruence|]. discriminate.
        -- rewrite (fill_token_no_realloc p st Hrt Hfull Hre).
           eexists; eexists. split; [reflexivity|]. split; [reflexivity|].
           split; [reflexivity|]. discriminate.
      * destruct (fill_token_grows p st Hwf Hrt)
          as (q & -> & Hwfq & Hroomq & Hfq & Hmq & _).
        { intros Hfull. contradiction. }
        destruct (fill_token_store_no_bytes q _ st Hwfq Hroomq Hb)
          as (q' & Hrun & _ & Hf' & Hm' & _).
        eexists; eexists. split; [exact Hrun|].
        split; [congruence|]. split; [congruence|]. discriminate.
Qed.

(** X1.  [fill_token] on a well-formed parser whose lexer delivers a token
    that is not the error token.  When every allocation is granted it
    returns 0 and leaves the error indicator alone: [fill] grows by one,
    the cursor stays, the buffer doubles exactly when it was full, the
    tokens materialised before are untouched, the new token carries the
    bytes of the lexer's token and an empty memo chain, and the parser is
    well formed again.  When the buffer is full and [PyMem_Realloc] fails
    it returns -1 with a [MemoryError] and the parser has lost its token
    buffer; when the [Token] of a new slot cannot be allocated the [NULL]
    is written through.  When the bytes object cannot be allocated it
    returns -1 with the allocator's exception: [fill] is as before, the
    tokens in front of it are untouched, the slot at [fill] has no bytes
    and the parser is still well formed. *)
Theorem fill_token_materialises (p : Parser) (st : PyState)
    (Hwf : wf_parser p = true)
    (Hrt : rt_type (fst (PyTokenizer_Get (tok p))) <> ERRORTOKEN) :
  let rt := fst (PyTokenizer_Get (tok p)) in
  let growth_granted :=
    fill p = size p ->
    PyMem_Realloc (size p * 2) = true
    /\ forallb PyMem_Malloc (seq (size p) (size p)) = true in
  (allocations_granted p = true ->
   exists p',
     fill_token p st = Ok (0, p') st
     /\ wf_parser p' = true
     /\ fill p' = S (fill p)
     /\ mark p' = mark p
     /\ size p' = (if (fill p =? size p)%nat then size p * 2 else size p)%nat
     /\ length (tokens p') = size p'
     /\ (forall i, (i < fill p)%nat -> tokens p' !! i = tokens p !! i)
     /\ exists t, tokens p' !! fill p = Some t
                  /\ t_bytes t = Some (rt_text rt)
                  /\ t_memo t = [])
  /\ (fill p = size p -> PyMem_Realloc (size p * 2) = false ->
      fill_token p st
      = Ok (-1, set_tokens (set_tok p (snd (PyTokenizer_Get (tok p)))) [])
          {| exc := Some (MemoryError (str "Realloc tokens failed"));
             warned := warned st |})
  /\ (fill p = size p -> PyMem_Realloc (size p * 2) = true ->
      forallb PyMem_Malloc (seq (size p) (size p)) = false ->
      fill_token p st = Abort UndefinedBehaviour)
  /\ (growth_granted -> PyBytes_FromStringAndSize (rt_text rt) = false ->
      exists p',
        fill_token p st
        = Ok (-1, p') {| exc := Some (CollabError (str "MemoryError"));
                         warned := warned st |}
        /\ wf_parser p' = true
        /\ fill p' = fill p /\ mark p' = mark p
        /\ size p' = (if (fill p =? size p)%nat then size p * 2 else size p)%nat
        /\ (forall i, (i < fill p)%nat -> tokens p' !! i = tokens p !! i)
        /\ exists t, tokens p' !! fill p = Some t /\ t_bytes t = None).
Proof.
  intros rt growth_granted.
  split; [|split; [|split]].
  - intros Halloc.
    destruct (fill_token_ok p st Hwf Hrt Halloc)
      as (p' & Hrun & Hwf' & Hfill & Hmark & Hsize & Hold & t & Ht & Hb & _ & Hm).
    exists p'. repeat split; try assumption.
    + apply wf_parser_spec in Hwf'. symmetry. apply Hwf'.
    + exists t. repeat split; assumption.
  - intros Hfull Hre. apply fill_token_no_realloc; assumption.
  - intros Hfull Hre Hma. unfold fill_token.
    destruct (PyTokenizer_Get (tok p)) as [rt0 tok'] eqn:Eget. cbn [fst snd] in *.
    apply Z.eqb_neq in Hrt. cbn zeta. rewrite Hrt.
    cbn [set_tok tok tokens mark fill size keywords].
    rewrite Hfull, Nat.eqb_refl, Hre, Hma. reflexivity.
  - intros Hgrow Hb.
    destruct (fill_token_grows p st Hwf Hrt Hgrow)
      as (q & -> & Hwfq & Hroom & Hfq & Hmq & Hsq & _ & _ & Hold).
    destruct (fill_token_store_no_bytes q rt st Hwfq Hroom Hb)
      as (q' & Hrun & Hwf' & Hf' & Hm' & Hs' & _ & Hrest & t & Ht & Htb).
    exists q'. split; [exact Hrun|]. split; [exact Hwf'|].
    split; [congruence|]. split; [congruence|]. split; [congruence|].
    split.
    { intros i Hi. rewrite Hrest by lia. apply Hold, Hi. }
    exists t. rewrite <- Hfq. split; [exact Ht|exact Htb].
Qed.

(** X2.  When the lexer delivers the error token, [fill_token] fails and
    touches nothing of the buffer; an exception that is already pending
    stays as it is, and only without one the error is reported at the
    lexer's line.  [expect_token] and [is_memoized], asked at the end of the
    buffer, fail with it: no token, the cursor where it was, the output slot
    as it was. *)
Theorem lexer_error_is_sticky (p : Parser) (type : Z) (pres : option node)
    (st : PyState)
    (Hrt : rt_type (fst (PyTokenizer_Get (tok p))) = ERRORTOKEN)
    (Hend : mark p = fill p) :
  let p' := set_tok p (snd (PyTokenizer_Get (tok p))) in
  let st' :=
    match exc st with
    | Some _ => st
    | None => {| exc := Some (TokenizerError (tok_lineno (tok p'))); warned := warned st |}
    end in
  fill_token p st = Ok (-1, p') st'
  /\ expect_token p type st = Ok (None, p') st'
  /\ is_memoized p type pres st = Ok (-1, pres, p') st'
  /\ tokens p' = tokens p /\ mark p' = mark p /\ fill p' = fill p.
Proof.
  intros p' st'.
  assert (fill_token p st = Ok (-1, p') st') as Hfill.
  { unfold fill_token, p', st'.
    destruct (PyTokenizer_Get (tok p)) as [rt tok'] eqn:Eget. simpl in *.
    rewrite Hrt, Z.eqb_refl. monad. unfold PyErr_Occurred, PyErr_Set.
    destruct st as [[e|] w]; reflexivity. }
  repeat split; try exact Hfill.
  - unfold expect_token. rewrite Hend, Nat.eqb_refl. monad. rewrite Hfill. reflexivity.
  - unfold is_memoized. rewrite Hend, Nat.eqb_refl. monad. rewrite Hfill. reflexivity.
Qed.
End BufferProofs.

Lemma fill_token_materialises_witness :
  let p := Example.parser_on [Example.raw_token 1 (str "x") 0] in
  (exists p',
     fill_token p Example.st0 = Ok (0, p') Example.st0
     /\ fill p' = 1%nat /\ size p' = 1%nat)
  /\ (exists p',
        @fill_token _ Sample.no_bytes p Example.st0
        = Ok (-1, p') {| exc := Some (CollabError (str "MemoryError")); warned := [] |}
        /\ fill p' = 0%nat).
Proof.
  intros p. split.
  - destruct (fill_token_materialises p Example.st0) as [Hgranted _];
      [reflexivity|simpl; lia|].
    destruct (Hgranted eq_refl) as (p' & Hrun & _ & Hfill & _ & Hsize & _).
    exists p'. repeat split; assumption.
  - destruct (@fill_token_materialises _ Sample.no_bytes p Example.st0)
      as (_ & _ & _ & Hbytes); [reflexivity|simpl; lia|].
    destruct (Hbytes ltac:(discriminate) eq_refl) as (p' & Hrun & _ & Hfill & _).
    exists p'. split; assumption.
Defined.

Lemma lexer_error_is_sticky_witness :
  let p := Example.parser_on [Example.raw_token 59 (str "$") 0] in
  exists p', expect_token p 1 Example.st0
             = Ok (None, p') {| exc := Some (TokenizerError 1); warned := [] |}
             /\ mark p' = 0%nat.
Proof.
  intros p.
  edestruct (lexer_error_is_sticky p 1 None Example.st0)
    as (_ & Hexp & _ & _ & Hmark & _); [reflexivity|reflexivity|].
  eexists. split; [exact Hexp|reflexivity].
Defined.
(** ** Token primitives *)

Lemma wf_set_mark (p : Parser) (m : nat) :
  wf_parser p = true -> (m <= fill p)%nat -> wf_parser (set_mark p m) = true.
Proof.
  rewrite !wf_parser_spec. simpl. intros (? & ? & ? & ? & ? & ? & ?) Hm.
  repeat split; assumption.
Qed.

Lemma strcmp_eq_c_string (val b : list ascii) :
  forallb (fun c => negb (Ascii.eqb c NUL)) val = true ->
  strcmp_eq val b = true <-> c_string b = val.
Proof.
  revert b. induction val as [|x val IH]; intros b Hval; cbn [forallb] in Hval.
  - destruct b as [|y b]; cbn [strcmp_eq c_string]; [tauto|].
    rewrite (Ascii.eqb_sym NUL y). destruct (Ascii.eqb y NUL); split; intros E;
      try reflexivity; discriminate.
  - apply andb_true_iff in Hval. destruct Hval as [Hx Hval].
    apply negb_true_iff in Hx.
    destruct b as [|y b]; cbn [strcmp_eq c_string].
    + rewrite Hx. split; discriminate.
    + destruct (Ascii.eqb x y) eqn:Exy.
      * apply Ascii.eqb_eq in Exy. subst y. rewrite Hx.
        rewrite (IH b Hval). split; intros E; [now rewrite E|congruence].
      * split; [discriminate|]. intros E.
        destruct (Ascii.eqb y NUL); [discriminate|].
        inversion E; subst. rewrite Ascii.eqb_refl in Exy. discriminate.
Qed.

Lemma strncmp_eq_prefix (s name : list ascii) :
  forallb (fun c => negb (Ascii.eqb c NUL)) name = true ->
  strncmp_eq s name (length name) = true <-> take (length name) s = name.
Proof.
  revert s. induction name as [|y name IH]; intros s Hname; cbn [forallb] in Hname.
  - cbn [length strncmp_eq]. rewrite take_0. tauto.
  - apply andb_true_iff in Hname. destruct Hname as [Hy Hname].
    apply negb_true_iff in Hy. cbn [length strncmp_eq hd tl].
    destruct s as [|x s]; cbn [hd tl take].
    + rewrite (Ascii.eqb_sym NUL y), Hy. split; discriminate.
    + destruct (Ascii.eqb x y) eqn:Exy.
      * apply Ascii.eqb_eq in Exy. subst x. rewrite Hy.
        rewrite (IH s Hname). split; intros E; [now rewrite E|congruence].
      * split; [discriminate|]. intros E. inversion E; subst.
        rewrite Ascii.eqb_refl in Exy. discriminate.
Qed.

Section PrimitiveProofs.
Context `{TokenKinds} `{allocs : Allocators} `{LayoutKinds}.

Lemma expect_token_ok (p : Parser) (type : Z) (st : PyState) :
  wf_parser p = true ->
  (mark p = fill p -> rt_type (fst (PyTokenizer_Get (tok p))) <> ERRORTOKEN) ->
  (mark p = fill p -> allocations_granted p = true) ->
  exists p1 t,
    wf_parser p1 = true /\ mark p1 = mark p /\ (mark p < fill p1)%nat
    /\ tokens p1 !! mark p = Some t /\ is_Some (t_bytes t)
    /\ ((mark p < fill p)%nat -> p1 = p)
    /\ (mark p = fill p -> fill p1 = S (fill p)
                           /\ forall i, (i < fill p)%nat -> tokens p1 !! i = tokens p !! i)
    /\ expect_token p type st
       = Ok (if t_type t =? type then (Some t, set_mark p1 (S (mark p))) else (None, p1)) st.
Proof.
  intros Hwf Hrt Halloc. unfold expect_token.
  destruct (mark p =? fill p)%nat eqn:E.
  - apply Nat.eqb_eq in E.
    destruct (fill_token_ok p st Hwf (Hrt E) (Halloc E))
      as (p1 & Hrun & Hwf1 & Hfill & Hmark & _ & Hold & t & Ht & Hb & _ & _).
    exists p1, t. rewrite <- E in Ht.
    split; [exact Hwf1|]. split; [exact Hmark|]. split; [lia|].
    split; [exact Ht|]. split; [rewrite Hb; eexists; reflexivity|].
    split; [intros Hlt; lia|]. split; [intros _; split; [exact Hfill|exact Hold]|].
    monad. rewrite Hrun. simpl. rewrite Hmark, Ht.
    destruct (t_type t =? type); reflexivity.
  - apply Nat.eqb_neq in E.
    pose proof Hwf as Hwf0. apply wf_parser_spec in Hwf0.
    destruct Hwf0 as (Hsz & Hlen & Hmark & Hfill & Hbytes & _).
    destruct (lookup_lt_is_Some_2 (tokens p) (mark p)) as [t Ht]; [lia|].
    exists p, t.
    split; [exact Hwf|]. split; [reflexivity|]. split; [lia|].
    split; [exact Ht|]. split.
    { rewrite Forall_lookup in Hbytes. apply (Hbytes (mark p)).
      rewrite lookup_take_lt by lia. exact Ht. }
    split; [reflexivity|]. split; [intros Hm; lia|].
    monad. simpl. rewrite Ht. destruct (t_type t =? type); reflexivity.
Qed.

(** [expect_token] when the token that it needs cannot be stored. *)
Lemma expect_token_fails (p : Parser) (type : Z) (st : PyState) :
  wf_parser p = true -> mark p = fill p ->
  (rt_type (fst (PyTokenizer_Get (tok p))) <> ERRORTOKEN ->
   fill p = size p -> PyMem_Realloc (size p * 2) = true ->
   forallb PyMem_Malloc (seq (size p) (size p)) = true) ->
  ~ (rt_type (fst (PyTokenizer_Get (tok p))) <> ERRORTOKEN
     /\ allocations_granted p = true) ->
  exists p' st',
    expect_token p type st = Ok (None, p') st'
    /\ mark p' = mark p /\ fill p' = fill p /\ exc st' <> None.
Proof.
  intros Hwf Hend Hslots Hnot.
  destruct (fill_token_fails p st Hwf Hslots Hnot)
    as (p' & st' & Hrun & Hmark & Hfill & Hexc).
  exists p', st'. split; [|repeat split; assumption].
  unfold expect_token. rewrite Hend, Nat.eqb_refl.
  erewrite bind_Ok by exact Hrun. reflexivity.
Qed.

(** X3.  [expect_token] on a well-formed parser.  With a token at the
    cursor, or with a lexer that delivers one and every allocation for it
    granted, it returns without touching the error indicator and leaves the
    parser well formed: when the token at the cursor has the kind asked for
    it is returned and the cursor moves one token on; otherwise the result
    is [NULL] and the cursor stays.  A token is read from the lexer only
    when the cursor is at [fill].  When the token has to be read and cannot
    be stored (the lexer fails, the buffer cannot be enlarged or the bytes
    object is refused) the result is [NULL] with an exception set, and
    [mark] and [fill] are as before; this as long as no [NULL] from
    [PyMem_Malloc] is written through. *)
Theorem expect_token_consumes (p : Parser) (type : Z) (st : PyState)
    (Hwf : wf_parser p = true) :
  let readable :=
    rt_type (fst (PyTokenizer_Get (tok p))) <> ERRORTOKEN
    /\ allocations_granted p = true in
  ((mark p = fill p -> readable) ->
   exists r p' t,
     expect_token p type st = Ok (r, p') st
     /\ wf_parser p' = true
     /\ tokens p' !! mark p = Some t
     /\ (t_type t = type -> r = Some t /\ mark p' = S (mark p))
     /\ (t_type t <> type -> r = None /\ mark p' = mark p)
     /\ ((mark p < fill p)%nat ->
         tokens p' = tokens p /\ fill p' = fill p /\ tok p' = tok p)
     /\ (mark p = fill p -> fill p' = S (fill p)))
  /\ (mark p = fill p -> ~ readable ->
      (rt_type (fst (PyTokenizer_Get (tok p))) <> ERRORTOKEN ->
       fill p = size p -> PyMem_Realloc (size p * 2) = true ->
       forallb PyMem_Malloc (seq (size p) (size p)) = true) ->
      exists p' st',
        expect_token p type st = Ok (None, p') st'
        /\ mark p' = mark p /\ fill p' = fill p /\ exc st' <> None).
Proof.
  intros readable. split.
  - intros Hread.
    destruct (expect_token_ok p type st Hwf)
      as (p1 & t & Hwf1 & Hmark & Hlt & Ht & _ & Hsame & Hnew & Hrun).
    { intros Hend. apply (Hread Hend). }
    { intros Hend. apply (Hread Hend). }
    rewrite Hrun. destruct (t_type t =? type) eqn:E.
    + apply Z.eqb_eq in E.
      exists (Some t), (set_mark p1 (S (mark p))), t.
      split; [reflexivity|]. split; [apply wf_set_mark; [exact Hwf1|lia]|].
      split; [exact Ht|]. split; [intros _; split; reflexivity|].
      split; [intros Hne; congruence|].
      split; [intros Hm; rewrite (Hsame Hm); repeat split|].
      intros Hm. apply Hnew, Hm.
    + apply Z.eqb_neq in E.
      exists None, p1, t.
      split; [reflexivity|]. split; [exact Hwf1|].
      split; [exact Ht|]. split; [intros He; congruence|].
      split; [intros _; split; [reflexivity|exact Hmark]|].
      split; [intros Hm; rewrite (Hsame Hm); repeat split|].
      intros Hm. apply Hnew, Hm.
  - intros Hend Hnot Hslots. apply expect_token_fails; assumption.
Qed.

(** X4.  [keyword_token] on a well-formed parser, for a keyword text
    without NUL (and as long as no [NULL] from [PyMem_Malloc] is written
    through when the buffer grows): the result is a token exactly when,
    after the call, a token is materialised at the place of the cursor that
    is a NAME whose bytes, read as a C string, are the keyword; it is that
    token, and the cursor has moved one token on.  In every other case,
    also when the token could not be read from the lexer or stored, the
    result is [NULL] and the cursor is where it was before the call.  With
    a token at the cursor, or one that can be read and stored, the error
    indicator is not touched and the parser stays well formed. *)
Theorem keyword_token_rewinds (p : Parser) (val : list ascii) (st : PyState)
    (Hwf : wf_parser p = true)
    (Hval : forallb (fun c => negb (Ascii.eqb c NUL)) val = true)
    (Hslots : mark p = fill p ->
              rt_type (fst (PyTokenizer_Get (tok p))) <> ERRORTOKEN ->
              fill p = size p -> PyMem_Realloc (size p * 2) = true ->
              forallb PyMem_Malloc (seq (size p) (size p)) = true) :
  exists r p' st',
    keyword_token p val st = Ok (r, p') st'
    /\ (forall t,
          r = Some t <->
          (mark p < fill p')%nat /\ tokens p' !! mark p = Some t /\ t_type t = NAME
          /\ exists bytes, t_bytes t = Some bytes /\ c_string bytes = val)
    /\ mark p' = match r with Some _ => S (mark p) | None => mark p end
    /\ ((mark p < fill p)%nat
        \/ rt_type (fst (PyTokenizer_Get (tok p))) <> ERRORTOKEN
           /\ allocations_granted p = true ->
        st' = st /\ wf_parser p' = true /\ (mark p < fill p')%nat)
    /\ (mark p = fill p ->
        ~ (rt_type (fst (PyTokenizer_Get (tok p))) <> ERRORTOKEN
           /\ allocations_granted p = true) ->
        r = None /\ fill p' = fill p /\ exc st' <> None).
Proof.
  pose proof Hwf as Hwf0. apply wf_parser_spec in Hwf0.
  destruct Hwf0 as (_ & _ & Hmf & _).
  assert ((mark p < fill p)%nat
          \/ rt_type (fst (PyTokenizer_Get (tok p))) <> ERRORTOKEN
             /\ allocations_granted p = true
          \/ mark p = fill p
             /\ ~ (rt_type (fst (PyTokenizer_Get (tok p))) <> ERRORTOKEN
                   /\ allocations_granted p = true)) as Hcases.
  { destruct (Nat.eq_dec (mark p) (fill p)) as [Hend|Hne]; [|left; lia].
    right.
    destruct (Z.eq_dec (rt_type (fst (PyTokenizer_Get (tok p)))) ERRORTOKEN) as [E|E];
      [right; split; [exact Hend|]; intros [Hc _]; contradiction|].
    destruct (allocations_granted p) eqn:Ea; [left; split; [exact E|reflexivity]|].
    right. split; [exact Hend|]. intros [_ Hc]. discriminate. }
  assert ((mark p < fill p)%nat
          \/ rt_type (fst (PyTokenizer_Get (tok p))) <> ERRORTOKEN
             /\ allocations_granted p = true ->
          mark p = fill p ->
          rt_type (fst (PyTokenizer_Get (tok p))) <> ERRORTOKEN
          /\ allocations_granted p = true) as Hread.
  { intros [Hlt|Hok] Hend; [lia|exact Hok]. }
  destruct Hcases as [Hc|[Hc|[Hend Hnot]]].
  1, 2: pose proof (Hread (ltac:(tauto))) as Hr;
    destruct (expect_token_ok p NAME st Hwf (fun E => proj1 (Hr E)) (fun E => proj2 (Hr E)))
      as (p1 & t & Hwf1 & Hmark & Hlt & Ht & [bytes Hb] & Hsame & Hnew & Hrun);
    unfold keyword_token; erewrite bind_Ok by exact Hrun;
    assert (mark p = fill p -> ~ (rt_type (fst (PyTokenizer_Get (tok p))) <> ERRORTOKEN
                                  /\ allocations_granted p = true) -> False) as Habs
      by (intros E Hn; apply Hn, Hr, E);
    (destruct (t_type t =? NAME) eqn:E;
      [apply Z.eqb_eq in E; cbn beta iota; rewrite Hb;
       destruct (strcmp_eq val bytes) eqn:Ecmp;
       [apply (strcmp_eq_c_string val bytes Hval) in Ecmp;
        exists (Some t), (set_mark p1 (S (mark p))), st;
        split; [reflexivity|]; cbn [set_mark mark fill tokens];
        split;
        [intros t1; split;
         [intros Heq; injection Heq as <-;
          split; [exact Hlt|]; split; [exact Ht|]; split; [exact E|];
          exists bytes; split; [exact Hb|exact Ecmp]
         |intros (_ & Ht1 & _); congruence]|];
        split; [reflexivity|];
        split; [intros _; split; [reflexivity|];
                split; [apply wf_set_mark; [exact Hwf1|lia]|exact Hlt]|];
        intros E1 Hn; destruct (Habs E1 Hn)
       |assert (c_string bytes <> val) as Hne
          by (intros Hc1; apply (strcmp_eq_c_string val bytes Hval) in Hc1; congruence);
        exists None, (set_mark (set_mark p1 (S (mark p))) (mark p)), st;
        split; [reflexivity|]; cbn [set_mark mark fill tokens];
        split;
        [intros t1; split; [discriminate|];
         intros (_ & Ht1 & _ & bytes1 & Hb1 & Hc1);
         rewrite Ht in Ht1; injection Ht1 as <-; congruence|];
        split; [reflexivity|];
        split; [intros _; split; [reflexivity|];
                split; [apply wf_set_mark;
                        [apply wf_set_mark; [exact Hwf1|lia]|cbn [set_mark fill]; lia]
                       |exact Hlt]|];
        intros E1 Hn; destruct (Habs E1 Hn)]
      |apply Z.eqb_neq in E; cbn beta iota;
       exists None, p1, st;
       split; [reflexivity|];
       split;
       [intros t1; split; [discriminate|];
        intros (_ & Ht1 & Hty & _); rewrite Ht in Ht1; injection Ht1 as <-; congruence|];
       split; [exact Hmark|];
       split; [intros _; split; [reflexivity|]; split; [exact Hwf1|exact Hlt]|];
       intros E1 Hn; destruct (Habs E1 Hn)]).
  destruct (expect_token_fails p NAME st Hwf Hend (Hslots Hend) Hnot)
    as (p' & st' & Hrun & Hmark & Hfill & Hexc).
  unfold keyword_token. erewrite bind_Ok by exact Hrun. cbn beta iota.
  exists None, p', st'. split; [reflexivity|].
  split; [intros t1; split; [discriminate|]; intros (Hlt & _); lia|].
  split; [exact Hmark|].
  split; [intros [Hlt|Hok]; [lia|contradiction]|].
  intros _ _. repeat split; assumption.
Qed.

Lemma keyword_scan_entries (bucket : list KeywordToken) (name : list ascii) (dflt : Z) :
  forallb (fun c => negb (Ascii.eqb c NUL)) name = true ->
  (forall pre k post,
      keyword_entries bucket = pre ++ k :: post ->
      (forall k', In k' pre -> take (length name) (k_str k') <> name) ->
      take (length name) (k_str k) = name ->
      keyword_scan bucket name (length name) dflt = k_type k)
  /\ ((forall k, In k (keyword_entries bucket) -> take (length name) (k_str k) <> name) ->
      keyword_scan bucket name (length name) dflt = dflt).
Proof.
  intros Hname. induction bucket as [|k0 rest [IH1 IH2]]; simpl.
  - split; [|reflexivity]. intros [|? ?] ? ? E; discriminate.
  - destruct (k_type k0 =? -1) eqn:Es.
    + split; [|reflexivity]. intros [|? ?] ? ? E; discriminate.
    + split.
      * intros pre k post E Hpre Hk.
        destruct pre as [|k1 pre]; simpl in E; inversion E; subst.
        -- apply (strncmp_eq_prefix _ name Hname) in Hk. now rewrite Hk.
        -- destruct (strncmp_eq (k_str k1) name (length name)) eqn:E1.
           ++ apply (strncmp_eq_prefix _ name Hname) in E1. exfalso. apply (Hpre k1); [now left|exact E1].
           ++ eapply IH1; [eassumption| |exact Hk].
              intros k' Hin. apply Hpre. now right.
      * intros Hnone.
        destruct (strncmp_eq (k_str k0) name (length name)) eqn:E1.
        -- apply (strncmp_eq_prefix _ name Hname) in E1. exfalso. apply (Hnone k0); [now left|exact E1].
        -- apply IH2. intros k Hin. apply Hnone. now right.
Qed.

(** X5.  The keyword lookup of [fill_token], for a name without NUL.  A name
    longer than the table, or one whose length has no bucket, is a NAME.
    Otherwise the name gets the kind of the first entry, in front of the
    sentinel of the bucket for its length, whose string begins with the name
    (in a bucket for length [n] the strings have [n] characters: whose
    string is the name); without such an entry it is a NAME. *)
Theorem keyword_or_name_type_lookup (p : Parser) (name : list ascii)
    (Hname : forallb (fun c => negb (Ascii.eqb c NUL)) name = true) :
  (keywords p !! length name = None \/ keywords p !! length name = Some None ->
   _get_keyword_or_name_type p name (length name) = NAME)
  /\ (forall bucket, keywords p !! length name = Some (Some bucket) ->
      (forall pre k post,
          keyword_entries bucket = pre ++ k :: post ->
          (forall k', In k' pre -> take (length name) (k_str k') <> name) ->
          take (length name) (k_str k) = name ->
          _get_keyword_or_name_type p name (length name) = k_type k)
      /\ ((forall k, In k (keyword_entries bucket) ->
                     take (length name) (k_str k) <> name) ->
          _get_keyword_or_name_type p name (length name) = NAME)).
Proof.
  unfold _get_keyword_or_name_type, n_keyword_lists. split.
  - intros [E|E]; rewrite E; destruct (_ <=? _)%nat; reflexivity.
  - intros bucket E. rewrite E.
    assert ((length (keywords p) <=? length name)%nat = false) as ->.
    { apply Nat.leb_gt. apply lookup_lt_Some in E. exact E. }
    apply keyword_scan_entries, Hname.
Qed.

Lemma last_nonwhitespace_scan_find (p : Parser) (n : nat) (token : option Token)
    (st : PyState) :
  (n <= length (tokens p))%nat ->
  last_nonwhitespace_scan p n token st
  = Ok (match List.find significant (rev (take n (tokens p))) with
        | Some t => Some t
        | None =>
            match head (take n (tokens p)) with
            | Some t => Some t
            | None => token
            end
        end) st.
Proof.
  revert token. induction n as [|m IH]; intros token Hn.
  - rewrite take_0. reflexivity.
  - destruct (lookup_lt_is_Some_2 (tokens p) m) as [t Ht]; [lia|].
    simpl. rewrite Ht, (take_S_r _ _ _ Ht), rev_app_distr. simpl.
    fold (significant t).
    destruct (significant t); [reflexivity|].
    rewrite IH by lia.
    destruct (List.find significant (rev (take m (tokens p)))); [reflexivity|].
    destruct (take m (tokens p)); reflexivity.
Qed.

(** X6.  [get_last_nonnwhitespace_token], with the cursor inside the
    buffer: the result is the token nearest in front of the cursor that is
    neither the end marker nor in the range NEWLINE..DEDENT.  When every
    token in front of the cursor is of those kinds the result is not
    [NULL] but the first token of the buffer, the last one the loop looked
    at; the result is [NULL] only with the cursor at 0. *)
Theorem last_nonwhitespace_token_found (p : Parser) (st : PyState)
    (Hmark : (mark p <= length (tokens p))%nat) :
  get_last_nonnwhitespace_token p st
  = Ok (match List.find significant (rev (take (mark p) (tokens p))) with
        | Some t => Some t
        | None => head (take (mark p) (tokens p))
        end) st.
Proof.
  unfold get_last_nonnwhitespace_token.
  rewrite last_nonwhitespace_scan_find by exact Hmark.
  destruct (List.find _ _); [reflexivity|].
  destruct (head _); reflexivity.
Qed.
End PrimitiveProofs.

Lemma expect_token_consumes_witness :
  let p := Example.parser_on [Example.raw_token 1 (str "x") 0] in
  (exists r p' t,
     expect_token p 1 Example.st0 = Ok (r, p') Example.st0
     /\ tokens p' !! 0%nat = Some t
     /\ r = Some t /\ mark p' = 1%nat)
  /\ (exists p' st',
        @expect_token _ Sample.no_bytes p 1 Example.st0 = Ok (None, p') st'
        /\ mark p' = 0%nat /\ exc st' <> None).
Proof.
  intros p. split.
  - destruct (expect_token_consumes p 1 Example.st0) as [Hread _]; [reflexivity|].
    destruct Hread as (r & p' & t & Hrun & _ & Ht & Hyes & _).
    { intros _. split; [simpl; lia|reflexivity]. }
    exists r, p', t. split; [exact Hrun|]. split; [exact Ht|].
    apply Hyes. pose proof Hrun as Hc. vm_compute in Hc. injection Hc as _ <-.
    vm_compute in Ht. injection Ht as <-. reflexivity.
  - destruct (@expect_token_consumes _ Sample.no_bytes p 1 Example.st0) as [_ Hfail];
      [reflexivity|].
    destruct Hfail as (p' & st' & Hrun & Hmark & _ & Hexc).
    + reflexivity.
    + intros [_ Hgranted]. vm_compute in Hgranted. discriminate.
    + intros _ Hfull. vm_compute in Hfull. discriminate.
    + exists p', st'. repeat split; assumption.
Defined.

Lemma keyword_token_rewinds_witness :
  let p := set_mark (Sample.parser_after [Sample.token 1 (str "async")]) 0 in
  exists r p',
    keyword_token p (str "await") Example.st0 = Ok (r, p') Example.st0
    /\ r = None /\ mark p' = 0%nat.
Proof.
  intros p.
  destruct (keyword_token_rewinds p (str "await") Example.st0)
    as (r & p' & st' & Hrun & Hiff & Hmark & Hst & _);
    [reflexivity|reflexivity|simpl; lia|].
  destruct (Hst ltac:(left; simpl; lia)) as (-> & _ & _).
  assert (r = None) as ->.
  { destruct r as [t|]; [|reflexivity].
    destruct (proj1 (Hiff t) eq_refl) as (_ & Ht & _ & bytes & Hb & Hc).
    vm_compute in Hrun. injection Hrun as _ <-.
    vm_compute in Ht. injection Ht as <-. vm_compute in Hb. injection Hb as <-.
    discriminate. }
  exists None, p'. split; [exact Hrun|]. split; [reflexivity|exact Hmark].
Defined.

Lemma keyword_or_name_type_lookup_witness :
  let p := Sample.with_keywords (Example.parser_on []) in
  _get_keyword_or_name_type p (str "in") 2 = 501.
Proof.
  intros p.
  destruct (keyword_or_name_type_lookup p (str "in")) as [_ Hbucket]; [reflexivity|].
  destruct (Hbucket _ eq_refl) as [Hfound _].
  apply (Hfound [{| k_str := str "if"; k_type := 500 |}]
           {| k_str := str "in"; k_type := 501 |} []).
  - reflexivity.
  - intros k' [<-|[]]. discriminate.
  - reflexivity.
Defined.

Lemma last_nonwhitespace_token_found_witness :
  let p := Sample.parser_after [Sample.token 4 []; Sample.token 6 []] in
  get_last_nonnwhitespace_token p Example.st0 = Ok (Some (Sample.token 4 [])) Example.st0.
Proof.
  intros p. rewrite (last_nonwhitespace_token_found p Example.st0) by (simpl; lia).
  reflexivity.
Defined.
(** ** The memo cache stays inside the buffer *)

Lemma update_chain_marks (chain chain' : list Memo) (r : Z) (n : option node)
    (e limit : nat) :
  update_chain chain r n e = Some chain' ->
  (e <= limit)%nat ->
  Forall (fun m => (memo_mark m <= limit)%nat) chain ->
  Forall (fun m => (memo_mark m <= limit)%nat) chain'.
Proof.
  revert chain'. induction chain as [|m next IH]; simpl; intros chain' Hu He Hall;
    [discriminate|].
  inversion Hall as [|? ? Hm Hnext]; subst.
  destruct (memo_type m =? r).
  - injection Hu as <-. constructor; [exact He|exact Hnext].
  - destruct (update_chain next r n e) as [next'|]; [|discriminate].
    injection Hu as <-. constructor; [exact Hm|]. now apply IH.
Qed.

Lemma wf_set_chain (p : Parser) (pos : nat) (t : Token) (chain : list Memo) :
  wf_parser p = true ->
  (pos < fill p)%nat ->
  tokens p !! pos = Some t ->
  Forall (fun m => (memo_mark m <= fill p)%nat) chain ->
  wf_parser (set_tokens p (<[pos := set_memo t chain]> (tokens p))) = true.
Proof.
  rewrite !wf_parser_spec. simpl.
  intros (Hsz & Hlen & Hmark & Hfill & Hbytes & Hmemo & Hfresh) Hpos Ht Hchain.
  rewrite length_insert.
  repeat split; try assumption.
  - rewrite take_insert_lt by lia. apply Forall_insert; [exact Hbytes|].
    simpl. rewrite Forall_lookup in Hbytes. apply (Hbytes pos).
    rewrite lookup_take_lt by lia. exact Ht.
  - apply Forall_insert; [exact Hmemo|exact Hchain].
  - rewrite drop_insert_lt by lia. exact Hfresh.
Qed.

Lemma insert_memo_wf (a : bool) (p : Parser) (pos : nat) (r : Z) (n : option node)
    (st : PyState) :
  wf_parser p = true -> (pos < fill p)%nat ->
  exists ret p' st',
    insert_memo a p pos r n st = Ok (ret, p') st'
    /\ wf_parser p' = true /\ fill p' = fill p /\ mark p' = mark p
    /\ List.map t_bytes (tokens p') = List.map t_bytes (tokens p).
Proof.
  intros Hwf Hpos. pose proof Hwf as Hwf0. apply wf_parser_spec in Hwf0.
  destruct Hwf0 as (Hsz & Hlen & Hmark & Hfill & Hbytes & Hmemo & Hfresh).
  destruct (lookup_lt_is_Some_2 (tokens p) pos) as [t Ht]; [lia|].
  unfold insert_memo. destruct a; simpl.
  - rewrite Ht. eexists _, _, _. split; [reflexivity|].
    split; [|split; [reflexivity|split; [reflexivity|]]].
    + apply wf_set_chain; try assumption.
      constructor; [simpl; lia|].
      rewrite Forall_lookup in Hmemo. apply (Hmemo pos t Ht).
    + simpl. rewrite list_fmap_insert. simpl. apply list_insert_id.
      rewrite list_lookup_fmap, Ht. reflexivity.
  - eexists _, _, _. split; [reflexivity|]. repeat split. exact Hwf.
Qed.

Lemma update_memo_wf (a : bool) (p : Parser) (pos : nat) (r : Z) (n : option node)
    (st : PyState) :
  wf_parser p = true -> (pos < fill p)%nat ->
  exists ret p' st',
    update_memo a p pos r n st = Ok (ret, p') st'
    /\ wf_parser p' = true /\ fill p' = fill p /\ mark p' = mark p
    /\ List.map t_bytes (tokens p') = List.map t_bytes (tokens p).
Proof.
  intros Hwf Hpos. pose proof Hwf as Hwf0. apply wf_parser_spec in Hwf0.
  destruct Hwf0 as (Hsz & Hlen & Hmark & Hfill & Hbytes & Hmemo & Hfresh).
  destruct (lookup_lt_is_Some_2 (tokens p) pos) as [t Ht]; [lia|].
  unfold update_memo. rewrite Ht.
  destruct (update_chain (t_memo t) r n (mark p)) as [chain'|] eqn:Hu.
  - eexists _, _, _. split; [reflexivity|].
    split; [|split; [reflexivity|split; [reflexivity|]]].
    + apply wf_set_chain; try assumption.
      eapply update_chain_marks; [exact Hu|exact Hmark|].
      rewrite Forall_lookup in Hmemo. apply (Hmemo pos t Ht).
    + simpl. rewrite list_fmap_insert. simpl. apply list_insert_id.
      rewrite list_lookup_fmap, Ht. reflexivity.
  - apply insert_memo_wf; assumption.
Qed.

Lemma run_memo_ops_wf (ops : list memo_op) (p : Parser) (st : PyState) :
  wf_parser p = true ->
  forallb (memo_op_in_range (fill p)) ops = true ->
  exists p' st',
    run_memo_ops ops p st = Ok p' st'
    /\ wf_parser p' = true /\ fill p' = fill p
    /\ List.map t_bytes (tokens p') = List.map t_bytes (tokens p).
Proof.
  revert p st. induction ops as [|op ops IH]; intros p st Hwf Hops.
  - exists p, st. repeat split. exact Hwf.
  - simpl in Hops. apply andb_true_iff in Hops. destruct Hops as [Hop Hops].
    simpl. monad.
    destruct op as [a pos r n|a pos r n|m]; simpl in Hop.
    + apply Nat.ltb_lt in Hop.
      destruct (insert_memo_wf a p pos r n st Hwf Hop)
        as (ret & p1 & st1 & -> & Hwf1 & Hfill1 & _ & Hb1).
      rewrite <- Hfill1 in Hops.
      destruct (IH p1 st1 Hwf1 Hops) as (p' & st' & -> & Hwf' & Hfill' & Hb').
      exists p', st'. repeat split; try assumption; congruence.
    + apply Nat.ltb_lt in Hop.
      destruct (update_memo_wf a p pos r n st Hwf Hop)
        as (ret & p1 & st1 & -> & Hwf1 & Hfill1 & _ & Hb1).
      rewrite <- Hfill1 in Hops.
      destruct (IH p1 st1 Hwf1 Hops) as (p' & st' & -> & Hwf' & Hfill' & Hb').
      exists p', st'. repeat split; try assumption; congruence.
    + apply Nat.leb_le in Hop.
      destruct (IH (set_mark p m) st (wf_set_mark p m Hwf Hop) Hops)
        as (p' & st' & -> & Hwf' & Hfill' & Hb').
      exists p', st'. repeat split; assumption.
Qed.

(** X7.  On a well-formed parser, a run of [insert_memo] and [update_memo]
    calls that stores at materialised positions (and moves the cursor no
    further than [fill]) never reads or writes outside the token buffer: it
    returns, the parser is well formed afterwards, [fill] and the bytes of
    the tokens are as before.  A following [is_memoized] with the cursor at a
    materialised position returns 0 or 1, reads no token from the lexer,
    leaves the error indicator alone and the parser well formed: the cursor
    that a hit restores is never beyond [fill]. *)
Theorem memo_cache_stays_in_buffer `{TokenKinds} `{allocs : Allocators}
    (ops : list memo_op) (p : Parser)
    (st : PyState) (type : Z) (pres : option node)
    (Hwf : wf_parser p = true)
    (Hops : forallb (memo_op_in_range (fill p)) ops = true) :
  exists p' st',
    run_memo_ops ops p st = Ok p' st'
    /\ wf_parser p' = true /\ fill p' = fill p
    /\ List.map t_bytes (tokens p') = List.map t_bytes (tokens p)
    /\ ((mark p' < fill p')%nat ->
        exists ret res q,
          is_memoized p' type pres st' = Ok (ret, res, q) st'
          /\ (ret = 0 /\ res = pres /\ q = p' \/ ret = 1 /\ (mark q <= fill p)%nat)
          /\ tokens q = tokens p' /\ tok q = tok p'
          /\ wf_parser q = true).
Proof.
  destruct (run_memo_ops_wf ops p st Hwf Hops) as (p' & st' & Hrun & Hwf' & Hfill' & Hb').
  exists p', st'. split; [exact Hrun|]. split; [exact Hwf'|]. split; [exact Hfill'|].
  split; [exact Hb'|]. intros Hlt.
  pose proof Hwf' as Hwf0. apply wf_parser_spec in Hwf0.
  destruct Hwf0 as (Hsz & Hlen & Hmark & Hfill & Hbytes & Hmemo & Hfresh).
  destruct (lookup_lt_is_Some_2 (tokens p') (mark p')) as [t Ht]; [lia|].
  unfold is_memoized.
  assert ((mark p' =? fill p')%nat = false) as -> by (apply Nat.eqb_neq; lia).
  monad. simpl. rewrite Ht.
  destruct (memo_find (t_memo t) type) as [m|] eqn:Hfind.
  - assert (memo_mark m <= fill p')%nat as Hm.
    { rewrite Forall_lookup in Hmemo. specialize (Hmemo _ _ Ht).
      clear -Hfind Hmemo. induction (t_memo t) as [|m0 next IH]; [discriminate|].
      inversion Hmemo; subst. simpl in Hfind.
      destruct (memo_type m0 =? type); [injection Hfind as <-; assumption|auto]. }
    eexists _, _, _. split; [reflexivity|].
    split; [right; split; [reflexivity|simpl; lia]|].
    split; [reflexivity|]. split; [reflexivity|].
    apply wf_set_mark; assumption.
  - eexists _, _, _. split; [reflexivity|].
    split; [left; repeat split|]. repeat split. exact Hwf'.
Qed.

Lemma memo_cache_stays_in_buffer_witness :
  let p := set_mark (Sample.parser_after [Sample.token 1 (str "a"); Sample.token 1 (str "b")]) 0 in
  let ops := [OpSetMark 2; OpInsert true 0 42 None; OpSetMark 1; OpUpdate false 1 7 None;
              OpUpdate true 0 42 (Some (OpaqueNode 3)); OpSetMark 0] in
  exists p' st',
    run_memo_ops ops p Example.st0 = Ok p' st'
    /\ wf_parser p' = true
    /\ exists ret res q, is_memoized p' 42 None st' = Ok (ret, res, q) st'.
Proof.
  intros p ops.
  destruct (memo_cache_stays_in_buffer ops p Example.st0 42 None)
    as (p' & st' & Hrun & Hwf' & Hfill' & _ & Hmemo); [reflexivity|reflexivity|].
  exists p', st'. split; [exact Hrun|]. split; [exact Hwf'|].
  destruct Hmemo as (ret & res & q & Hm & _).
  - rewrite Hfill'. vm_compute in Hrun. injection Hrun as <- _. simpl. lia.
  - exists ret, res, q. exact Hm.
Defined.
(** ** Sequence helpers *)

Lemma asdl_seq_GET_ok {A} (l : list (option A)) (i : nat) (x : option A) (st : PyState) :
  l !! i = Some x -> asdl_seq_GET (Some l) i st = Ok x st.
Proof. intros E. unfold asdl_seq_GET. now rewrite E. Qed.

Lemma asdl_seq_SET_ok {A} (l : list (option A)) (i : nat) (v : option A) (st : PyState) :
  (i < length l)%nat -> asdl_seq_SET l i v st = Ok (<[i := v]> l) st.
Proof.
  intros E. unfold asdl_seq_SET. apply Nat.ltb_lt in E. now rewrite E.
Qed.

(** Run the next statement of a block with the given equation. *)
Ltac step_by tac := erewrite bind_Ok; [|solve [tac]].

(** The copying loop of [_join_seqs] and [seq_flatten]: [n] cells of [src]
    from cell [i] on go to [dst] from cell [k] on. *)
Lemma copy_loop {A} (src : asdl_seq_of A) (n i k : nat) (dst : list (option A))
    (st : PyState) :
  (i + n <= asdl_seq_LEN src)%nat ->
  (k + n <= length dst)%nat ->
  for_loop_rec n i
    (fun i '(new_seq, k) =>
       x ← asdl_seq_GET src i;
       new_seq ← asdl_seq_SET new_seq k x;
       mret (new_seq, S k))
    (dst, k) st
  = Ok (take k dst ++ take n (drop i (cells src)) ++ drop (k + n) dst, (k + n)%nat) st.
Proof.
  revert i k dst. induction n as [|n IH]; intros i k dst Hsrc Hdst.
  - simpl. rewrite Nat.add_0_r, take_drop. reflexivity.
  - destruct src as [l|]; simpl in Hsrc; [|lia].
    destruct (lookup_lt_is_Some_2 l i) as [x Hx]; [lia|].
    cbn [for_loop_rec].
    erewrite bind_Ok.
    2:{ cbn beta iota. step_by ltac:(apply asdl_seq_GET_ok; exact Hx).
        step_by ltac:(apply asdl_seq_SET_ok; lia). reflexivity. }
    rewrite IH by (simpl; rewrite ?length_insert; lia).
    f_equal. f_equal; [|lia].
    simpl. rewrite (take_S_r _ _ _ (list_lookup_insert_eq dst k x ltac:(lia))).
    rewrite (take_insert_ge dst) by lia.
    rewrite (drop_insert_lt dst) by lia.
    rewrite <- app_assoc. simpl. f_equal.
    rewrite (drop_S _ _ _ Hx). simpl. f_equal. f_equal. f_equal. lia.
Qed.

Lemma copy_loop_all {A} (src : asdl_seq_of A) (k : nat) (dst : list (option A))
    (st : PyState) :
  (k + asdl_seq_LEN src <= length dst)%nat ->
  for_loop 0 (asdl_seq_LEN src)
    (fun i '(new_seq, k) =>
       x ← asdl_seq_GET src i;
       new_seq ← asdl_seq_SET new_seq k x;
       mret (new_seq, S k))
    (dst, k) st
  = Ok (take k dst ++ cells src ++ drop (k + asdl_seq_LEN src) dst,
        (k + asdl_seq_LEN src)%nat) st.
Proof.
  intros Hdst. unfold for_loop. rewrite Nat.sub_0_r.
  rewrite copy_loop by (simpl; lia).
  rewrite drop_0. destruct src as [l|]; simpl; [|reflexivity].
  rewrite (take_ge l) by lia. reflexivity.
Qed.

Lemma cells_length {A} (s : asdl_seq_of A) : length (cells s) = asdl_seq_LEN s.
Proof. destruct s; reflexivity. Qed.

Lemma join_seqs_app {A} (a b : asdl_seq_of A) (st : PyState) :
  _join_seqs a b st = Ok (Some (cells a ++ cells b)) st.
Proof.
  unfold _join_seqs, _Py_asdl_seq_new. cbn zeta.
  step_by ltac:(apply copy_loop_all; rewrite length_replicate; lia).
  cbn beta iota.
  step_by ltac:(apply copy_loop_all;
                rewrite !length_app, length_drop, length_replicate, length_take,
                  cells_length; simpl; lia).
  cbn beta iota. unfold mret, M_ret. f_equal. f_equal.
  simpl. rewrite !drop_replicate.
  rewrite (take_app_length' (cells a)) by (rewrite cells_length; reflexivity).
  f_equal.
  rewrite <- (app_nil_r (cells b)) at 2. f_equal.
  rewrite drop_app.
  rewrite (drop_ge (cells a)) by (rewrite cells_length; lia).
  rewrite drop_replicate, cells_length. simpl.
  match goal with |- replicate ?n _ = _ => replace n with 0%nat by lia end.
  reflexivity.
Qed.

Lemma insert_in_front_loop {A} (l : list (option A)) (n i : nat) (dst : list (option A))
    (st : PyState) :
  (1 <= i)%nat -> (i + n = S (length l))%nat -> length dst = S (length l) ->
  for_loop_rec n i
    (fun i new_seq => x ← asdl_seq_GET (Some l) (i - 1); asdl_seq_SET new_seq i x)
    dst st
  = Ok (take i dst ++ drop (i - 1) l) st.
Proof.
  revert i dst. induction n as [|n IH]; intros i dst Hi Hn Hdst.
  - simpl. rewrite take_ge, drop_ge by lia. rewrite app_nil_r. reflexivity.
  - destruct (lookup_lt_is_Some_2 l (i - 1)) as [x Hx]; [lia|].
    cbn [for_loop_rec].
    erewrite bind_Ok.
    2:{ cbn beta. step_by ltac:(apply asdl_seq_GET_ok; exact Hx).
        apply asdl_seq_SET_ok. lia. }
    rewrite IH by (rewrite ?length_insert; lia).
    f_equal.
    rewrite (take_S_r _ _ _ (list_lookup_insert_eq dst i x ltac:(lia))).
    rewrite (take_insert_ge dst) by lia. rewrite <- app_assoc. f_equal.
    rewrite (drop_S _ _ _ Hx). simpl. do 2 f_equal. lia.
Qed.

Lemma insert_in_front_cons {A} (a : option A) (seq : asdl_seq_of A) (st : PyState) :
  seq_insert_in_front a seq st = Ok (Some (a :: cells seq)) st.
Proof.
  destruct seq as [l|]; [|reflexivity].
  unfold seq_insert_in_front, _Py_asdl_seq_new, for_loop. cbn zeta.
  simpl asdl_seq_LEN.
  step_by ltac:(apply asdl_seq_SET_ok; rewrite length_replicate; lia).
  rewrite length_insert, length_replicate.
  step_by ltac:(apply insert_in_front_loop;
                rewrite ?length_insert, ?length_replicate; lia).
  unfold mret, M_ret. replace (length l + 1)%nat with (S (length l)) by lia.
  reflexivity.
Qed.

Lemma seq_get_tail_last {A} (previous : option A) (seq : asdl_seq_of A) (st : PyState) :
  seq_get_tail previous seq st = Ok (default previous (last (cells seq))) st.
Proof.
  unfold seq_get_tail. destruct seq as [l|]; [|reflexivity].
  simpl asdl_seq_LEN. simpl cells. rewrite last_lookup.
  destruct l as [|x l]; [reflexivity|].
  simpl length. rewrite Nat.sub_1_r. simpl Nat.eqb. cbn iota.
  destruct (lookup_lt_is_Some_2 (x :: l) (Nat.pred (S (length l)))) as [y Hy];
    [simpl; lia|].
  rewrite Hy. apply asdl_seq_GET_ok, Hy.
Qed.

Lemma seq_get_head_first {A} (previous : option A) (seq : asdl_seq_of A) (st : PyState) :
  seq_get_head previous seq st = Ok (default previous (head (cells seq))) st.
Proof.
  unfold seq_get_head. destruct seq as [[|x l]|]; reflexivity.
Qed.

(** X8.  [seq_insert_in_front] gives the sequence that begins with the new
    element and goes on with the elements of the old one, a [NULL] sequence
    counting as empty ([singleton_seq] is the case of the empty one); the
    loop copies every cell and stays inside both sequences.  [seq_get_head]
    of the result is the new element whatever the fallback, and
    [seq_get_tail] of the result is [seq_get_tail] of the old sequence with
    the new element as fallback. *)
Theorem seq_insert_in_front_prepends {A : Type} (a previous : option A)
    (seq : asdl_seq_of A) (st : PyState) :
  seq_insert_in_front a seq st = Ok (Some (a :: cells seq)) st
  /\ singleton_seq a st = Ok (Some [a]) st
  /\ seq_get_head previous (Some (a :: cells seq)) st = Ok a st
  /\ seq_get_tail previous (Some (a :: cells seq)) st = seq_get_tail a seq st.
Proof.
  split; [apply insert_in_front_cons|]. split; [reflexivity|]. split; [reflexivity|].
  rewrite !seq_get_tail_last. simpl cells at 1.
  change (a :: cells seq) with ([a] ++ cells seq). rewrite last_app.
  destruct (last (cells seq)); reflexivity.
Qed.

(** X9.  [_join_seqs] returns the elements of the first sequence followed
    by those of the second, a [NULL] sequence counting as empty; it stays
    inside the three sequences whatever their lengths.  The last element of
    the join is the last of the second sequence, or of the first when the
    second is empty; the first element of the join is the first of the
    first sequence, or of the second when the first is empty. *)
Theorem join_seqs_appends {A : Type} (a b : asdl_seq_of A) (previous : option A)
    (st : PyState) :
  _join_seqs a b st = Ok (Some (cells a ++ cells b)) st
  /\ seq_get_tail previous (Some (cells a ++ cells b)) st
     = (t ← seq_get_tail previous a; seq_get_tail t b) st
  /\ seq_get_head previous (Some (cells a ++ cells b)) st
     = (h ← seq_get_head previous b; seq_get_head h a) st.
Proof.
  split; [apply join_seqs_app|]. split.
  - step_by ltac:(apply seq_get_tail_last).
    rewrite !seq_get_tail_last. simpl cells at 1. rewrite last_app.
    destruct (last (cells b)); reflexivity.
  - step_by ltac:(apply seq_get_head_first).
    rewrite !seq_get_head_first. simpl cells at 1. rewrite head_app.
    destruct (head (cells a)); reflexivity.
Qed.

Section FlattenProofs.
Context {A : Type} (at_address_1 : A -> bool).

Lemma flattened_size_loop (ss : list (list (option A))) (n i acc : nat) (st : PyState) :
  forallb (fun inner => negb (length inner =? 0)%nat) ss = true ->
  (i + n <= length ss)%nat ->
  for_loop_rec n i
    (fun i size_ =>
       inner_seq ← asdl_seq_GET (seq_of ss) i;
       first ← asdl_seq_GET inner_seq 0;
       if is_placeholder at_address_1 first then mret size_
       else mret (size_ + asdl_seq_LEN inner_seq)%nat)
    acc st
  = Ok (acc + length (concat (List.filter (kept_by_flatten at_address_1) (take n (drop i ss)))))%nat st.
Proof.
  intros Hne. revert i acc. induction n as [|n IH]; intros i acc Hn.
  - simpl. rewrite Nat.add_0_r. reflexivity.
  - destruct (lookup_lt_is_Some_2 ss i) as [inner Hinner]; [lia|].
    assert (inner <> []) as Hnil.
    { apply forallb_Forall in Hne. rewrite Forall_lookup in Hne.
      specialize (Hne _ _ Hinner). destruct inner; [discriminate|congruence]. }
    destruct inner as [|x inner]; [congruence|].
    cbn [for_loop_rec].
    rewrite (drop_S _ _ _ Hinner). cbn [take List.filter].
    assert (kept_by_flatten at_address_1 (x :: inner) = negb (is_placeholder at_address_1 x)) as Hk
      by reflexivity.
    rewrite Hk.
    destruct (is_placeholder at_address_1 x) eqn:Ex; cbn [negb].
    + erewrite bind_Ok.
      2:{ cbn beta.
          step_by ltac:(apply asdl_seq_GET_ok; unfold seq_of;
                        rewrite list_lookup_fmap, Hinner; reflexivity).
          step_by ltac:(apply asdl_seq_GET_ok; reflexivity).
          rewrite Ex. reflexivity. }
      rewrite IH by lia. reflexivity.
    + erewrite bind_Ok.
      2:{ cbn beta.
          step_by ltac:(apply asdl_seq_GET_ok; unfold seq_of;
                        rewrite list_lookup_fmap, Hinner; reflexivity).
          step_by ltac:(apply asdl_seq_GET_ok; reflexivity).
          rewrite Ex. reflexivity. }
      rewrite IH by lia. f_equal.
      cbn [concat asdl_seq_LEN]. rewrite length_app. lia.
Qed.

Lemma flatten_fill_loop (ss : list (list (option A))) (n i idx : nat)
    (fs : list (option A)) (st : PyState) :
  forallb (fun inner => negb (length inner =? 0)%nat) ss = true ->
  (i + n <= length ss)%nat ->
  (idx + length (concat (List.filter (kept_by_flatten at_address_1) (take n (drop i ss)))) <= length fs)%nat ->
  for_loop_rec n i
    (fun i '(flattened_seq, flattened_seq_idx) =>
       inner_seq ← asdl_seq_GET (seq_of ss) i;
       first ← asdl_seq_GET inner_seq 0;
       if is_placeholder at_address_1 first then mret (flattened_seq, flattened_seq_idx)
       else
         for_loop 0 (asdl_seq_LEN inner_seq)
           (fun j '(flattened_seq, flattened_seq_idx) =>
              x ← asdl_seq_GET inner_seq j;
              flattened_seq ← asdl_seq_SET flattened_seq flattened_seq_idx x;
              mret (flattened_seq, S flattened_seq_idx))
           (flattened_seq, flattened_seq_idx))
    (fs, idx) st
  = Ok (take idx fs ++ concat (List.filter (kept_by_flatten at_address_1) (take n (drop i ss)))
        ++ drop (idx + length (concat (List.filter (kept_by_flatten at_address_1) (take n (drop i ss))))) fs,
        (idx + length (concat (List.filter (kept_by_flatten at_address_1) (take n (drop i ss)))))%nat) st.
Proof.
  intros Hne. revert i idx fs. induction n as [|n IH]; intros i idx fs Hn Hfs.
  - simpl. rewrite Nat.add_0_r, take_drop. reflexivity.
  - destruct (lookup_lt_is_Some_2 ss i) as [inner Hinner]; [lia|].
    assert (inner <> []) as Hnil.
    { apply forallb_Forall in Hne. rewrite Forall_lookup in Hne.
      specialize (Hne _ _ Hinner). destruct inner; [discriminate|congruence]. }
    destruct inner as [|x inner]; [congruence|].
    rewrite (drop_S _ _ _ Hinner) in Hfs |- *. cbn [take List.filter] in Hfs |- *.
    assert (kept_by_flatten at_address_1 (x :: inner) = negb (is_placeholder at_address_1 x)) as Hk
      by reflexivity.
    rewrite Hk in Hfs |- *.
    cbn [for_loop_rec].
    destruct (is_placeholder at_address_1 x) eqn:Ex; cbn [negb] in Hfs |- *.
    + erewrite bind_Ok.
      2:{ cbn beta iota.
          step_by ltac:(apply asdl_seq_GET_ok; unfold seq_of;
                        rewrite list_lookup_fmap, Hinner; reflexivity).
          step_by ltac:(apply asdl_seq_GET_ok; reflexivity).
          rewrite Ex. reflexivity. }
      apply IH; [lia|exact Hfs].
    + cbn [concat] in Hfs |- *. rewrite length_app in Hfs |- *.
      erewrite bind_Ok.
      2:{ cbn beta iota.
          step_by ltac:(apply asdl_seq_GET_ok; unfold seq_of;
                        rewrite list_lookup_fmap, Hinner; reflexivity).
          step_by ltac:(apply asdl_seq_GET_ok; reflexivity).
          rewrite Ex. apply copy_loop_all. cbn [length asdl_seq_LEN] in *. lia. }
      set (rest := concat (List.filter (kept_by_flatten at_address_1) (take n (drop (S i) ss)))) in *.
      cbn [asdl_seq_LEN cells default]. unfold id.
      rewrite IH.
      2:{ lia. }
      2:{ fold rest. rewrite !length_app, length_take, length_drop. cbn [length] in *. lia. }
      fold rest. f_equal. f_equal; [|cbn [length]; lia].
      assert (length (take idx fs) = idx) as Hidx
        by (rewrite length_take; cbn [length] in *; lia).
      rewrite (app_assoc (take idx fs) (x :: inner)).
      rewrite (take_app_length' (take idx fs ++ x :: inner))
        by (rewrite length_app, Hidx; reflexivity).
      rewrite <- !app_assoc. f_equal. cbn [app]. f_equal. f_equal. f_equal.
      change (take idx fs ++ x :: inner ++ drop (idx + length (x :: inner)) fs)
        with (take idx fs ++ (x :: inner) ++ drop (idx + length (x :: inner)) fs).
      rewrite (app_assoc (take idx fs) (x :: inner)).
      rewrite drop_app, (drop_ge (take idx fs ++ x :: inner))
        by (rewrite length_app, Hidx; cbn [length]; lia).
      rewrite drop_drop, length_app, Hidx. cbn [app length]. f_equal. lia.
Qed.

(** X10.  [seq_flatten] of a sequence of non-empty sequences is the
    concatenation, in order, of the inner sequences whose first cell is not
    the placeholder address 1; a sequence that begins with the placeholder
    is left out as a whole.  The size computed by [_get_flattened_seq_size]
    is the length of that concatenation, the copying loops fill the new
    sequence exactly, and the index they end with is that size, which is
    what the [assert] of [seq_flatten] states. *)
Theorem seq_flatten_concatenates (ss : list (list (option A))) (st : PyState)
    (Hne : forallb (fun inner => negb (length inner =? 0)%nat) ss = true) :
  let flat := concat (List.filter (kept_by_flatten at_address_1) ss) in
  seq_flatten at_address_1 (seq_of ss) st = Ok (Some flat) st
  /\ _get_flattened_seq_size at_address_1 (seq_of ss) st = Ok (length flat) st
  /\ seq_flatten_fill at_address_1 (seq_of ss) (_Py_asdl_seq_new (length flat)) st
     = Ok (flat, length flat) st.
Proof.
  intros flat.
  assert (asdl_seq_LEN (seq_of ss) = length ss) as Hlen
    by (unfold seq_of; simpl; apply length_map).
  assert (_get_flattened_seq_size at_address_1 (seq_of ss) st = Ok (length flat) st)
    as Hsize.
  { unfold _get_flattened_seq_size, for_loop. rewrite Hlen, Nat.sub_0_r.
    rewrite flattened_size_loop by (try assumption; lia).
    rewrite drop_0, (take_ge ss) by lia. reflexivity. }
  assert (seq_flatten_fill at_address_1 (seq_of ss) (_Py_asdl_seq_new (length flat)) st
          = Ok (flat, length flat) st) as Hfill.
  { unfold seq_flatten_fill, for_loop, _Py_asdl_seq_new. rewrite Hlen, Nat.sub_0_r.
    assert (concat (List.filter (kept_by_flatten at_address_1) (take (length ss) (drop 0 ss))) = flat) as Hflat
      by (rewrite drop_0, (take_ge ss) by lia; reflexivity).
    rewrite flatten_fill_loop;
      [|assumption|lia|rewrite Hflat, length_replicate; lia].
    rewrite Hflat, take_0, drop_replicate.
    replace (length flat - (0 + length flat))%nat with 0%nat by lia.
    simpl. rewrite app_nil_r. reflexivity. }
  split; [|split; assumption].
  unfold seq_flatten.
  step_by ltac:(exact Hsize). cbn zeta.
  step_by ltac:(exact Hfill). reflexivity.
Qed.
End FlattenProofs.

Lemma seq_flatten_concatenates_witness :
  let one := fun n : nat => (n =? 1)%nat in
  seq_flatten one (seq_of [[Some 5%nat; None]; [Some 1%nat; Some 7%nat]; [None]])
    Example.st0
  = Ok (Some [Some 5%nat; None; None]) Example.st0.
Proof.
  intros one.
  apply (seq_flatten_concatenates one
           [[Some 5%nat; None]; [Some 1%nat; Some 7%nat]; [None]] Example.st0).
  reflexivity.
Defined.
(** ** Loops over pairs *)

Lemma no_null_cells_pointees {A} (l : list (option A)) :
  no_null_cells (Some l) = true -> List.map Some (pointees (Some l)) = l.
Proof.
  unfold no_null_cells, pointees. cbn [cells default]. unfold id at 1 2.
  induction l as [|[x|] l IH]; intros Hl; [reflexivity| |discriminate].
  cbn in Hl |- *. f_equal. apply IH, Hl.
Qed.

Lemma deref_ok {A} (a : A) (st : PyState) : deref (Some a) st = Ok a st.
Proof. reflexivity. Qed.

(** The loop shared by [get_keys], [get_values], [_get_exprs], [_get_names]
    and [_get_defaults]: cell [i] of the new sequence gets a field of the
    pair in cell [i]. *)
Lemma project_loop {B C} (f : B -> option C) (lb : list B) (n i : nat)
    (dst : list (option C)) (st : PyState) :
  (i + n = length lb)%nat -> length dst = length lb ->
  for_loop_rec n i
    (fun i new_seq =>
       pair ← asdl_seq_GET (seq_of lb) i;
       pair ← deref pair;
       asdl_seq_SET new_seq i (f pair))
    dst st
  = Ok (take i dst ++ List.map f (drop i lb)) st.
Proof.
  revert i dst. induction n as [|n IH]; intros i dst Hn Hdst.
  - simpl. rewrite take_ge, drop_ge by lia. rewrite app_nil_r. reflexivity.
  - destruct (lookup_lt_is_Some_2 lb i) as [x Hx]; [lia|].
    cbn [for_loop_rec].
    erewrite bind_Ok.
    2:{ cbn beta.
        step_by ltac:(apply asdl_seq_GET_ok; rewrite list_lookup_fmap, Hx; reflexivity).
        step_by ltac:(apply deref_ok).
        apply asdl_seq_SET_ok. lia. }
    rewrite IH by (rewrite ?length_insert; lia).
    f_equal.
    rewrite (take_S_r _ _ _ (list_lookup_insert_eq dst i (f x) ltac:(lia))).
    rewrite (take_insert_ge dst) by lia. rewrite <- app_assoc. f_equal.
    rewrite (drop_S _ _ _ Hx). reflexivity.
Qed.

Lemma project_all {B C} (f : B -> option C) (s : asdl_seq_of B) (st : PyState) :
  no_null_cells s = true ->
  for_loop 0 (asdl_seq_LEN s)
    (fun i new_seq =>
       pair ← asdl_seq_GET s i;
       pair ← deref pair;
       asdl_seq_SET new_seq i (f pair))
    (_Py_asdl_seq_new (asdl_seq_LEN s)) st
  = Ok (List.map f (pointees s)) st.
Proof.
  intros Hs. destruct s as [l|]; [|reflexivity].
  pose proof (no_null_cells_pointees l Hs) as El.
  remember (pointees (Some l)) as lb eqn:Elb. clear Elb Hs. subst l.
  unfold for_loop, _Py_asdl_seq_new. simpl asdl_seq_LEN.
  rewrite length_map, Nat.sub_0_r.
  pose proof (project_loop f lb (length lb) 0 (replicate (length lb) None) st) as Hloop.
  unfold seq_of in Hloop. rewrite Hloop by (rewrite ?length_replicate; lia).
  rewrite take_0, drop_0. reflexivity.
Qed.

Lemma get_keys_map (s : asdl_seq_of KeyValuePair) (st : PyState) :
  no_null_cells s = true -> get_keys s st = Ok (Some (List.map kv_key (pointees s))) st.
Proof.
  intros Hs. unfold get_keys. cbn zeta.
  step_by ltac:(apply (project_all kv_key); exact Hs). reflexivity.
Qed.

Lemma get_values_map (s : asdl_seq_of KeyValuePair) (st : PyState) :
  no_null_cells s = true ->
  get_values s st = Ok (Some (List.map kv_value (pointees s))) st.
Proof.
  intros Hs. unfold get_values. cbn zeta.
  step_by ltac:(apply (project_all kv_value); exact Hs). reflexivity.
Qed.

(** X11.  Round trip of the dictionary pairs: when the pairs of a sequence
    were built by [key_value_pair] from the keys [ks] and the values [vs],
    [get_keys] gives back [ks] and [get_values] gives back [vs], in order,
    [NULL] keys (the [**] entries of a dict display) included.  Both
    results are sequences even when there is no pair: for a [NULL]
    sequence they are empty, not [NULL].  A [NULL] cell among the pairs is
    dereferenced. *)
Theorem get_keys_values_round_trip (ks vs : list expr_ty) (st : PyState)
    (Hlen : length ks = length vs) :
  let pairs := Some (zip_with key_value_pair ks vs) in
  get_keys pairs st = Ok (Some ks) st
  /\ get_values pairs st = Ok (Some vs) st
  /\ get_keys None st = Ok (Some []) st
  /\ get_values None st = Ok (Some []) st
  /\ get_keys (Some (zip_with key_value_pair ks vs ++ [None])) st
     = Abort UndefinedBehaviour.
Proof.
  intros pairs.
  assert (forall ks vs : list expr_ty,
            no_null_cells (Some (zip_with key_value_pair ks vs)) = true) as Hnn.
  { unfold no_null_cells. simpl. intros ks0.
    induction ks0 as [|k ks0 IH]; intros [|v vs0]; simpl; auto. }
  assert (forall ks vs : list expr_ty,
            pointees (Some (zip_with key_value_pair ks vs))
            = zip_with (fun k v => {| kv_key := k; kv_value := v |}) ks vs) as Hp.
  { unfold pointees. simpl. intros ks0.
    induction ks0 as [|k ks0 IH]; intros [|v vs0]; simpl; try reflexivity.
    now rewrite IH. }
  unfold pairs.
  split; [|split; [|split; [reflexivity|split; [reflexivity|]]]].
  - rewrite get_keys_map, Hp by apply Hnn. do 2 f_equal.
    clear Hnn Hp pairs. revert vs Hlen.
    induction ks as [|k ks IH]; intros [|v vs] Hlen; simpl in *; try lia; [reflexivity|].
    f_equal. apply IH. lia.
  - rewrite get_values_map, Hp by apply Hnn. do 2 f_equal.
    clear Hnn Hp pairs. revert vs Hlen.
    induction ks as [|k ks IH]; intros [|v vs] Hlen; simpl in *; try lia; [reflexivity|].
    f_equal. apply IH. lia.
  - unfold get_keys, for_loop, _Py_asdl_seq_new. cbn zeta.
    simpl asdl_seq_LEN. rewrite Nat.sub_0_r.
    set (l := zip_with key_value_pair ks vs).
    assert (forall n i (dst : list (option expr)),
              (i <= length l)%nat -> (i + n = S (length l))%nat ->
              length dst = S (length l) ->
              for_loop_rec n i
                (fun i new_seq =>
                   pair ← asdl_seq_GET (Some (l ++ [None])) i;
                   pair ← deref pair;
                   asdl_seq_SET new_seq i (kv_key pair))
                dst st = Abort UndefinedBehaviour) as Hloop.
    { induction n as [|n IH]; intros i dst Hi Hn Hdst; [lia|].
      cbn [for_loop_rec]. unfold mbind at 1, M_bind.
      destruct (Nat.eq_dec i (length l)) as [->|Hne].
      - unfold mbind at 1, M_bind. unfold asdl_seq_GET.
        rewrite lookup_app_r, Nat.sub_diag by lia. reflexivity.
      - destruct (lookup_lt_is_Some_2 l i) as [[x|] Hx]; [lia| |].
        + erewrite bind_Ok.
          2:{ apply asdl_seq_GET_ok. rewrite lookup_app_l by lia. exact Hx. }
          erewrite bind_Ok by apply deref_ok.
          rewrite asdl_seq_SET_ok by lia.
          apply IH; rewrite ?length_insert; lia.
        + erewrite bind_Ok.
          2:{ apply asdl_seq_GET_ok. rewrite lookup_app_l by lia. exact Hx. }
          reflexivity. }
    unfold mbind, M_bind. rewrite Hloop; [reflexivity|lia| |];
      rewrite ?length_replicate, !length_app; simpl; lia.
Qed.

Lemma get_keys_values_round_trip_witness :
  let k := Some (Constant (PyUnicode (str "a")) None Example.loc0) in
  let v := Some (Example.name_x) in
  get_keys (Some (zip_with key_value_pair [k; None] [v; v])) Example.st0
  = Ok (Some [k; None]) Example.st0.
Proof.
  intros k v.
  apply (get_keys_values_round_trip [k; None] [v; v] Example.st0). reflexivity.
Defined.
(** ** Counting dots *)

Section DotProofs.
Context `{LayoutKinds}.

Lemma seq_count_dots_loop_total (l : list Token) (n i : nat) (acc : Z) (st : PyState) :
  (i + n = length l)%nat ->
  seq_count_dots_loop n i (seq_of l) acc st
  = Ok (if forallb is_dot (drop i l) then acc + total_dots (drop i l) else -1) st.
Proof.
  revert i acc. induction n as [|n IH]; intros i acc Hn.
  - rewrite drop_ge by lia. simpl. rewrite Z.add_0_r. reflexivity.
  - destruct (lookup_lt_is_Some_2 l i) as [t Ht]; [lia|].
    cbn [seq_count_dots_loop].
    step_by ltac:(apply asdl_seq_GET_ok; unfold seq_of;
                  rewrite list_lookup_fmap, Ht; reflexivity).
    step_by ltac:(apply deref_ok).
    rewrite (drop_S _ _ _ Ht). cbn [forallb total_dots fold_right].
    unfold is_dot at 1, dot_weight at 1.
    destruct (t_type t =? ELLIPSIS).
    + rewrite IH by lia. cbn [orb andb].
      destruct (forallb _ _); [f_equal; unfold total_dots; lia|reflexivity].
    + destruct (t_type t =? DOT); cbn [orb andb]; [|reflexivity].
      rewrite IH by lia.
      destruct (forallb _ _); [f_equal; unfold total_dots; lia|reflexivity].
Qed.

Lemma total_dots_bounds (l : list Token) :
  Z.of_nat (length l) <= total_dots l <= 3 * Z.of_nat (length l).
Proof.
  induction l as [|t l IH]; [simpl; lia|].
  cbn [total_dots fold_right length]. fold (total_dots l).
  unfold dot_weight. destruct (t_type t =? ELLIPSIS); lia.
Qed.

(** X12.  [seq_count_dots] on a sequence of tokens: when every token is a
    dot or an ellipsis the result is the number of dots, three for each
    ellipsis and one for each dot, which lies between the length of the
    sequence and three times that length; as soon as one token is of another
    kind the result is -1, whatever was counted before it.  So the result is
    -1 exactly when such a token is there, and the empty and the [NULL]
    sequence give 0. *)
Theorem seq_count_dots_counts (l : list Token) (st : PyState) :
  seq_count_dots (seq_of l) st
  = Ok (if forallb is_dot l then total_dots l else -1) st
  /\ Z.of_nat (length l) <= total_dots l <= 3 * Z.of_nat (length l)
  /\ (forall r st', seq_count_dots (seq_of l) st = Ok r st' ->
                    r = -1 <-> forallb is_dot l = false)
  /\ seq_count_dots None st = Ok 0 st.
Proof.
  assert (seq_count_dots (seq_of l) st
          = Ok (if forallb is_dot l then total_dots l else -1) st) as Hrun.
  { unfold seq_count_dots. simpl asdl_seq_LEN. rewrite length_map.
    rewrite seq_count_dots_loop_total by lia. rewrite drop_0. reflexivity. }
  split; [exact Hrun|]. split; [apply total_dots_bounds|]. split; [|reflexivity].
  intros r st' Hr. rewrite Hrun in Hr. injection Hr as <- _.
  pose proof (total_dots_bounds l).
  destruct (forallb is_dot l); split; intros; try reflexivity; try discriminate; lia.
Qed.
End DotProofs.

(** ** Keyword arguments and starred expressions *)

Section StarredProofs.
Context {elt : Type}.

Lemma count_starred_loop (ks : list (KeywordOrStarred elt)) (n i acc : nat) (st : PyState) :
  (i + n = length ks)%nat ->
  for_loop_rec n i
    (fun i n =>
       k ← asdl_seq_GET (seq_of ks) i;
       k ← deref k;
       if ks_is_keyword k =? 0 then mret (S n) else mret n)
    acc st
  = Ok (acc + length (List.filter is_starred (drop i ks)))%nat st.
Proof.
  revert i acc. induction n as [|n IH]; intros i acc Hn.
  - rewrite drop_ge by lia. simpl. rewrite Nat.add_0_r. reflexivity.
  - destruct (lookup_lt_is_Some_2 ks i) as [k Hk]; [lia|].
    cbn [for_loop_rec]. rewrite (drop_S _ _ _ Hk). cbn [List.filter].
    unfold is_starred at 1.
    destruct (ks_is_keyword k =? 0) eqn:Ek.
    + erewrite bind_Ok.
      2:{ cbn beta.
          step_by ltac:(apply asdl_seq_GET_ok; unfold seq_of;
                        rewrite list_lookup_fmap, Hk; reflexivity).
          step_by ltac:(apply deref_ok). rewrite Ek. reflexivity. }
      rewrite IH by lia. f_equal. simpl. lia.
    + erewrite bind_Ok.
      2:{ cbn beta.
          step_by ltac:(apply asdl_seq_GET_ok; unfold seq_of;
                        rewrite list_lookup_fmap, Hk; reflexivity).
          step_by ltac:(apply deref_ok). rewrite Ek. reflexivity. }
      rewrite IH by lia. reflexivity.
Qed.

Lemma number_of_starred (ks : list (KeywordOrStarred elt)) (st : PyState) :
  _seq_number_of_starred_exprs (seq_of ks) st
  = Ok (length (List.filter is_starred ks)) st.
Proof.
  unfold _seq_number_of_starred_exprs, for_loop. simpl asdl_seq_LEN.
  rewrite length_map, Nat.sub_0_r, count_starred_loop by lia.
  rewrite drop_0. reflexivity.
Qed.

(** The selecting loop of [seq_extract_starred_exprs] and
    [seq_delete_starred_exprs]. *)
Lemma select_loop (test : KeywordOrStarred elt -> bool)
    (ks : list (KeywordOrStarred elt)) (n i idx : nat) (dst : list (option elt))
    (st : PyState) :
  (i + n = length ks)%nat ->
  (idx + length (List.filter test (drop i ks)) <= length dst)%nat ->
  for_loop_rec n i
    (fun i '(new_seq, idx) =>
       k ← asdl_seq_GET (seq_of ks) i;
       k ← deref k;
       if test k then
         new_seq ← asdl_seq_SET new_seq idx (ks_element k);
         mret (new_seq, S idx)
       else mret (new_seq, idx))
    (dst, idx) st
  = Ok (take idx dst ++ List.map ks_element (List.filter test (drop i ks))
        ++ drop (idx + length (List.filter test (drop i ks))) dst,
        (idx + length (List.filter test (drop i ks)))%nat) st.
Proof.
  revert i idx dst. induction n as [|n IH]; intros i idx dst Hn Hdst.
  - rewrite drop_ge by lia. simpl. rewrite Nat.add_0_r, take_drop. reflexivity.
  - destruct (lookup_lt_is_Some_2 ks i) as [k Hk]; [lia|].
    cbn [for_loop_rec]. rewrite (drop_S _ _ _ Hk) in Hdst |- *.
    cbn [List.filter] in Hdst |- *.
    destruct (test k) eqn:Ek.
    + cbn [length] in Hdst.
      erewrite bind_Ok.
      2:{ cbn beta iota.
          step_by ltac:(apply asdl_seq_GET_ok; unfold seq_of;
                        rewrite list_lookup_fmap, Hk; reflexivity).
          step_by ltac:(apply deref_ok). rewrite Ek.
          step_by ltac:(apply asdl_seq_SET_ok; lia). reflexivity. }
      rewrite IH by (rewrite ?length_insert; lia).
      f_equal. cbn [length List.map]. f_equal; [|lia].
      rewrite (take_S_r _ _ _ (list_lookup_insert_eq dst idx (ks_element k) ltac:(lia))).
      rewrite (take_insert_ge dst) by lia.
      rewrite (drop_insert_lt dst) by lia.
      rewrite <- app_assoc. cbn [app]. do 4 f_equal. lia.
    + erewrite bind_Ok.
      2:{ cbn beta iota.
          step_by ltac:(apply asdl_seq_GET_ok; unfold seq_of;
                        rewrite list_lookup_fmap, Hk; reflexivity).
          step_by ltac:(apply deref_ok). rewrite Ek. reflexivity. }
      apply IH; [lia|exact Hdst].
Qed.

Lemma filter_complement_length (ks : list (KeywordOrStarred elt)) :
  (length (List.filter is_starred ks) + length (List.filter is_keyword_entry ks)
   = length ks)%nat.
Proof.
  induction ks as [|k ks IH]; simpl; [reflexivity|].
  unfold is_starred at 1, is_keyword_entry at 1.
  destruct (ks_is_keyword k =? 0); simpl; lia.
Qed.

(** X13.  The two selections from the arguments of a call (no cell of the
    sequence being [NULL]): [seq_extract_starred_exprs] returns the elements
    of the entries that are not keywords, [seq_delete_starred_exprs] those of
    the keyword entries, each in the order of the input; a selection that
    would be empty is returned as [NULL].  Together they take every entry
    once: their lengths add up to the length of the input. *)
Theorem starred_and_keyword_entries_partition (ks : list (KeywordOrStarred elt))
    (st : PyState) :
  let starred := List.map ks_element (List.filter is_starred ks) in
  let keywords_ := List.map ks_element (List.filter is_keyword_entry ks) in
  seq_extract_starred_exprs (seq_of ks) st = Ok (null_if_empty starred) st
  /\ seq_delete_starred_exprs (seq_of ks) st = Ok (null_if_empty keywords_) st
  /\ (asdl_seq_LEN (null_if_empty starred) + asdl_seq_LEN (null_if_empty keywords_)
      = length ks)%nat.
Proof.
  intros starred keywords_.
  assert (asdl_seq_LEN (seq_of ks) = length ks) as Hlen
    by (unfold seq_of; simpl; apply length_map).
  split; [|split].
  - unfold seq_extract_starred_exprs.
    step_by ltac:(apply number_of_starred).
    unfold starred.
    destruct (List.filter is_starred ks) as [|k0 sel] eqn:Esel; [reflexivity|].
    cbn [length Nat.eqb]. cbn iota.
    unfold for_loop, _Py_asdl_seq_new. rewrite Hlen, Nat.sub_0_r.
    erewrite bind_Ok.
    2:{ apply (select_loop is_starred); [lia|].
        rewrite drop_0, Esel, length_replicate. simpl. lia. }
    rewrite drop_0, Esel. cbn beta iota. unfold mret, M_ret. f_equal.
    rewrite take_0, drop_replicate. cbn [length Nat.add Nat.sub].
    rewrite Nat.sub_diag. cbn [replicate app]. rewrite app_nil_r. reflexivity.
  - unfold seq_delete_starred_exprs. cbn zeta.
    step_by ltac:(apply number_of_starred).
    rewrite Hlen. pose proof (filter_complement_length ks) as Hc.
    replace (length ks - length (List.filter is_starred ks))%nat
      with (length (List.filter is_keyword_entry ks)) by lia.
    unfold keywords_.
    destruct (List.filter is_keyword_entry ks) as [|k0 sel] eqn:Esel; [reflexivity|].
    cbn [length Nat.eqb]. cbn iota.
    unfold for_loop, _Py_asdl_seq_new. rewrite Nat.sub_0_r.
    erewrite bind_Ok.
    2:{ apply (select_loop is_keyword_entry); [lia|].
        rewrite drop_0, Esel, length_replicate. simpl. lia. }
    rewrite drop_0, Esel. cbn beta iota. unfold mret, M_ret. f_equal.
    rewrite take_0, drop_replicate. cbn [length Nat.add Nat.sub].
    rewrite Nat.sub_diag. cbn [replicate app]. rewrite app_nil_r. reflexivity.
  - pose proof (filter_complement_length ks) as Hc.
    unfold starred, keywords_.
    destruct (List.filter is_starred ks), (List.filter is_keyword_entry ks);
      simpl in *; rewrite ?length_map; lia.
Qed.
End StarredProofs.
(** ** Argument lists *)

Section ArgumentProofs.
Context {arg : Type}.

Lemma get_names_map (s : asdl_seq_of (NameDefaultPair arg)) (st : PyState) :
  no_null_cells s = true ->
  _get_names s st = Ok (Some (List.map nd_arg (pointees s))) st.
Proof.
  intros Hs. unfold _get_names. cbn zeta.
  step_by ltac:(apply (project_all nd_arg); exact Hs). reflexivity.
Qed.

Lemma get_defaults_map (s : asdl_seq_of (NameDefaultPair arg)) (st : PyState) :
  no_null_cells s = true ->
  _get_defaults s st = Ok (Some (List.map nd_value (pointees s))) st.
Proof.
  intros Hs. unfold _get_defaults. cbn zeta.
  step_by ltac:(apply (project_all nd_value); exact Hs). reflexivity.
Qed.

(** X14.  The fields of the node that [make_arguments] builds, for pair
    sequences without [NULL] cells; a [NULL] sequence counts as empty.
    The positional-only parameters are [slash_without_default] when that is
    given, else the plain names of [slash_with_default] followed by the
    names of its pairs.  The positional parameters are the plain names
    followed by the names of [names_with_default].  The positional defaults
    are the defaults of [slash_with_default] followed by those of
    [names_with_default], also when [slash_without_default] supplied the
    names.  The keyword-only parameters and their defaults come from the
    same pairs of [star_etc], so the two sequences have the same length.
    All five sequences are non-[NULL], and with five [NULL] arguments the
    node is that of [empty_arguments]. *)
Theorem make_arguments_fields (slash_without_default : asdl_seq_of arg)
    (swd : option (SlashWithDefault arg)) (plain_names : asdl_seq_of arg)
    (names_with_default : asdl_seq_of (NameDefaultPair arg))
    (se : option (StarEtc arg)) (st : PyState)
    (Hswd : no_null_cells (slash_pairs swd) = true)
    (Hnwd : no_null_cells names_with_default = true)
    (Hse : no_null_cells (kwonly_pairs se) = true) :
  exists a,
    make_arguments slash_without_default swd plain_names names_with_default se st
    = Ok (Some a) st
    /\ posonlyargs a
       = Some (match slash_without_default, swd with
               | Some l, _ => l
               | None, Some s =>
                   cells (sd_plain_names s)
                   ++ List.map nd_arg (pointees (sd_names_with_defaults s))
               | None, None => []
               end)
    /\ args a = Some (cells plain_names ++ List.map nd_arg (pointees names_with_default))
    /\ defaults a
       = Some (List.map nd_value (pointees (slash_pairs swd))
               ++ List.map nd_value (pointees names_with_default))
    /\ kwonlyargs a = Some (List.map nd_arg (pointees (kwonly_pairs se)))
    /\ kw_defaults a = Some (List.map nd_value (pointees (kwonly_pairs se)))
    /\ asdl_seq_LEN (kwonlyargs a) = asdl_seq_LEN (kw_defaults a)
    /\ vararg a = match se with Some s => se_vararg s | None => None end
    /\ kwarg a = match se with Some s => se_kwarg s | None => None end
    /\ @make_arguments arg None None None None None st = empty_arguments st.
Proof.
  unfold make_arguments.
  set (po := match slash_without_default, swd with
             | Some l, _ => l
             | None, Some s =>
                 cells (sd_plain_names s)
                 ++ List.map nd_arg (pointees (sd_names_with_defaults s))
             | None, None => []
             end).
  erewrite (bind_Ok _ _ (Some po)).
  2:{ unfold po. destruct slash_without_default as [l|]; [reflexivity|].
      destruct swd as [s|]; [|reflexivity].
      step_by ltac:(apply get_names_map; exact Hswd).
      rewrite join_seqs_app. reflexivity. }
  erewrite (bind_Ok _ _ (Some (cells plain_names
                               ++ List.map nd_arg (pointees names_with_default)))).
  2:{ destruct plain_names as [pl|], names_with_default as [nw|].
      - step_by ltac:(apply get_names_map; exact Hnwd).
        rewrite join_seqs_app. reflexivity.
      - simpl. rewrite app_nil_r. reflexivity.
      - rewrite get_names_map by exact Hnwd. reflexivity.
      - reflexivity. }
  erewrite (bind_Ok _ _ (Some (List.map nd_value (pointees (slash_pairs swd))
                               ++ List.map nd_value (pointees names_with_default)))).
  2:{ destruct swd as [s|], names_with_default as [nw|].
      - step_by ltac:(apply get_defaults_map; exact Hswd).
        step_by ltac:(apply get_defaults_map; exact Hnwd).
        rewrite join_seqs_app. reflexivity.
      - rewrite get_defaults_map by exact Hswd. simpl. rewrite app_nil_r. reflexivity.
      - rewrite get_defaults_map by exact Hnwd. reflexivity.
      - reflexivity. }
  cbn zeta.
  erewrite (bind_Ok _ _ (Some (List.map nd_arg (pointees (kwonly_pairs se))))).
  2:{ destruct se as [[va [kw|] ka]|]; try reflexivity.
      apply get_names_map. exact Hse. }
  erewrite (bind_Ok _ _ (Some (List.map nd_value (pointees (kwonly_pairs se))))).
  2:{ destruct se as [[va [kw|] ka]|]; try reflexivity.
      apply get_defaults_map. exact Hse. }
  eexists. split; [reflexivity|]. simpl.
  repeat split; try reflexivity.
  rewrite !length_map. reflexivity.
Qed.
End ArgumentProofs.

Lemma make_arguments_fields_witness :
  let pair (n : nat) (d : expr_ty) : option (NameDefaultPair nat) :=
    name_default_pair (Some n) d in
  let swd := slash_with_default (Some [Some 1%nat]) (Some [pair 2%nat (Some Example.name_x)]) in
  let se := star_etc None (Some [pair 5%nat None]) (Some 6%nat) in
  exists a,
    make_arguments None swd (Some [Some 3%nat]) (Some [pair 4%nat (Some Example.name_x)]) se
      Example.st0 = Ok (Some a) Example.st0
    /\ posonlyargs a = Some [Some 1%nat; Some 2%nat]
    /\ args a = Some [Some 3%nat; Some 4%nat]
    /\ defaults a = Some [Some Example.name_x; Some Example.name_x]
    /\ kwonlyargs a = Some [Some 5%nat]
    /\ kw_defaults a = Some [None].
Proof.
  intros pair swd se.
  destruct (make_arguments_fields None swd (Some [Some 3%nat])
              (Some [pair 4%nat (Some Example.name_x)]) se Example.st0)
    as (a & Hrun & Hpo & Hargs & Hdef & Hkw & Hkd & _);
    [reflexivity|reflexivity|reflexivity|].
  exists a. repeat split; assumption.
Defined.

(** ** Comparisons *)

Lemma cmpops_loop (ps : list CmpopExprPair) (n i : nat) (dst : list Z) (st : PyState) :
  (i + n = length ps)%nat -> length dst = length ps ->
  for_loop_rec n i
    (fun i new_seq =>
       pair ← asdl_seq_GET (seq_of ps) i;
       pair ← deref pair;
       if (i <? length new_seq)%nat then mret (<[i := cmpop pair]> new_seq)
       else undefined)
    dst st
  = Ok (take i dst ++ List.map cmpop (drop i ps)) st.
Proof.
  revert i dst. induction n as [|n IH]; intros i dst Hn Hdst.
  - simpl. rewrite take_ge, drop_ge by lia. rewrite app_nil_r. reflexivity.
  - destruct (lookup_lt_is_Some_2 ps i) as [x Hx]; [lia|].
    cbn [for_loop_rec].
    erewrite bind_Ok.
    2:{ cbn beta.
        step_by ltac:(apply asdl_seq_GET_ok; unfold seq_of;
                      rewrite list_lookup_fmap, Hx; reflexivity).
        step_by ltac:(apply deref_ok).
        assert ((i <? length dst)%nat = true) as -> by (apply Nat.ltb_lt; lia).
        reflexivity. }
    rewrite IH by (rewrite ?length_insert; lia).
    f_equal.
    rewrite (take_S_r _ _ _ (list_lookup_insert_eq dst i (cmpop x) ltac:(lia))).
    rewrite (take_insert_ge dst) by lia. rewrite <- app_assoc. f_equal.
    rewrite (drop_S _ _ _ Hx). reflexivity.
Qed.

Lemma seq_of_no_null {A} (l : list A) :
  no_null_cells (seq_of l) = true /\ pointees (seq_of l) = l.
Proof.
  unfold no_null_cells, pointees, seq_of. simpl.
  induction l as [|x l [IH1 IH2]]; [split; reflexivity|].
  split; [exact IH1|]. cbn. f_equal. exact IH2.
Qed.

(** X15.  [Pegen_Compare] on an expression and a sequence of pairs that
    ends with a pair holding an expression: the node has the expression as
    its left operand, the operators and the comparators of the pairs in
    order, as many operators as comparators, and the span from the start of
    the left operand to the end of the last comparator.  With no pair (an
    empty or a [NULL] sequence) the function reads the expression of a
    [NULL] pair: there is no result. *)
Theorem Pegen_Compare_builds (e last_e : expr) (ps : list CmpopExprPair) (op : Z)
    (left_ : expr_ty) (st : PyState) :
  let pairs := ps ++ [{| cmpop := op; cmp_expr := Some last_e |}] in
  Pegen_Compare (Some e) (seq_of pairs) st
  = Ok (Some {| cmp_left := e;
                cmp_ops := Some (List.map cmpop pairs);
                cmp_comparators := Some (List.map cmp_expr pairs);
                cmp_loc := span (expr_loc e) (expr_loc last_e) |}) st
  /\ length (List.map cmpop pairs) = length (List.map cmp_expr pairs)
  /\ Pegen_Compare left_ (Some []) st = Abort UndefinedBehaviour
  /\ Pegen_Compare left_ None st = Abort UndefinedBehaviour.
Proof.
  intros pairs.
  split; [|split; [now rewrite !length_map|split; reflexivity]].
  destruct (seq_of_no_null pairs) as [Hnn Hp].
  unfold Pegen_Compare.
  erewrite (bind_Ok _ _ (Some (List.map cmpop pairs))).
  2:{ unfold _get_cmpops, for_loop. cbn zeta. simpl asdl_seq_LEN.
      rewrite length_map, Nat.sub_0_r.
      step_by ltac:(apply cmpops_loop; rewrite ?length_replicate; lia).
      rewrite take_0, drop_0. reflexivity. }
  erewrite (bind_Ok _ _ (Some (List.map cmp_expr pairs))).
  2:{ unfold _get_exprs. cbn zeta.
      step_by ltac:(apply (project_all cmp_expr); exact Hnn).
      rewrite Hp. reflexivity. }
  step_by ltac:(apply seq_get_tail_last).
  unfold seq_of, pairs. cbn [cells default]. unfold id.
  rewrite (map_app Some). cbn [List.map]. rewrite last_snoc. reflexivity.
Qed.

(** ** Dotted names *)

Lemma c_string_no_nul (s : list ascii) :
  forallb (fun c => negb (Ascii.eqb c NUL)) s = true -> c_string s = s.
Proof.
  induction s as [|c s IH]; [reflexivity|].
  cbn [forallb c_string]. intros Hs. apply andb_true_iff in Hs.
  destruct Hs as [Hc Hs]. apply negb_true_iff in Hc. rewrite Hc, IH by exact Hs.
  reflexivity.
Qed.

(** X16.  [join_names_with_dot] on two [Name] nodes whose identifiers hold
    no NUL, when the decoder accepts the joined text: the result is a
    [Name] in [Load] context, whatever the contexts of the two nodes were,
    whose identifier is the first, a dot, the second, and whose span runs
    from the start of the first node to the end of the second.  Joining is
    associative: for three names, joining the first two and then the third
    gives the same node as joining the first with the join of the other
    two. *)
Theorem join_names_with_dot_associative `{Collaborators} (a b c : identifier)
    (ca cb cc : expr_context_ty) (la lb lc : location) (st : PyState)
    (Ha : forallb (fun x => negb (Ascii.eqb x NUL)) a = true)
    (Hb : forallb (fun x => negb (Ascii.eqb x NUL)) b = true)
    (Hc : forallb (fun x => negb (Ascii.eqb x NUL)) c = true)
    (Hab : PyUnicode_DecodeUTF8 (a ++ "."%char :: b) = Some (a ++ "."%char :: b))
    (Hbc : PyUnicode_DecodeUTF8 (b ++ "."%char :: c) = Some (b ++ "."%char :: c))
    (Habc : PyUnicode_DecodeUTF8 (a ++ "."%char :: b ++ "."%char :: c)
            = Some (a ++ "."%char :: b ++ "."%char :: c)) :
  let na := Some (Name a ca la) in
  let nb := Some (Name b cb lb) in
  let nc := Some (Name c cc lc) in
  join_names_with_dot na nb st
  = Ok (Some (Name (a ++ "."%char :: b) Load (span la lb))) st
  /\ (ab ← join_names_with_dot na nb; join_names_with_dot ab nc) st
     = Ok (Some (Name (a ++ "."%char :: b ++ "."%char :: c) Load (span la lc))) st
  /\ (bc ← join_names_with_dot nb nc; join_names_with_dot na bc) st
     = Ok (Some (Name (a ++ "."%char :: b ++ "."%char :: c) Load (span la lc))) st.
Proof.
  intros na nb nc.
  assert (forall x y cx cy lx ly,
            forallb (fun k => negb (Ascii.eqb k NUL)) x = true ->
            forallb (fun k => negb (Ascii.eqb k NUL)) y = true ->
            PyUnicode_DecodeUTF8 (x ++ "."%char :: y) = Some (x ++ "."%char :: y) ->
            join_names_with_dot (Some (Name x cx lx)) (Some (Name y cy ly)) st
            = Ok (Some (Name (x ++ "."%char :: y) Load (span lx ly))) st) as Hjoin.
  { intros x y cx cy lx ly Hx Hy Hxy. unfold join_names_with_dot.
    step_by ltac:(apply deref_ok). step_by ltac:(apply deref_ok).
    cbn zeta. rewrite !c_string_no_nul, Hxy by assumption. reflexivity. }
  subst na nb nc.
  split; [apply Hjoin; assumption|]. split.
  - step_by ltac:(apply Hjoin; assumption).
    rewrite Hjoin; try assumption.
    + rewrite <- app_assoc. reflexivity.
    + rewrite forallb_app. simpl. rewrite Ha, Hb. reflexivity.
    + rewrite <- app_assoc. simpl. exact Habc.
  - step_by ltac:(apply Hjoin; assumption).
    rewrite Hjoin; try assumption; try reflexivity.
    rewrite forallb_app. simpl. rewrite Hb, Hc. reflexivity.
Qed.

Lemma join_names_with_dot_associative_witness :
  let n (s : list ascii) := Some (Name s Store Example.loc0) in
  (ab ← join_names_with_dot (n (str "os")) (n (str "path"));
   join_names_with_dot ab (n (str "sep"))) Example.st0
  = Ok (Some (Name (str "os.path.sep") Load (span Example.loc0 Example.loc0))) Example.st0.
Proof.
  intros n.
  apply (join_names_with_dot_associative (str "os") (str "path") (str "sep")
           Store Store Store Example.loc0 Example.loc0 Example.loc0 Example.st0);
    reflexivity.
Defined.
(** ** The expression list and its buffers *)

Lemma read_cell_ok (buf : list (option expr_ty)) (i : nat) (e : expr_ty) (st : PyState) :
  buf !! i = Some (Some e) -> Buffer.read_cell buf (Z.of_nat i) st = Ok e st.
Proof.
  intros E. unfold Buffer.read_cell.
  assert ((Z.of_nat i <? 0) = false) as -> by (apply Z.ltb_ge; lia).
  rewrite Nat2Z.id, E. reflexivity.
Qed.

Lemma write_cell_ok (buf : list (option expr_ty)) (i : nat) (e : expr_ty) (st : PyState) :
  (i < length buf)%nat ->
  Buffer.write_cell buf (Z.of_nat i) e st = Ok (<[i := Some e]> buf) st.
Proof.
  intros E. unfold Buffer.write_cell.
  assert ((0 <=? Z.of_nat i) && (Z.of_nat i <? Z.of_nat (length buf)) = true) as ->.
  { apply andb_true_iff. split; [apply Z.leb_le|apply Z.ltb_lt]; lia. }
  rewrite Nat2Z.id. reflexivity.
Qed.

Lemma take_map_lookup (buf : list (option expr_ty)) (es : list expr_ty) (i : nat)
    (e : expr_ty) :
  take (length es) buf = List.map Some es -> es !! i = Some e -> buf !! i = Some (Some e).
Proof.
  intros Htake He.
  assert (i < length es)%nat as Hi by (eapply lookup_lt_Some; exact He).
  rewrite <- (lookup_take_lt buf (length es) i Hi), Htake.
  rewrite list_lookup_fmap, He. reflexivity.
Qed.

Lemma take_insert_snoc (buf : list (option expr_ty)) (es : list expr_ty) (e : expr_ty) :
  take (length es) buf = List.map Some es -> (length es < length buf)%nat ->
  take (length (es ++ [e])) (<[length es := Some e]> buf) = List.map Some (es ++ [e]).
Proof.
  intros Htake Hlen. rewrite length_app. simpl. rewrite Nat.add_1_r.
  rewrite (take_S_r _ _ (Some e)) by (apply list_lookup_insert_eq; exact Hlen).
  rewrite (take_insert_ge buf) by lia. rewrite Htake, map_app. reflexivity.
Qed.

(** The loop that copies the cells inside the struct to the new block. *)
Lemma copy_cells_loop (data : list (option expr_ty)) (es : list expr_ty) (n i : nat)
    (block : list (option expr_ty)) (st : PyState) :
  take (length es) data = List.map Some es ->
  (i + n = length es)%nat -> (length es <= length block)%nat ->
  for_loop_rec n i
    (fun i block =>
       e ← Buffer.read_cell data (Z.of_nat i);
       Buffer.write_cell block (Z.of_nat i) e)
    block st
  = Ok (take i block ++ List.map Some (drop i es) ++ drop (length es) block) st.
Proof.
  intros Hdata. revert i block. induction n as [|n IH]; intros i block Hn Hblock.
  - rewrite (drop_ge es) by lia. simpl. replace i with (length es) by lia.
    rewrite take_drop. reflexivity.
  - destruct (lookup_lt_is_Some_2 es i) as [e He]; [lia|].
    cbn [for_loop_rec].
    erewrite bind_Ok.
    2:{ cbn beta.
        step_by ltac:(apply read_cell_ok; eapply take_map_lookup; eassumption).
        apply write_cell_ok. lia. }
    rewrite IH by (rewrite ?length_insert; lia).
    f_equal.
    rewrite (take_S_r _ _ (Some e)) by (apply list_lookup_insert_eq; lia).
    rewrite (take_insert_ge block) by lia.
    rewrite (drop_insert_lt block) by lia.
    rewrite <- app_assoc. f_equal. rewrite (drop_S _ _ _ He). reflexivity.
Qed.

Lemma store_next_ok (l : ExprList) (es : list expr_ty) (e : expr_ty) (st : PyState)
    (buf : list (option expr_ty)) :
  Buffer.cells_at l = Some buf ->
  el_size l = Z.of_nat (length es) -> (length es < length buf)%nat ->
  exists l',
    Buffer.store_next l e st = Ok (0, l') st
    /\ el_p l' = el_p l /\ el_allocated l' = el_allocated l
    /\ el_size l' = el_size l + 1
    /\ Buffer.cells_at l' = Some (<[length es := Some e]> buf)
    /\ (el_p l = PtrBlock -> el_data l' = el_data l).
Proof.
  intros Hbuf Hsize Hlen. unfold Buffer.store_next, Buffer.cells_at in *.
  rewrite Hsize.
  destruct (el_p l) eqn:Ep; [| |discriminate]; injection Hbuf as Hbuf; rewrite Hbuf.
  - erewrite bind_Ok by (apply write_cell_ok; exact Hlen).
    eexists. split; [reflexivity|]. simpl.
    repeat split; try reflexivity; try discriminate; lia.
  - erewrite bind_Ok by (apply write_cell_ok; exact Hlen).
    eexists. split; [reflexivity|]. simpl.
    repeat split; try reflexivity; try discriminate; lia.
Qed.

Lemma append_holds (l : ExprList) (es : list expr_ty) (e : expr_ty) (st : PyState) :
  buffer_holds l es ->
  exists l', Buffer.ExprList_Append true l e st = Ok (0, l') st
             /\ buffer_holds l' (es ++ [e]).
Proof.
  unfold buffer_holds, EXPRLIST_N_CACHED.
  intros (Hsize & Hle & [k Hk] & Hcase).
  unfold Buffer.ExprList_Append.
  assert (length (es ++ [e]) = S (length es)) as Hlen'
    by (rewrite length_app; simpl; lia).
  destruct (el_allocated l <=? el_size l) eqn:Efull.
  - (* the cells are used up *)
    apply Z.leb_le in Efull.
    destruct Hcase as [(Hp & Hall & Hdata & Htake)|(Hp & Hbig & Hblock & Htake)];
      rewrite Hp; cbn [negb].
    + (* from the struct to a block *)
      cbn zeta.
      erewrite bind_Ok.
      2:{ rewrite Hsize, Nat2Z.id. unfold for_loop. rewrite Nat.sub_0_r.
          apply (copy_cells_loop (el_data l) es); [exact Htake|lia|].
          rewrite length_replicate. lia. }
      rewrite take_0, drop_0, drop_replicate. cbn [app].
      edestruct (store_next_ok
                   {| el_allocated := el_allocated l * 2; el_size := el_size l;
                      el_p := PtrBlock; el_data := el_data l;
                      el_block := List.map Some es
                                  ++ replicate (Z.to_nat (el_allocated l * 2) - length es) None |}
                   es e st
                   (List.map Some es
                    ++ replicate (Z.to_nat (el_allocated l * 2) - length es) None))
        as (l' & Hrun & Hp' & Hall' & Hsize' & Hcells' & _);
        [reflexivity|exact Hsize|rewrite length_app, length_map, length_replicate; lia|].
      exists l'. split; [exact Hrun|].
      simpl in Hp', Hall', Hsize'. unfold Buffer.cells_at in Hcells'. rewrite Hp' in Hcells'.
      injection Hcells' as Hcells'.
      split; [lia|]. split; [lia|]. split; [exists (S k); rewrite Hall', Hk, Nat2Z.inj_succ, Z.pow_succ_r by lia; lia|].
      right. split; [exact Hp'|]. split; [lia|].
      rewrite Hcells'. split.
      * rewrite length_insert, length_app, length_map, length_replicate. lia.
      * apply take_insert_snoc.
        -- rewrite take_app_length' by (rewrite length_map; reflexivity). reflexivity.
        -- rewrite length_app, length_map, length_replicate. lia.
    + (* a larger block *)
      cbn zeta. unfold Buffer.cells_at at 1 2. rewrite Hp. cbn [default]. unfold id.
      edestruct (store_next_ok
                   {| el_allocated := el_allocated l * 2; el_size := el_size l;
                      el_p := PtrBlock; el_data := el_data l;
                      el_block := take (Z.to_nat (el_allocated l * 2)) (el_block l)
                                  ++ replicate (Z.to_nat (el_allocated l * 2)
                                                - length (el_block l)) None |}
                   es e st
                   (take (Z.to_nat (el_allocated l * 2)) (el_block l)
                    ++ replicate (Z.to_nat (el_allocated l * 2)
                                  - length (el_block l)) None))
        as (l' & Hrun & Hp' & Hall' & Hsize' & Hcells' & _);
        [reflexivity|exact Hsize
        |rewrite length_app, length_take, length_replicate; lia|].
      exists l'. split; [exact Hrun|].
      simpl in Hp', Hall', Hsize'. unfold Buffer.cells_at in Hcells'. rewrite Hp' in Hcells'.
      injection Hcells' as Hcells'.
      split; [lia|]. split; [lia|]. split; [exists (S k); rewrite Hall', Hk, Nat2Z.inj_succ, Z.pow_succ_r by lia; lia|].
      right. split; [exact Hp'|]. split; [lia|].
      rewrite Hcells'. split.
      * rewrite length_insert, length_app, length_take, length_replicate. lia.
      * apply take_insert_snoc.
        -- rewrite (take_ge (el_block l)) by lia.
           rewrite take_app_le by lia. exact Htake.
        -- rewrite length_app, length_take, length_replicate. lia.
  - (* room is left *)
    apply Z.leb_gt in Efull.
    destruct Hcase as [(Hp & Hall & Hdata & Htake)|(Hp & Hbig & Hblock & Htake)].
    + edestruct (store_next_ok l es e st (el_data l))
        as (l' & Hrun & Hp' & Hall' & Hsize' & Hcells' & _);
        [unfold Buffer.cells_at; rewrite Hp; reflexivity|exact Hsize|lia|].
      exists l'. split; [exact Hrun|].
      unfold Buffer.cells_at in Hcells'. rewrite Hp', Hp in Hcells'.
      injection Hcells' as Hcells'.
      split; [lia|]. split; [lia|]. split; [exists k; lia|].
      left. split; [congruence|]. split; [lia|].
      rewrite Hcells'. split; [rewrite length_insert; lia|].
      apply take_insert_snoc; [exact Htake|lia].
    + edestruct (store_next_ok l es e st (el_block l))
        as (l' & Hrun & Hp' & Hall' & Hsize' & Hcells' & _);
        [unfold Buffer.cells_at; rewrite Hp; reflexivity|exact Hsize|lia|].
      exists l'. split; [exact Hrun|].
      unfold Buffer.cells_at in Hcells'. rewrite Hp', Hp in Hcells'.
      injection Hcells' as Hcells'.
      split; [lia|]. split; [lia|]. split; [exists k; lia|].
      right. split; [congruence|]. split; [lia|].
      rewrite Hcells'. split; [rewrite length_insert; lia|].
      apply take_insert_snoc; [exact Htake|lia].
Qed.

Lemma append_all_holds (es0 es : list expr_ty) (l : ExprList) (st : PyState) :
  buffer_holds l es0 ->
  exists l', Buffer.append_all es l st = Ok (0, l') st /\ buffer_holds l' (es0 ++ es).
Proof.
  revert es0 l. induction es as [|e es IH]; intros es0 l Hl.
  - exists l. rewrite app_nil_r. split; [reflexivity|exact Hl].
  - destruct (append_holds l es0 e st Hl) as (l1 & Hrun & Hl1).
    destruct (IH (es0 ++ [e]) l1 Hl1) as (l' & Hrun' & Hl').
    exists l'. rewrite <- app_assoc in Hl'. split; [|exact Hl'].
    cbn [Buffer.append_all]. erewrite bind_Ok by exact Hrun. exact Hrun'.
Qed.

Lemma finish_loop (l : ExprList) (buf : list (option expr_ty)) (es : list expr_ty)
    (n i : nat) (seq : list (option expr)) (st : PyState) :
  Buffer.cells_at l = Some buf ->
  take (length es) buf = List.map Some es ->
  (i + n = length es)%nat -> length seq = length es ->
  for_loop_rec n i
    (fun i seq =>
       buf ← deref (Buffer.cells_at l);
       e ← Buffer.read_cell buf (Z.of_nat i);
       asdl_seq_SET seq i e)
    seq st
  = Ok (take i seq ++ drop i es) st.
Proof.
  intros Hbuf Htake. unfold expr_ty in *.
  revert i seq. induction n as [|n IH]; intros i seq Hn Hseq.
  - rewrite (drop_ge es), (take_ge seq) by lia. rewrite app_nil_r. reflexivity.
  - destruct (lookup_lt_is_Some_2 es i) as [e He]; [lia|].
    cbn [for_loop_rec].
    erewrite bind_Ok.
    2:{ cbn beta. rewrite Hbuf.
        step_by ltac:(apply deref_ok).
        step_by ltac:(apply read_cell_ok; eapply take_map_lookup; eassumption).
        apply asdl_seq_SET_ok. lia. }
    rewrite IH by (rewrite ?length_insert; lia).
    f_equal.
    rewrite (take_S_r _ _ e) by (apply list_lookup_insert_eq; lia).
    rewrite (take_insert_ge seq) by lia. rewrite <- app_assoc. f_equal.
    rewrite (drop_S _ _ _ He). reflexivity.
Qed.

(** X17.  The array behind the expression list.  Whatever expressions are
    appended to a fresh list, with every allocation succeeding, each
    [ExprList_Append] returns 0 without touching the error indicator, no
    cell is read before it was written and none is written outside its
    array, and [ExprList_Finish] returns exactly the appended expressions
    in their order: the list [ExprList_Append] of the assembler.  The
    conditions of [ExprList_check_invariants] hold for the result; the size
    is the number of expressions and never exceeds [allocated], which is
    64 doubled some number of times; the cells inside the struct are in use
    exactly as long as there are at most 64 expressions. *)
Theorem ExprList_holds_what_was_appended (es : list expr_ty) (st : PyState) :
  exists l,
    Buffer.append_all es Buffer.ExprList_Init st = Ok (0, l) st
    /\ Buffer.ExprList_check_invariants l = true
    /\ el_size l = Z.of_nat (length es)
    /\ el_size l <= el_allocated l
    /\ (exists k : nat, el_allocated l = 64 * 2 ^ Z.of_nat k)
    /\ (el_p l = PtrData <-> (length es <= 64)%nat)
    /\ Buffer.ExprList_Finish l st = Ok (Some es, Buffer.ExprList_Dealloc l) st
    /\ fold_left ExprList_Append es [] = es.
Proof.
  assert (buffer_holds Buffer.ExprList_Init []) as Hinit.
  { unfold buffer_holds. simpl. split; [reflexivity|]. split; [unfold EXPRLIST_N_CACHED; lia|].
    split; [exists 0%nat; reflexivity|]. left. repeat split. }
  destruct (append_all_holds [] es Buffer.ExprList_Init st Hinit) as (l & Hrun & Hl).
  simpl in Hl. exists l. split; [exact Hrun|].
  unfold buffer_holds, EXPRLIST_N_CACHED in Hl.
  destruct Hl as (Hsize & Hle & Hk & Hcase).
  split.
  { unfold Buffer.ExprList_check_invariants, EXPRLIST_N_CACHED.
    destruct Hcase as [(Hp & _)|(Hp & Hbig & _)]; rewrite Hp.
    - assert ((0 <=? el_size l) = true) as -> by (apply Z.leb_le; lia).
      destruct (el_size l <=? 64); reflexivity.
    - assert ((0 <=? el_size l) = true) as -> by (apply Z.leb_le; lia).
      assert ((el_size l <=? 64) = false) as -> by (apply Z.leb_gt; lia).
      reflexivity. }
  split; [exact Hsize|]. split; [exact Hle|]. split; [exact Hk|].
  split.
  { destruct Hcase as [(Hp & Hall & _)|(Hp & Hbig & _)]; rewrite Hp; split;
      intros; try reflexivity; try discriminate; lia. }
  split.
  - assert (exists buf, Buffer.cells_at l = Some buf
                        /\ take (length es) buf = List.map Some es) as (buf & Hbuf & Htake).
    { unfold Buffer.cells_at.
      destruct Hcase as [(Hp & _ & _ & Ht)|(Hp & _ & _ & Ht)]; rewrite Hp; eauto. }
    unfold Buffer.ExprList_Finish, for_loop, _Py_asdl_seq_new. cbn zeta.
    rewrite Hsize, Nat2Z.id, Nat.sub_0_r.
    erewrite bind_Ok.
    2:{ apply (finish_loop l buf es); try assumption; try lia.
        apply length_replicate. }
    rewrite take_0, drop_0. reflexivity.
  - assert (forall acc : list expr_ty, fold_left ExprList_Append es acc = acc ++ es)
      as Hfold.
    { clear. induction es as [|e es IH]; intros acc; simpl; [now rewrite app_nil_r|].
      rewrite IH. unfold ExprList_Append. rewrite <- app_assoc. reflexivity. }
    apply (Hfold []).
Qed.

(** X18.  [ExprList_Append] when the allocator has no memory, on a list
    that holds what was appended to it.  As long as a cell is free the
    allocator is not asked and the expression is stored.  When the cells are
    used up the call returns -1 and sets no exception (the raw allocator
    sets none); [el_p] is [NULL] then, so the conditions of
    [ExprList_check_invariants] no longer hold, and [ExprList_Finish] on
    that list would read through the [NULL] pointer. *)
Theorem ExprList_Append_without_memory (l : ExprList) (es : list expr_ty) (e : expr_ty)
    (st : PyState) (Hl : buffer_holds l es) :
  (el_size l < el_allocated l ->
   Buffer.ExprList_Append false l e st = Buffer.ExprList_Append true l e st)
  /\ (el_size l = el_allocated l ->
      exists l',
        Buffer.ExprList_Append false l e st = Ok (-1, l') st
        /\ el_p l' = PtrNull /\ el_size l' = el_size l
        /\ Buffer.ExprList_check_invariants l' = false
        /\ Buffer.ExprList_Finish l' st = Abort UndefinedBehaviour).
Proof.
  unfold buffer_holds, EXPRLIST_N_CACHED in Hl.
  destruct Hl as (Hsize & Hle & [k Hk] & Hcase).
  unfold Buffer.ExprList_Append. split.
  - intros Hlt. apply Z.leb_gt in Hlt. rewrite Hlt. reflexivity.
  - intros Hfull. assert ((el_allocated l <=? el_size l) = true) as ->
      by (apply Z.leb_le; lia).
    assert (0 < 2 ^ Z.of_nat k) by (apply Z.pow_pos_nonneg; lia).
    assert (exists n, Z.to_nat (el_size l) = S n) as [n Hn]
      by (exists (Nat.pred (Z.to_nat (el_size l))); lia).
    destruct Hcase as [(Hp & _)|(Hp & _)]; rewrite Hp; cbn [negb];
      (eexists; split; [reflexivity|]; cbn [el_p el_size];
       split; [reflexivity|]; split; [reflexivity|]; split;
       [unfold Buffer.ExprList_check_invariants; cbn [el_p el_size];
        now rewrite andb_false_r
       |unfold Buffer.ExprList_Finish, for_loop; cbn zeta; cbn [el_size];
        rewrite Nat.sub_0_r, Hn; reflexivity]).
Qed.

Lemma ExprList_Append_without_memory_witness :
  Buffer.ExprList_Append false Buffer.ExprList_Init (Some Example.name_x) Example.st0
  = Buffer.ExprList_Append true Buffer.ExprList_Init (Some Example.name_x) Example.st0.
Proof.
  apply (ExprList_Append_without_memory Buffer.ExprList_Init [] (Some Example.name_x)
           Example.st0).
  - unfold buffer_holds. simpl. split; [reflexivity|]. split; [vm_compute; discriminate|].
    split; [exists 0%nat; reflexivity|]. left. repeat split.
  - vm_compute. reflexivity.
Defined.
(** ** The pre-pass of [decode_unicode_with_escapes] *)





Section PrepassProofs.
Context `{Collaborators}.


End PrepassProofs.

(** ** The recursion of [fstring_parse] *)

Section RecursionProofs.
Context `{TokenKinds} `{allocs : Allocators} `{Collaborators}.

Variables rec rec' : Parser -> list ascii -> nat -> nat -> bool -> nat -> Token
                     -> M (expr_ty * nat).

Lemma find_expr_tail_ext (lvl : nat) (p : Parser) (buf : list ascii) (str_ end_ : nat)
    (raw : bool) (t : Token) (e : expr) (text : option (list ascii)) (st : PyState) :
  (forall p buf s e raw t st,
      rec p buf s e raw (S lvl) t st = rec' p buf s e raw (S lvl) t st) ->
  fstring_find_expr_tail rec p buf str_ end_ raw lvl t e text st
  = fstring_find_expr_tail rec' p buf str_ end_ raw lvl t e text st.
Proof.
  intros Hrec. unfold fstring_find_expr_tail. cbn zeta.
  repeat match goal with
         | |- (if ?c then _ else _) _ = _ => destruct c; [reflexivity|]
         end.
  unfold mbind, M_bind.
  destruct (ceq (char_at buf _) ":"%char); [rewrite Hrec|]; reflexivity.
Qed.

Lemma find_expr_ext (lvl : nat) (p : Parser) (buf : list ascii) (str_ end_ : nat)
    (raw : bool) (t : Token) (st : PyState) :
  agree_below lvl rec rec' ->
  fstring_find_expr rec p buf str_ end_ raw lvl t st
  = fstring_find_expr rec' p buf str_ end_ raw lvl t st.
Proof.
  intros Hrec. destruct (le_lt_dec 2 lvl) as [Hdeep|Hlvl].
  - unfold fstring_find_expr. apply Nat.leb_le in Hdeep. rewrite Hdeep. reflexivity.
  - specialize (Hrec Hlvl). unfold fstring_find_expr. cbn zeta.
    destruct (2 <=? lvl)%nat; [reflexivity|].
    unfold mbind, M_bind.
    repeat first
      [ reflexivity
      | apply find_expr_tail_ext; exact Hrec
      | match goal with
        | |- match ?x with _ => _ end = _ => destruct x
        | |- (if ?c then _ else _) _ = _ => destruct c
        | |- (match ?x with _ => _ end) _ = _ => destruct x
        end ].
Qed.

Lemma find_literal_and_expr_ext (lvl : nat) (p : Parser) (buf : list ascii)
    (str_ end_ : nat) (raw : bool) (t : Token) (st : PyState) :
  agree_below lvl rec rec' ->
  fstring_find_literal_and_expr rec p buf str_ end_ raw lvl t st
  = fstring_find_literal_and_expr rec' p buf str_ end_ raw lvl t st.
Proof.
  intros Hrec. unfold fstring_find_literal_and_expr, mbind, M_bind.
  destruct (fstring_find_literal p buf str_ end_ raw lvl st) as [[[r s] l] st1|];
    [|reflexivity].
  repeat match goal with
         | |- (if ?c then _ else _) _ = _ => destruct c; [reflexivity|]
         end.
  rewrite (find_expr_ext lvl) by exact Hrec. reflexivity.
Qed.

Lemma concat_loop_ext (fuel lvl : nat) (p : Parser) (state : FstringParser)
    (buf : list ascii) (str_ end_ : nat) (raw : bool) (t : Token) (st : PyState) :
  agree_below lvl rec rec' ->
  FstringParser_ConcatFstring_loop rec fuel p state buf str_ end_ raw lvl t st
  = FstringParser_ConcatFstring_loop rec' fuel p state buf str_ end_ raw lvl t st.
Proof.
  intros Hrec. revert state str_ st.
  induction fuel as [|fuel IH]; intros state str_ st; [reflexivity|].
  cbn [FstringParser_ConcatFstring_loop]. unfold mbind, M_bind.
  rewrite (find_literal_and_expr_ext lvl) by exact Hrec.
  destruct (fstring_find_literal_and_expr rec' p buf str_ end_ raw lvl t st)
    as [[[[[r s] l] et] e] st1|]; [|reflexivity].
  destruct (r <? 0); [reflexivity|]. cbn zeta.
  destruct (r =? 1); [apply IH|].
  destruct e as [e|]; [|reflexivity].
  repeat match goal with
         | |- match ?x with _ => _ end = _ =>
             destruct x; cbn beta iota; try reflexivity
         | |- (match ?x with _ => _ end) _ = _ =>
             destruct x; cbn beta iota; try reflexivity
         end;
    apply IH.
Qed.

Lemma parse_level_ext (lvl : nat) (p : Parser) (buf : list ascii) (str_ end_ : nat)
    (raw : bool) (t : Token) (st : PyState) :
  agree_below lvl rec rec' ->
  fstring_parse_level rec p buf str_ end_ raw lvl t st
  = fstring_parse_level rec' p buf str_ end_ raw lvl t st.
Proof.
  intros Hrec. unfold fstring_parse_level, FstringParser_ConcatFstring.
  cbn zeta. unfold mbind, M_bind.
  rewrite (concat_loop_ext _ lvl) by exact Hrec. reflexivity.
Qed.
End RecursionProofs.

(** X20.  [fstring_parse] calls itself, for a format spec, at most two
    levels deep: [fstring_find_expr] refuses an expression at recursion
    level 2 before it looks at the text, so the call for a format spec at
    level 3 is never made.  In the model, where the depth of the recursion
    is bounded, any bound from 3 on gives the result of the bound 3, at
    every recursion level, for every input and every state of the error
    indicator; at level 1 the bound 2 is enough and at level 2 and above
    the bound 1. *)
Theorem fstring_parse_recursion_is_bounded `{TokenKinds} `{allocs : Allocators} `{Collaborators}
    (d lvl : nat) (p : Parser) (buf : list ascii) (str_ end_ : nat) (raw : bool)
    (t : Token) (st : PyState) :
  fstring_parse_depth (3 + d) p buf str_ end_ raw lvl t st
  = fstring_parse p buf str_ end_ raw lvl t st
  /\ fstring_parse_depth (2 + d) p buf str_ end_ raw (1 + lvl) t st
     = fstring_parse_depth 2 p buf str_ end_ raw (1 + lvl) t st
  /\ fstring_parse_depth (1 + d) p buf str_ end_ raw (2 + lvl) t st
     = fstring_parse_depth 1 p buf str_ end_ raw (2 + lvl) t st.
Proof.
  assert (forall a b l p buf s e raw t st,
            fstring_parse_depth (S a) p buf s e raw (2 + l) t st
            = fstring_parse_depth (S b) p buf s e raw (2 + l) t st) as L2.
  { intros. cbn [fstring_parse_depth]. apply parse_level_ext.
    intros Hlt. simpl in Hlt. lia. }
  assert (forall a b l p buf s e raw t st,
            fstring_parse_depth (S (S a)) p buf s e raw (1 + l) t st
            = fstring_parse_depth (S (S b)) p buf s e raw (1 + l) t st) as L1.
  { intros. cbn [fstring_parse_depth]. apply parse_level_ext.
    intros _. intros. apply (L2 a b l). }
  assert (forall a b l p buf s e raw t st,
            fstring_parse_depth (S (S (S a))) p buf s e raw l t st
            = fstring_parse_depth (S (S (S b))) p buf s e raw l t st) as L0.
  { intros. cbn [fstring_parse_depth]. apply parse_level_ext.
    intros _. intros. apply (L1 a b l). }
  split; [apply (L0 d 0%nat)|]. split; [apply (L1 d 0%nat)|apply (L2 d 0%nat)].
Qed.
(** ** F-string literals *)

Lemma prefixes_fstring_literal (raw : bool) (prefix : list ascii) (q : ascii)
    (rest : list ascii) :
  In prefix (fstring_prefixes raw) -> q = "'"%char \/ q = dquote ->
  let s := prefix ++ q :: rest in
  (if Py_ISALPHA (char_at s 0)
   then parsestr_prefixes (S (length s)) s 0 (char_at s 0) false false false
   else Some (O, char_at s 0, false, false, false))
  = Some (length prefix, q, false, raw, true).
Proof.
  intros Hin [-> | ->]; destruct raw; simpl in Hin;
    repeat (destruct Hin as [<- | Hin]; [reflexivity|]); contradiction.
Qed.

Section FstringLiteralProofs.
Context `{TokenKinds} `{allocs : Allocators} `{Collaborators}.

Lemma parsestr_fstring_literal_eq (p : Parser) (raw : bool) (prefix : list ascii)
    (q : ascii) (triple : bool) (body : list ascii) (st : PyState) :
  In prefix (fstring_prefixes raw) ->
  (q = "'"%char \/ q = dquote) ->
  (triple = false -> hd NUL body <> q) ->
  Z.of_nat (length body) + 5 <= INT_MAX ->
  parsestr p (fstring_literal prefix q triple body) st
  = Ok {| ps_return := 0; ps_bytesmode := false; ps_rawmode := raw; ps_result := None;
          ps_fstr := Some (length prefix + length (quotes q triple))%nat;
          ps_fstrlen := Z.of_nat (length body) |} st.
Proof.
  intros Hin Hq Hhd Hlen. unfold parsestr.
  assert (fstring_literal prefix q triple body
          = prefix ++ q :: tl (quotes q triple) ++ body ++ quotes q triple) as Hshape
    by (unfold fstring_literal; destruct triple; reflexivity).
  pose proof (prefixes_fstring_literal raw prefix q
                (tl (quotes q triple) ++ body ++ quotes q triple) Hin Hq) as Hp.
  cbn zeta in Hp. rewrite <- Hshape in Hp. cbn zeta. rewrite Hp. cbn [andb].
  change (fstring_literal prefix q triple body) with (bytes_literal prefix q triple body).
  rewrite quotes_bytes_literal by assumption. reflexivity.
Qed.

(** The scan of [fstring_find_literal] steps over plain text one character
    a round. *)
Lemma literal_scan_plain (p : Parser) (raw : bool) (lvl str0 end_ : nat)
    (x pre post : list ascii) (fuel : nat) (st : PyState) :
  plain_text raw x = true -> (length pre + length x <= end_)%nat ->
  fstring_find_literal_scan (length x + fuel) p (pre ++ x ++ post) end_ raw lvl str0
    (length pre) st
  = fstring_find_literal_scan fuel p (pre ++ x ++ post) end_ raw lvl str0
      (length pre + length x) st.
Proof.
  revert pre. induction x as [|c x IH]; intros pre Hplain Hend.
  - cbn [length]. rewrite Nat.add_0_r. reflexivity.
  - cbn [plain_text forallb] in Hplain.
    apply andb_prop in Hplain as [Hc Hplain].
    apply andb_prop in Hc as [Hc Hesc]. apply andb_prop in Hc as [Hopen Hclose].
    apply negb_true_iff in Hopen, Hclose.
    cbn [length] in *. cbn [Nat.add fstring_find_literal_scan].
    rewrite (ltb_true (length pre)) by lia.
    cbn [app]. rewrite char_at_here.
    assert (negb raw && ceq c "\"%char = false) as ->
      by (destruct raw; [reflexivity|]; simpl in Hesc |- *;
          apply negb_true_iff in Hesc; exact Hesc).
    cbn [andb]. rewrite Hopen, Hclose. cbn [orb].
    pose proof (IH (pre ++ [c])) as IH'.
    rewrite <- !app_assoc, length_app in IH'. cbn [app length] in IH'.
    rewrite Nat.add_1_r in IH'. rewrite IH' by (assumption || lia).
    f_equal. lia.
Qed.

Lemma expect_token_at_cursor (p : Parser) (t : Token) (type : Z) (st : PyState) :
  (mark p < fill p)%nat -> tokens p !! mark p = Some t -> t_type t = type ->
  expect_token p type st = Ok (Some t, set_mark p (S (mark p))) st.
Proof.
  intros Hmark Htok Htype. unfold expect_token.
  assert ((mark p =? fill p)%nat = false) as -> by (apply Nat.eqb_neq; lia).
  erewrite bind_Ok by reflexivity.
  cbn [Z.ltb Z.compare]. rewrite Htok, Htype, Z.eqb_refl. reflexivity.
Qed.

Lemma find_literal_plain (p : Parser) (raw : bool) (lvl : nat) (pre x post : list ascii)
    (st : PyState) :
  plain_text raw x = true ->
  fstring_find_literal p (pre ++ x ++ post) (length pre) (length pre + length x) raw lvl st
  = match fstring_decode_literal p (pre ++ x ++ post) raw (length pre)
            (length pre + length x) st with
    | Ok (Some literal) st' => Ok (0, (length pre + length x)%nat, literal) st'
    | Ok None st' => Ok (-1, (length pre + length x)%nat, None) st'
    | Abort why => Abort why
    end.
Proof.
  intros Hplain. unfold fstring_find_literal.
  replace (S (length pre + length x - length pre)) with (length x + 1)%nat by lia.
  unfold mbind at 1, M_bind.
  rewrite literal_scan_plain by (assumption || lia).
  cbn [fstring_find_literal_scan]. rewrite Nat.ltb_irrefl.
  unfold mret, M_ret, mbind, M_bind.
  destruct (fstring_decode_literal _ _ _ _ _ st) as [[l|] st'|]; reflexivity.
Qed.

Lemma concat_fstring_plain (p : Parser) (raw : bool) (t : Token)
    (pre x post xl : list ascii) (st st' : PyState) :
  plain_text raw x = true -> x <> [] ->
  decode_run p raw x st = Ok (Some xl) st' ->
  FstringParser_ConcatFstring fstring_parse p FstringParser_Init (pre ++ x ++ post)
    (length pre) (length pre + length x) raw 0 t st
  = Ok (0, (length pre + length x)%nat,
        {| last_str := match xl with [] => None | _ => Some xl end; expr_list := [];
           fmode := true |}) st'.
Proof.
  intros Hplain Hne Hdec. unfold FstringParser_ConcatFstring.
  cbn [FstringParser_ConcatFstring_loop]. unfold fstring_find_literal_and_expr.
  unfold mbind, M_bind. rewrite find_literal_plain by exact Hplain.
  rewrite decode_literal_run by exact Hne. rewrite Hdec.
  cbn -[Z.of_nat Z.sub char_at]. rewrite Nat.leb_refl. cbn -[Z.of_nat Z.sub char_at].
  assert ((Z.of_nat (length pre + length x) <? Z.of_nat (length pre + length x) - 1)
          = false) as -> by (apply Z.ltb_ge; lia).
  destruct xl; reflexivity.
Qed.

Lemma concat_fstring_empty (p : Parser) (raw : bool) (t : Token) (buf : list ascii)
    (s : nat) (st : PyState) :
  FstringParser_ConcatFstring fstring_parse p FstringParser_Init buf s s raw 0 t st
  = Ok (0, s, {| last_str := None; expr_list := []; fmode := true |}) st.
Proof.
  unfold FstringParser_ConcatFstring.
  cbn [FstringParser_ConcatFstring_loop]. unfold fstring_find_literal_and_expr.
  unfold mbind, M_bind. rewrite find_literal_at_end.
  cbn -[Z.of_nat Z.sub char_at]. rewrite Nat.leb_refl. cbn -[Z.of_nat Z.sub char_at].
  assert ((Z.of_nat s <? Z.of_nat s - 1) = false) as -> by (apply Z.ltb_ge; lia).
  reflexivity.
Qed.

Lemma finish_joined_literal (p : Parser) (t : Token) (xl : list ascii) (st : PyState) :
  exc st = None ->
  FstringParser_Finish p
    {| last_str := match xl with [] => None | _ => Some xl end; expr_list := [];
       fmode := true |} t st
  = Ok (Some (joined_literal xl (t_loc t))) st.
Proof.
  intros Hexc. unfold FstringParser_Finish, joined_literal. cbn [fmode negb last_str].
  destruct xl as [|c xl]; [reflexivity|].
  destruct st as [e w]. cbn [exc] in Hexc. subst e.
  unfold mbind, M_bind, make_str_node_and_del, PyErr_Occurred.
  cbn [char_at nth]. destruct (ceq c "u"%char); reflexivity.
Qed.

(** X21.  For an f-string literal, raw or not, with any of the prefixes of
    f-strings, single or triple quoted (the body of a single-quoted literal
    does not begin with the quote character), [parsestr] decodes nothing:
    it returns 0 with [*fstr] at the first character of the body, behind
    the prefix and the opening quotes, [*fstrlen] the length of the body,
    [*rawmode] set exactly for the prefixes with an [r], [*bytesmode]
    clear and [*result] [NULL]; the error indicator and the warnings are
    as before.  The body can hold anything, backslashes and bytes above
    0x7f included. *)
Theorem parsestr_fstring_literal (p : Parser) (raw : bool) (prefix : list ascii)
    (q : ascii) (triple : bool) (body : list ascii) (st : PyState)
    (Hprefix : In prefix (fstring_prefixes raw))
    (Hq : q = "'"%char \/ q = dquote)
    (Hhd : triple = false -> hd NUL body <> q)
    (Hlen : Z.of_nat (length body) + 5 <= INT_MAX) :
  let text := fstring_literal prefix q triple body in
  exists fstr : nat,
    parsestr p text st
    = Ok {| ps_return := 0; ps_bytesmode := false; ps_rawmode := raw; ps_result := None;
            ps_fstr := Some fstr; ps_fstrlen := Z.of_nat (length body) |} st
    /\ fstr = (length prefix + (if triple then 3 else 1))%nat
    /\ take (length body) (drop fstr text) = body.
Proof.
  intros text. exists (length prefix + length (quotes q triple))%nat.
  split; [apply parsestr_fstring_literal_eq; assumption|].
  split; [destruct triple; reflexivity|].
  unfold text, fstring_literal. rewrite app_assoc, <- length_app.
  rewrite drop_app_length, take_app_length. reflexivity.
Qed.

(** X22.  [string_token] on an f-string token whose body [x] is plain text
    (no brace and, unless the literal is raw, no backslash): the token is
    consumed and the result is a [JoinedStr] at the token's position with a
    single [Constant], the text that the decoder of literal runs makes of
    [x].  The [Constant] has the kind [u] exactly when that text begins
    with the letter u.  An f-string with an empty body gives a [JoinedStr]
    with no values, without a call of the decoder, and so does one whose
    text decodes to nothing.  The token is the one at the cursor, already
    read from the lexer; the decoder raises nothing. *)
Theorem string_token_plain_fstring (p : Parser) (t : Token) (raw : bool)
    (prefix : list ascii) (q : ascii) (triple : bool) (x xl : list ascii)
    (st st' : PyState)
    (Hmark : (mark p < fill p)%nat)
    (Htok : tokens p !! mark p = Some t)
    (Htype : t_type t = STRING)
    (Hbytes : t_bytes t = Some (fstring_literal prefix q triple x))
    (Hprefix : In prefix (fstring_prefixes raw))
    (Hq : q = "'"%char \/ q = dquote)
    (Hhd : triple = false -> hd NUL x <> q)
    (Hlen : Z.of_nat (length x) + 5 <= INT_MAX)
    (Hplain : plain_text raw x = true)
    (Hdec : match x with
            | [] => xl = [] /\ st' = st
            | _ :: _ => decode_run (set_mark p (S (mark p))) raw x st = Ok (Some xl) st'
            end)
    (Hexc : exc st' = None) :
  string_token p st
  = Ok (Some (joined_literal xl (t_loc t)), set_mark p (S (mark p))) st'.
Proof.
  unfold string_token.
  erewrite bind_Ok by (apply (expect_token_at_cursor p t); assumption).
  cbn beta iota. rewrite Hbytes.
  erewrite bind_Ok by (apply (parsestr_fstring_literal_eq _ raw); assumption).
  cbn [ps_return ps_fstr ps_fstrlen ps_rawmode Z.eqb negb].
  rewrite Nat2Z.id.
  unfold fstring_literal. rewrite <- length_app, app_assoc.
  destruct x as [|c x].
  - destruct Hdec as [-> ->]. cbn [length]. rewrite Nat.add_0_r.
    erewrite bind_Ok by apply concat_fstring_empty.
    cbn beta iota.
    erewrite bind_Ok by (apply (finish_joined_literal _ t []); exact Hexc).
    reflexivity.
  - erewrite bind_Ok
      by (apply (concat_fstring_plain _ raw t _ (c :: x) _ xl st st');
          [assumption|discriminate|assumption]).
    cbn beta iota.
    erewrite bind_Ok by (apply finish_joined_literal; exact Hexc).
    reflexivity.
Qed.

(** X23.  A single [}] in the literal text of an f-string, at recursion
    level 0: for a body that is plain text [x] followed by a [}] that no
    second [}] follows, [FstringParser_ConcatFstring] returns -1 with
    [*str] at the brace and raises the [SyntaxError] [f-string: single '}'
    is not allowed] at the last token the parser has read.  The text in
    front of the brace is not decoded, and nothing is added to the state. *)
Theorem fstring_single_closing_brace (p : Parser) (t tk : Token) (raw : bool)
    (pre x post : list ascii) (end_ : nat) (st : PyState)
    (Hlast : last_token p tk)
    (Hplain : plain_text raw x = true)
    (Hend : (length pre + length x < end_)%nat)
    (Hsingle : (S (length pre + length x) < end_)%nat -> hd NUL post <> "}"%char) :
  let buf := pre ++ x ++ "}"%char :: post in
  FstringParser_ConcatFstring fstring_parse p FstringParser_Init buf (length pre) end_
    raw 0 t st
  = Ok (-1, (length pre + length x)%nat,
        {| last_str := None; expr_list := []; fmode := true |})
      {| exc := Some (SyntaxError (str "f-string: single '}' is not allowed")
                        (lineno (t_loc tk)) (col_offset (t_loc tk)));
         warned := warned st |}.
Proof.
  intros buf. unfold FstringParser_ConcatFstring.
  cbn [FstringParser_ConcatFstring_loop]. unfold fstring_find_literal_and_expr.
  unfold fstring_find_literal.
  replace (S (end_ - length pre))
    with (length x + S (S (end_ - length pre - length x - 1)))%nat by lia.
  unfold mbind, M_bind. unfold buf.
  rewrite literal_scan_plain by (assumption || lia).
  cbn [fstring_find_literal_scan].
  rewrite (ltb_true (length pre + length x)) by lia.
  rewrite app_assoc, <- length_app, char_at_here.
  replace (negb raw && ceq "}"%char "\"%char) with false by (now destruct raw).
  cbn [andb orb ceq Ascii.eqb Bool.eqb Nat.eqb].
  assert ((S (length (pre ++ x)) <? end_)%nat
          && ceq (char_at ((pre ++ x) ++ "}"%char :: post) (S (length (pre ++ x)))) "}"%char
          = false) as ->.
  { destruct (S (length (pre ++ x)) <? end_)%nat eqn:E; [|reflexivity].
    apply Nat.ltb_lt in E. rewrite length_app in E. specialize (Hsingle E).
    rewrite <- Nat.add_1_r, char_at_app_r. cbn [andb]. apply Ascii.eqb_neq.
    destruct post; exact Hsingle. }
  unfold mbind, M_bind.
  rewrite (raise_syntax_error_last p tk _ st Hlast).
  cbn -[Z.of_nat Z.sub char_at]. rewrite length_app.
  do 3 f_equal. lia.
Qed.
End FstringLiteralProofs.

Lemma parsestr_fstring_literal_witness :
  let text := fstring_literal (str "Rf") dquote true (str "it's {x}") in
  exists fstr : nat,
    parsestr (Example.parser_at_string text) text Example.st0
    = Ok {| ps_return := 0; ps_bytesmode := false; ps_rawmode := true; ps_result := None;
            ps_fstr := Some fstr; ps_fstrlen := 8 |} Example.st0
    /\ fstr = 5%nat
    /\ take 8 (drop fstr text) = str "it's {x}".
Proof.
  intros text.
  apply (parsestr_fstring_literal (Example.parser_at_string text) true (str "Rf") dquote
           true (str "it's {x}") Example.st0).
  - simpl. tauto.
  - right; reflexivity.
  - discriminate.
  - vm_compute. discriminate.
Defined.

Lemma string_token_plain_fstring_witness :
  let text := fstring_literal (str "f") "'"%char false (str "up") in
  let t := Example.string_tok text in
  let p := set_mark (Example.parser_at_string text) 0 in
  string_token p Example.st0
  = Ok (Some (JoinedStr
                (Some [Some (Constant (PyUnicode (str "up")) (Some (str "u")) (t_loc t))])
                (t_loc t)),
        set_mark p 1) Example.st0.
Proof.
  intros text t p.
  apply (string_token_plain_fstring p t false (str "f") "'"%char false (str "up") (str "up")
           Example.st0 Example.st0).
  - simpl. lia.
  - reflexivity.
  - reflexivity.
  - reflexivity.
  - simpl. tauto.
  - left; reflexivity.
  - discriminate.
  - vm_compute. discriminate.
  - reflexivity.
  - vm_compute. reflexivity.
  - reflexivity.
Defined.

Lemma fstring_single_closing_brace_witness :
  let text := str "f'ab}c'" in
  FstringParser_ConcatFstring fstring_parse (Example.parser_at_string text)
    FstringParser_Init text 2 6 false 0 (Example.string_tok text) Example.st0
  = Ok (-1, 4%nat, {| last_str := None; expr_list := []; fmode := true |})
      {| exc := Some (SyntaxError (str "f-string: single '}' is not allowed") 1 0);
         warned := [] |}.
Proof.
  intros text.
  apply (fstring_single_closing_brace (Example.parser_at_string text)
           (Example.string_tok text) (Example.string_tok text) false
           (str "f'") (str "ab") (str "c'") 6 Example.st0).
  - exists 0%nat. split; reflexivity.
  - reflexivity.
  - simpl. lia.
  - discriminate.
Defined.
(** ** The prefixes of a string literal *)

Lemma prefix_letter_cases (c : ascii) :
  prefix_letter c = true ->
  (is_b c = true /\ is_f c = false)
  \/ (is_b c = false /\ is_u c = true /\ is_f c = false)
  \/ (is_b c = false /\ is_u c = false /\ is_r c = true /\ is_f c = false)
  \/ (is_b c = false /\ is_u c = false /\ is_r c = false /\ is_f c = true).
Proof.
  unfold prefix_letter, is_b, is_u, is_r, is_f, ceq.
  destruct (Ascii.eqb_spec c "b"); [subst; simpl; tauto|].
  destruct (Ascii.eqb_spec c "B"); [subst; simpl; tauto|].
  destruct (Ascii.eqb_spec c "u"); [subst; simpl; tauto|].
  destruct (Ascii.eqb_spec c "U"); [subst; simpl; tauto|].
  destruct (Ascii.eqb_spec c "r"); [subst; simpl; tauto|].
  destruct (Ascii.eqb_spec c "R"); [subst; simpl; tauto|].
  destruct (Ascii.eqb_spec c "f"); [subst; simpl; tauto|].
  destruct (Ascii.eqb_spec c "F"); [subst; simpl; tauto|].
  simpl. discriminate.
Qed.

Lemma prefix_letter_no_quote (c : ascii) :
  prefix_letter c = true -> negb (ceq c "'"%char) && negb (ceq c dquote) = true.
Proof.
  intros Hc. unfold ceq.
  destruct (Ascii.eqb_spec c "'"); [subst; discriminate|].
  destruct (Ascii.eqb_spec c dquote); [subst; discriminate|]. reflexivity.
Qed.

(** The prefix loop on letters among which there are a [b] and an [f]: it
    ends with both modes set, or in front of a letter. *)
Lemma prefixes_bytes_and_fstring (todo : list ascii) :
  forall (done rest : list ascii) (fuel : nat) (b r f : bool),
    forallb prefix_letter todo = true ->
    prefix_letter (hd NUL rest) = false ->
    b || existsb is_b todo = true -> f || existsb is_f todo = true ->
    (length todo < fuel)%nat ->
    exists s0 quote b' r' f',
      parsestr_prefixes fuel (done ++ todo ++ rest) (length done)
        (char_at (done ++ todo ++ rest) (length done)) b r f
      = Some (s0, quote, b', r', f')
      /\ (f' && b' = true \/ prefix_letter quote = true).
Proof.
  induction todo as [|c todo IH]; intros done rest fuel b r f Hall Hrest Hb Hf Hfuel.
  - cbn [existsb] in Hb, Hf. rewrite orb_false_r in Hb, Hf. subst b f.
    cbn [app]. replace (char_at (done ++ rest) (length done)) with (hd NUL rest)
      by (rewrite <- (Nat.add_0_r (length done)), char_at_app_r; now destruct rest).
    destruct fuel as [|fuel]; [cbn [length] in Hfuel; lia|].
    cbn [parsestr_prefixes].
    unfold prefix_letter, is_b, is_u, is_r, is_f in Hrest.
    apply orb_false_elim in Hrest as [Hrest Hq4].
    apply orb_false_elim in Hrest as [Hrest Hq3].
    apply orb_false_elim in Hrest as [Hq1 Hq2].
    rewrite Hq1, Hq2, Hq3, Hq4.
    destruct (negb true || negb r); eauto 10.
  - cbn [forallb] in Hall. apply andb_prop in Hall as [Hc Hall].
    cbn [app]. rewrite char_at_here.
    destruct fuel as [|fuel]; [lia|]. cbn [length] in Hfuel.
    cbn [parsestr_prefixes].
    destruct (negb b || negb r) eqn:Hloop; [|eauto 10].
    pose proof (IH (done ++ [c]) rest fuel) as IH'.
    rewrite <- !app_assoc, length_app in IH'. cbn [app length] in IH'.
    rewrite Nat.add_1_r in IH'.
    cbn [existsb] in Hb, Hf.
    fold (is_b c) (is_u c) (is_r c) (is_f c).
    destruct (prefix_letter_cases c Hc)
      as [[E1 E4]|[(E1 & E2 & E4)|[(E1 & E2 & E3 & E4)|(E1 & E2 & E3 & E4)]]];
      rewrite ?E1, ?E2, ?E3, ?E4 in *; cbn [orb] in Hb, Hf;
      apply IH'; try assumption; try reflexivity; lia.
Qed.

(** X24.  No literal is both a bytes literal and an f-string: when the
    letters in front of the opening quote have a [b] or [B] and an [f] or
    [F] among them, in any order and with whatever other prefix letters,
    [parsestr] returns -1 with [PyErr_BadInternalCall] and no result,
    whatever follows the letters.  (When the loop over the prefix has seen
    a [b] and an [r] before it comes to the [f], the error is the one for
    a character that is not a quote.) *)
Theorem parsestr_bytes_fstring_refused `{TokenKinds} `{Collaborators}
    (p : Parser) (prefix rest : list ascii) (st : PyState)
    (Hletters : forallb prefix_letter prefix = true)
    (Hrest : prefix_letter (hd NUL rest) = false)
    (Hb : existsb is_b prefix = true)
    (Hf : existsb is_f prefix = true) :
  exists bytesmode rawmode,
    parsestr p (prefix ++ rest) st
    = Ok (parsestr_fail bytesmode rawmode)
        {| exc := Some BadInternalCall; warned := warned st |}.
Proof.
  unfold parsestr. cbn zeta.
  assert (Py_ISALPHA (char_at (prefix ++ rest) 0) = true) as ->.
  { destruct prefix as [|c prefix]; [discriminate|].
    cbn [forallb] in Hletters. apply andb_prop in Hletters as [Hc _].
    cbn [app char_at nth].
    destruct (prefix_letter_cases c Hc)
      as [[E _]|[(_ & E & _)|[(_ & _ & E & _)|(_ & _ & _ & E)]]];
      apply orb_prop in E as [E|E]; apply Ascii.eqb_eq in E; subst c; reflexivity. }
  destruct (prefixes_bytes_and_fstring prefix [] rest (S (length (prefix ++ rest)))
              false false false Hletters Hrest Hb Hf)
    as (s0 & quote & b' & r' & f' & Hrun & Hend).
  { rewrite length_app. lia. }
  cbn [app length] in Hrun. rewrite Hrun.
  destruct (f' && b') eqn:Hboth; [exists b', r'; reflexivity|].
  destruct Hend as [Hend|Hend]; [discriminate|].
  unfold parsestr_quotes. rewrite (prefix_letter_no_quote quote Hend).
  exists b', r'. reflexivity.
Qed.

Lemma parsestr_bytes_fstring_refused_witness :
  let text := str "rbf'x'" in
  exists bytesmode rawmode,
    parsestr (Example.parser_at_string text) text Example.st0
    = Ok (parsestr_fail bytesmode rawmode) {| exc := Some BadInternalCall; warned := [] |}.
Proof.
  intros text.
  apply (parsestr_bytes_fstring_refused (Example.parser_at_string text) (str "rbf")
           (str "'x'") Example.st0); reflexivity.
Defined.
(** ** The driver *)

Section RunParserProofs.
Context `{TokenKinds} `{allocs : Allocators} `{Collaborators}.
Variable object : Type.
Variable PyAST_CompileObject : mod_ -> list ascii -> M (option object).
Variable PyAST_mod2obj : mod_ -> M (option object).
Variable Py_None : object.

End RunParserProofs.

